(** * checkend-go: delivery core

    A shallow embedding of the filters, the notice projection, the delivery
    client, the notice builder, the asynchronous worker, the configuration,
    the entry points of the package and the integrations of checkend-go,
    followed by the properties of the specification that were checked
    against them and by further properties of the code.

    Conventions of the embedding:
    - Go strings are byte strings: [string] of the Standard Library, whose
      [String.length] is Go's [len].
    - [map[string]interface{}] is [gmap string value]; a nil map is [None] of
      [option (gmap string value)] wherever the source tests or writes it.
    - Go's [int] and [time.Duration] are [Z]; the only arithmetic that can
      leave the 64-bit range (the back-off shift) has its wrap-around
      written out.
    - Calls that leave the process (HTTP exchange, clock, host name,
      environment, call stack) are inputs of the embedded functions. *)

From stdpp Require Import gmap strings list fin_maps.
From Stdlib Require Import ZArith Ascii String Lia.
From Equations Require Import Equations.

#[local] Set Warnings "-register-all".
#[local] Open Scope Z_scope.

(* ===================================================================== *)
(** * Part I: the embedded program *)
(* ===================================================================== *)

(** ** Package [strings] of the Go library, on byte strings *)

Module GoStrings.

Definition lower_byte (c : ascii) : ascii :=
  let n := N_of_ascii c in
  if ((65 <=? n) && (n <=? 90))%N then ascii_of_N (n + 32) else c.

Definition upper_byte (c : ascii) : ascii :=
  let n := N_of_ascii c in
  if ((97 <=? n) && (n <=? 122))%N then ascii_of_N (n - 32) else c.

Fixpoint map_bytes (f : ascii -> ascii) (s : string) : string :=
  match s with
  | EmptyString => EmptyString
  | String c s' => String (f c) (map_bytes f s')
  end.

(** [strings.ToLower] and [strings.ToUpper] on strings of ASCII bytes,
    where the library maps byte by byte. On other strings the library
    maps the letters of Unicode, which is not modelled: bytes outside
    A-Z / a-z are left alone here. *)
Definition ToLower (s : string) : string := map_bytes lower_byte s.
Definition ToUpper (s : string) : string := map_bytes upper_byte s.

(** [len(s)] *)
Definition len (s : string) : Z := Z.of_nat (String.length s).

(** [s[:n]] and [s[n:]] for [0 <= n <= len s]. *)
Fixpoint take (n : nat) (s : string) : string :=
  match n, s with
  | S n', String c s' => String c (take n' s')
  | _, _ => EmptyString
  end.

Fixpoint drop (n : nat) (s : string) : string :=
  match n, s with
  | S n', String _ s' => drop n' s'
  | _, _ => s
  end.

Fixpoint HasPrefix (s prefix : string) {struct prefix} : bool :=
  match prefix, s with
  | EmptyString, _ => true
  | String p prefix', String c s' => Ascii.eqb c p && HasPrefix s' prefix'
  | String _ _, EmptyString => false
  end.

(** [len(s) >= len(suffix) && s[len(s)-len(suffix):] == suffix] *)
Definition HasSuffix (s suffix : string) : bool :=
  (String.length suffix <=? String.length s)%nat
  && String.eqb (drop (String.length s - String.length suffix) s) suffix.

Definition TrimPrefix (s prefix : string) : string :=
  if HasPrefix s prefix then drop (String.length prefix) s else s.

Fixpoint Contains (s substr : string) : bool :=
  HasPrefix s substr
  || match s with
     | EmptyString => false
     | String _ s' => Contains s' substr
     end.

(** [strings.SplitN(s, "=", 2)]: one element when [s] has no '=',
    otherwise the text before the first '=' and the text after it. *)
Fixpoint SplitN_eq2 (s : string) : string * option string :=
  match s with
  | EmptyString => (EmptyString, None)
  | String c s' =>
      if Ascii.eqb c "="%char then (EmptyString, Some s')
      else let '(k, v) := SplitN_eq2 s' in (String c k, v)
  end.

End GoStrings.

(** ** Dynamic values: what an [interface{}] of a context map holds *)

Module Values.

Inductive int_kind :=
| KInt | KInt8 | KInt16 | KInt32 | KInt64
| KUint | KUint8 | KUint16 | KUint32 | KUint64.

Inductive float_kind := KFloat32 | KFloat64.

(** The dynamic types that [filterValue] returns unchanged. *)
Inductive scalar :=
| SNil
| SBool (b : bool)
| SInt (k : int_kind) (n : Z)
| SFloat (k : float_kind) (bits : Z).

(** Every other dynamic type. [OStringMap] is [map[string]string] (the
    environment snapshot of the builder); [OOpaque str] is any further type,
    with [str] the result of its [String()] method when it has one. The
    trees of this module hold only values whose [String] method returns;
    a method that panics or does not return is in [SanitizeHeap]. *)
Inductive other :=
| OStringMap (m : gmap string string)
| OOpaque (str : option string).

(** A nested nil map or nil slice is not told apart from an empty one:
    [filterMap] and [filterSlice] range over no entry of either and return
    an empty container. *)
Inductive value :=
| VMap (m : gmap string value)      (* map[string]interface{} *)
| VSlice (l : list value)           (* []interface{} *)
| VString (s : string)
| VScalar (x : scalar)
| VOther (o : other).

(** Positions inside a value: a map key or a slice index per level. *)
Inductive step :=
| Key (k : string)
| Idx (i : nat).

Definition path := list step.

Fixpoint get (p : path) (v : value) : option value :=
  match p with
  | [] => Some v
  | Key k :: p' =>
      match v with
      | VMap m => match m !! k with Some x => get p' x | None => None end
      | _ => None
      end
  | Idx i :: p' =>
      match v with
      | VSlice l => match l !! i with Some x => get p' x | None => None end
      | _ => None
      end
  end.

Fixpoint value_size (v : value) : nat :=
  match v with
  | VMap m => S (map_fold (fun _ x acc => (value_size x + acc)%nat) 0%nat m)
  | VSlice l => S (foldr (fun x acc => (value_size x + acc)%nat) 0%nat l)
  | _ => 1%nat
  end.

End Values.

(** ** filters: SanitizeFilter (src/filters/ignore.go, second file part) *)

Module Sanitize.
Import GoStrings Values.

Definition FilteredValue : string := "[FILTERED]".
Definition maxDepth : Z := 10.
Definition maxStringLen : Z := 10000.

(** The [seen] field of the source is assigned by [Filter] and never read;
    it is left out. *)
Record SanitizeFilter := { filterKeys : list string }.

Definition NewSanitizeFilter (keys : list string) : SanitizeFilter :=
  {| filterKeys := map ToLower keys |}.

Definition shouldFilter (f : SanitizeFilter) (key : string) : bool :=
  let keyLower := ToLower key in
  existsb (fun filterKey => Contains keyLower filterKey) (filterKeys f).

Definition truncateString (s : string) : string :=
  if maxStringLen <? len s
  then take (Z.to_nat maxStringLen) s +:+ "..."
  else s.

Definition valueToString (o : other) : string :=
  match o with
  | OOpaque (Some s) => s
  | _ => "[UNKNOWN TYPE]"
  end.

(** The body of [filterMap], with the recursive call to [filterValue]
    abstracted so that the nested recursion is accepted. The range loop
    writes one entry per key of [data]; the order of a Go range does not
    show in the resulting map. *)
Definition filterMap_body (fv : value -> Z -> value) (f : SanitizeFilter)
    (data : gmap string value) (depth : Z) : gmap string value :=
  if maxDepth <? depth
  then {[ "_truncated" := VString "[MAX DEPTH EXCEEDED]" ]}
  else map_imap (fun key v =>
         Some (if shouldFilter f key
               then VString FilteredValue
               else fv v (depth + 1))) data.

Definition filterSlice_body (fv : value -> Z -> value)
    (data : list value) (depth : Z) : list value :=
  map (fun item => fv item (depth + 1)) data.

Fixpoint filterValue (f : SanitizeFilter) (v : value) (depth : Z)
    {struct v} : value :=
  if maxDepth <? depth then VString "[MAX DEPTH EXCEEDED]"
  else
    match v with
    | VMap m => VMap (filterMap_body (filterValue f) f m depth)
    | VSlice l => VSlice (filterSlice_body (filterValue f) l depth)
    | VString s => VString (truncateString s)
    | VScalar x => VScalar x
    | VOther o => VString (truncateString (valueToString o))
    end.

Definition filterMap (f : SanitizeFilter) (data : gmap string value)
    (depth : Z) : gmap string value :=
  filterMap_body (filterValue f) f data depth.

Definition filterSlice (f : SanitizeFilter) (data : list value)
    (depth : Z) : list value :=
  filterSlice_body (filterValue f) data depth.

Definition Filter (f : SanitizeFilter) (data : option (gmap string value))
    : option (gmap string value) :=
  match data with
  | None => None
  | Some m => Some (filterMap f m 0)
  end.

End Sanitize.

(** ** SanitizeFilter on shared structures

    A Go map or slice is a reference, so a context map can contain itself.
    Here a value refers to its map table or slice array in a heap, and the
    recursion of the filter is justified by the depth counter alone. The
    guard of [filterMap] is written in place in the map case. Here also a
    value may have a [String] method whose call does not return: the
    filter has no [recover], so its own call then returns no value. *)

Module SanitizeHeap.
Import GoStrings Values Sanitize.

Definition ref := positive.

(** [NOther o] is a value of another type as in [Values.other], whose
    [String] method, when it has one, returns. [NFaulty] is a value of
    another type with a [String] method whose call panics or does not
    return. *)
Inductive node :=
| NMap (r : ref)
| NSlice (r : ref)
| NString (s : string)
| NScalar (x : scalar)
| NOther (o : other)
| NFaulty.

(** A reference without table or array stands for a nil map or slice. *)
Record Heap := {
  tables : gmap ref (gmap string node);
  arrays : gmap ref (list node)
}.

Definition table (h : Heap) (r : ref) : gmap string node :=
  default ∅ (tables h !! r).

Definition array (h : Heap) (r : ref) : list node :=
  default [] (arrays h !! r).

(** The map that a range loop has filled when each of its turns has
    returned; [None] when one of them has not. Which turn comes first
    does not show in this. *)
Definition all_done (entries : gmap string (option value))
    : option (gmap string value) :=
  if decide (map_Forall (fun _ o => is_Some o) entries)
  then Some (omap id entries)
  else None.

(** [filterValue] on a node. [None]: the call does not return a value,
    because a call of [String] that it makes panics or does not return. *)
Equations filterNode (f : SanitizeFilter) (h : Heap) (v : node) (depth : Z)
    : option value by wf (Z.to_nat (maxDepth + 1 - depth)) lt :=
filterNode f h v depth with Z_lt_dec maxDepth depth := {
  | left _ => Some (VString "[MAX DEPTH EXCEEDED]")
  | right Hle with v := {
    | NMap r =>
        VMap <$>
          (if maxDepth <? depth
           then Some {[ "_truncated" := VString "[MAX DEPTH EXCEEDED]" ]}
           else all_done
                  (map_imap (fun key x =>
                     Some (if shouldFilter f key
                           then Some (VString FilteredValue)
                           else filterNode f h x (depth + 1))) (table h r)))
    | NSlice r =>
        VSlice <$>
          mapM (fun item => filterNode f h item (depth + 1)) (array h r)
    | NString s => Some (VString (truncateString s))
    | NScalar x => Some (VScalar x)
    | NOther o => Some (VString (truncateString (valueToString o)))
    | NFaulty => None
    }
  }.
Next Obligation. unfold maxDepth in *. lia. Qed.
Next Obligation. unfold maxDepth in *. lia. Qed.

(** [filterMap] on the table of a reference. *)
Definition filterTable (f : SanitizeFilter) (h : Heap) (r : ref) (depth : Z)
    : option (gmap string value) :=
  if maxDepth <? depth
  then Some {[ "_truncated" := VString "[MAX DEPTH EXCEEDED]" ]}
  else all_done
         (map_imap (fun key x =>
            Some (if shouldFilter f key
                  then Some (VString FilteredValue)
                  else filterNode f h x (depth + 1))) (table h r)).

(** [Filter] on a map given by reference. The result is [None] when the
    call does not return a value; a nil map, in and out, is the inner
    [None]. *)
Definition Filter_heap (f : SanitizeFilter) (h : Heap) (data : option ref)
    : option (option (gmap string value)) :=
  match data with
  | None => Some None
  | Some r => Some <$> filterTable f h r 0
  end.

(** The node found from [v] along a path, through the references. *)
Fixpoint walk (h : Heap) (p : path) (v : node) : option node :=
  match p with
  | [] => Some v
  | Key k :: p' =>
      match v with
      | NMap r =>
          match table h r !! k with Some x => walk h p' x | None => None end
      | _ => None
      end
  | Idx i :: p' =>
      match v with
      | NSlice r =>
          match array h r !! i with Some x => walk h p' x | None => None end
      | _ => None
      end
  end.

(** The tree read from a node through [n] levels of references; what lies
    deeper is cut to empty containers. A value whose [String] method does
    not return is read as a value without one: the tree stands for the
    structure only where the filter calls no such method. *)
Fixpoint unroll (n : nat) (h : Heap) (v : node) {struct n} : value :=
  match v with
  | NMap r =>
      match n with
      | O => VMap ∅
      | S n' => VMap (unroll n' h <$> table h r)
      end
  | NSlice r =>
      match n with
      | O => VSlice []
      | S n' => VSlice (unroll n' h <$> array h r)
      end
  | NString s => VString s
  | NScalar x => VScalar x
  | NOther o => VOther o
  | NFaulty => VOther (OOpaque None)
  end.

(** A map that contains itself under the key "self". *)
Definition self_map : Heap :=
  {| tables := {[ 1%positive := {[ "self" := NMap 1%positive;
                                   "name" := NString "loop" ]} ]};
     arrays := ∅ |}.

(** A map with a nil pointer to a type whose [String] method reads
    through the pointer, under the key "target". *)
Definition nil_stringer : Heap :=
  {| tables := {[ 1%positive := {[ "target" := NFaulty;
                                   "name" := NString "job" ]} ]};
     arrays := ∅ |}.

End SanitizeHeap.

(** ** Package [reflect]: the part of a dynamic type the program reads *)

Module Reflect.

(** [TNamed pkgPath pkgName name] is a defined type ([pkgPath] empty for a
    predeclared one), [TPtr t] is [*t], [TUnnamed str] any other type
    literal, printed [str]. *)
Inductive rtype :=
| TNamed (pkgPath pkgName name : string)
| TPtr (elem : rtype)
| TUnnamed (str : string).

#[export] Instance rtype_eq_dec : EqDecision rtype.
Proof. solve_decision. Defined.

Fixpoint type_String (t : rtype) : string :=
  match t with
  | TNamed pkgPath pkgName name =>
      if String.eqb pkgPath "" then name else pkgName +:+ "." +:+ name
  | TPtr e => "*" +:+ type_String e
  | TUnnamed str => str
  end.

Definition type_Name (t : rtype) : string :=
  match t with TNamed _ _ name => name | _ => "" end.

Definition type_PkgPath (t : rtype) : string :=
  match t with TNamed pkgPath _ _ => pkgPath | _ => "" end.

(** An error value: its dynamic type and the text of [Error()]. A nil
    [error] interface is [None] of [option GoError]. The errors here are
    those whose [Error] method returns that text; one whose method panics,
    such as a nil pointer in the interface, is not among them. *)
Record GoError := { err_type : rtype; err_Error : string }.

End Reflect.

(** ** Package [regexp], restricted to a fragment

    Patterns made of literal bytes and [.], each optionally followed by one
    of [*], [+], [?]. [Compile] answers [None] on every other pattern, so
    this engine stands for Go's only on the fragment; the ignore filter
    below is written over an arbitrary engine. *)

Module GoRegexp.

Inductive atom := ALit (c : ascii) | AAny.
Inductive quant := QOne | QStar | QPlus | QOpt.
Definition regex := list (atom * quant).

Definition is_meta (c : ascii) : bool :=
  existsb (Ascii.eqb c)
    ["\"; "["; "]"; "("; ")"; "{"; "}"; "|"; "^"; "$"; "*"; "+"; "?"]%char.

Definition quant_of (c : ascii) : option quant :=
  if Ascii.eqb c "*" then Some QStar
  else if Ascii.eqb c "+" then Some QPlus
  else if Ascii.eqb c "?" then Some QOpt
  else None.

Definition atom_of (c : ascii) : option atom :=
  if Ascii.eqb c "." then Some AAny
  else if is_meta c then None
  else Some (ALit c).

Fixpoint Compile (pattern : string) : option regex :=
  match pattern with
  | EmptyString => Some []
  | String c rest =>
      match atom_of c with
      | None => None
      | Some a =>
          match rest with
          | String q rest' =>
              match quant_of q with
              | Some qu => option_map (cons (a, qu)) (Compile rest')
              | None => option_map (cons (a, QOne)) (Compile rest)
              end
          | EmptyString => Some [(a, QOne)]
          end
      end
  end.

(** [.] matches every byte but a line feed. *)
Definition atom_match (a : atom) (c : ascii) : bool :=
  match a with
  | ALit x => Ascii.eqb c x
  | AAny => negb (Ascii.eqb c "010")
  end.

Fixpoint match_star (a : atom) (k : string -> bool) (s : string) : bool :=
  k s
  || match s with
     | String c s' => atom_match a c && match_star a k s'
     | EmptyString => false
     end.

Fixpoint match_here (re : regex) (s : string) : bool :=
  match re with
  | [] => true
  | (a, QOne) :: r =>
      match s with
      | String c s' => atom_match a c && match_here r s'
      | EmptyString => false
      end
  | (a, QStar) :: r => match_star a (match_here r) s
  | (a, QPlus) :: r =>
      match s with
      | String c s' => atom_match a c && match_star a (match_here r) s'
      | EmptyString => false
      end
  | (a, QOpt) :: r =>
      match_here r s
      || match s with
         | String c s' => atom_match a c && match_here r s'
         | EmptyString => false
         end
  end.

(** [re.MatchString(s)]: a match may start anywhere in [s]. *)
Fixpoint MatchString (re : regex) (s : string) : bool :=
  match_here re s
  || match s with
     | String _ s' => MatchString re s'
     | EmptyString => false
     end.

End GoRegexp.

(** ** filters: IgnoreFilter (src/filters/ignore.go, first file part) *)

Module Ignore.
Import GoStrings Reflect.

(** What the type switch of [ShouldIgnore] tells apart. [PatError t] is an
    error value of dynamic type [t]; [PatOther] is a value of any further
    type, which no case of the switch selects. *)
Inductive pattern :=
| PatString (p : string)
| PatType (t : rtype)
| PatError (t : rtype)
| PatOther.

Record IgnoreFilter := { patterns : list pattern }.

Definition NewIgnoreFilter (ps : list pattern) : IgnoreFilter :=
  {| patterns := ps |}.

Section Engine.

(** The regular-expression engine and [reflect.Type.AssignableTo]. *)
Context {R : Type}.
Variable regexp_Compile : string -> option R.
Variable regexp_MatchString : R -> string -> bool.
Variable AssignableTo : rtype -> rtype -> bool.

Definition matchesString (errName pattern : string) : bool :=
  if String.eqb errName pattern then true
  else if HasSuffix errName ("." +:+ pattern) || HasSuffix errName pattern
  then true
  else
    match regexp_Compile pattern with
    | Some re => if regexp_MatchString re errName then true else false
    | None => false
    end.

(** The range loop over [f.patterns] for a non-nil error. *)
Fixpoint matchPatterns (errType : rtype) (errName : string)
    (ps : list pattern) : bool :=
  match ps with
  | [] => false
  | pat :: rest =>
      match pat with
      | PatString p =>
          if matchesString errName p then true
          else matchPatterns errType errName rest
      | PatType p =>
          if bool_decide (errType = p) || AssignableTo errType p then true
          else matchPatterns errType errName rest
      | PatError p =>
          if bool_decide (errType = p) then true
          else matchPatterns errType errName rest
      | PatOther => matchPatterns errType errName rest
      end
  end.

Definition ShouldIgnore (f : IgnoreFilter) (err : option GoError) : bool :=
  match err with
  | None => true
  | Some e =>
      let errType := err_type e in
      let errName := TrimPrefix (type_String errType) "*" in
      matchPatterns errType errName (patterns f)
  end.

End Engine.

(** The filter over the fragment engine; assignability between distinct
    types is decided by the table [impl]. *)
Definition ShouldIgnore_frag (impl : rtype -> rtype -> bool)
    (f : IgnoreFilter) (err : option GoError) : bool :=
  ShouldIgnore GoRegexp.Compile GoRegexp.MatchString impl f err.

End Ignore.

(** ** The resolved configuration (src/configuration.go), fields read by
    the core *)

Module Config.

Record Configuration := {
  APIKey : string;
  Endpoint : string;
  Environment : string;
  Enabled : bool;
  AsyncSend : bool;
  MaxQueueSize : Z;
  ShutdownTimeout : Z;
  FilterKeys : list string;
  Debug : bool;
  AppName : string;
  Revision : string;
  RootPath : string;
  SendRequestData : bool;
  SendSessionData : bool;
  SendEnvironment : bool;
  SendUserData : bool
}.

Definition Version : string := "0.1.0".

End Config.

(** ** Package [time]: instants and the RFC3339 layout *)

Module GoTime.

(** An instant: seconds since the Unix epoch, nanoseconds within the
    second, and the offset in seconds of the attached location. *)
Record Time := { unix_sec : Z; nsec : Z; zone : Z }.

Definition UTC (t : Time) : Time :=
  {| unix_sec := unix_sec t; nsec := nsec t; zone := 0 |}.

Definition digit (n : Z) : ascii := ascii_of_N (48 + Z.to_N (n mod 10)).

Definition pad2 (n : Z) : string :=
  String (digit (n / 10)) (String (digit n) EmptyString).

Definition pad4 (n : Z) : string := pad2 (n / 100) +:+ pad2 n.

(** Civil date of a day count relative to 1970-01-01 (proleptic
    Gregorian calendar). *)
Definition civil_from_days (days : Z) : Z * Z * Z :=
  let z := days + 719468 in
  let era := z / 146097 in
  let doe := z - era * 146097 in
  let yoe := (doe - doe / 1460 + doe / 36524 - doe / 146096) / 365 in
  let doy := doe - (365 * yoe + yoe / 4 - yoe / 100) in
  let mp := (5 * doy + 2) / 153 in
  let d := doy - (153 * mp + 2) / 5 + 1 in
  let m := if mp <? 10 then mp + 3 else mp - 9 in
  let y := yoe + era * 400 in
  (if m <=? 2 then y + 1 else y, m, d).

(** [t.Format(time.RFC3339)], layout "2006-01-02T15:04:05Z07:00", for the
    years 0 to 9999: the layout has no field for the nanoseconds. *)
Definition Format_RFC3339 (t : Time) : string :=
  let local := unix_sec t + zone t in
  let '(y, m, d) := civil_from_days (local / 86400) in
  let secs := local mod 86400 in
  let off := Z.abs (zone t) in
  pad4 y +:+ "-" +:+ pad2 m +:+ "-" +:+ pad2 d +:+ "T"
  +:+ pad2 (secs / 3600) +:+ ":" +:+ pad2 (secs / 60 mod 60) +:+ ":"
  +:+ pad2 (secs mod 60)
  +:+ (if zone t =? 0 then "Z"
       else (if zone t <? 0 then "-" else "+")
            +:+ pad2 (off / 3600) +:+ ":" +:+ pad2 (off / 60 mod 60)).

End GoTime.

(** ** Notice and its wire projection (src/notice.go, first file part) *)

Module NoticeM.
Import Values GoTime.

Record NotifierInfo := {
  Name : string;
  NVersion : string;
  Language : string;
  LanguageVersion : string
}.

Record ServerInfo := {
  SAppName : string;
  SRevision : string;
  SHostname : string
}.

Record Notice := {
  ErrorClass : string;
  Message : string;
  Backtrace : list string;
  Fingerprint : string;
  Tags : list string;
  Context : option (gmap string value);
  Request : option (gmap string value);
  User : option (gmap string value);
  NEnvironment : string;
  OccurredAt : Time;
  Notifier : NotifierInfo;
  NAppName : string;
  NRevision : string;
  NHostname : string
}.

Record ErrorPayload := {
  EClass : string;
  EMessage : string;
  EBacktrace : list string;
  EFingerprint : string;
  ETags : list string;
  EOccurredAt : string
}.

Record Payload := {
  PError : ErrorPayload;
  PContext : gmap string value;
  PRequest : option (gmap string value);
  PUser : option (gmap string value);
  PNotifier : NotifierInfo;
  PServer : option ServerInfo
}.

(** [len(m)] of a possibly nil map. *)
Definition map_len (m : option (gmap string value)) : Z :=
  match m with
  | None => 0
  | Some g => Z.of_nat (size g)
  end.

(** [for k, v := range m { ctx[k] = v }] when the range visits the entries
    in the order [entries]. *)
Definition range_assign (entries : list (string * value))
    (ctx : gmap string value) : gmap string value :=
  foldl (fun acc kv => <[kv.1 := kv.2]> acc) ctx entries.

(** The entries of a possibly nil map, in the order of one range. *)
Definition range_entries (m : option (gmap string value))
    : list (string * value) :=
  match m with
  | None => []
  | Some g => map_to_list g
  end.

(** [ToPayload] when the range over [n.Context] visits [entries]. *)
Definition ToPayload_in_order (entries : list (string * value)) (n : Notice)
    : Payload :=
  let ctx := <["environment" := VString (NEnvironment n)]> (∅ : gmap string value) in
  let ctx := range_assign entries ctx in
  {| PError := {| EClass := ErrorClass n;
                  EMessage := Message n;
                  EBacktrace := Backtrace n;
                  EFingerprint := Fingerprint n;
                  ETags := Tags n;
                  EOccurredAt := Format_RFC3339 (UTC (OccurredAt n)) |};
     PContext := ctx;
     PRequest := if 0 <? map_len (Request n) then Request n else None;
     PUser := if 0 <? map_len (User n) then User n else None;
     PNotifier := Notifier n;
     PServer :=
       if negb (String.eqb (NAppName n) "")
          || negb (String.eqb (NRevision n) "")
          || negb (String.eqb (NHostname n) "")
       then Some {| SAppName := NAppName n;
                    SRevision := NRevision n;
                    SHostname := NHostname n |}
       else None |}.

Definition ToPayload (n : Notice) : Payload :=
  ToPayload_in_order (range_entries (Context n)) n.

End NoticeM.

(** ** Package [encoding/json]: decoding a response body *)

Module GoJSON.
Import GoStrings.

(** A number literal is an integer literal or one with a fraction or an
    exponent. *)
Inductive json_number := JInt (z : Z) | JNonInt.

Inductive json :=
| JNull
| JBool (b : bool)
| JNumber (n : json_number)
| JString (s : string)
| JArray (items : list json)
| JObject (members : list (string * json)).

(** A body as the decoder sees it: the bytes, and the JSON value they
    spell when they spell one. *)
Record Body := { body_bytes : string; body_json : option json }.

End GoJSON.

(** ** The delivery client (src/notice.go, second file part) *)

Module Client.
Import GoStrings Values Config GoTime NoticeM GoJSON.

Record APIResponse := { ID : Z; ProblemID : Z }.

Record HTTPRequest := {
  req_method : string;
  req_url : string;
  req_body : string;
  req_headers : list (string * string)
}.

Inductive http_result :=
| DoError (err : string)                 (* httpClient.Do failed *)
| ReadError (status : Z) (err : string)  (* io.ReadAll failed *)
| Response (status : Z) (body : Body).

(** What the library calls of one [Send] answer. *)
Record Net := {
  json_Marshal : Payload -> string + string;      (* data or error text *)
  http_NewRequest : string -> option string;      (* error text, if any *)
  httpClient_Do : HTTPRequest -> http_result
}.

Record Client := { config : Configuration; endpoint : string }.

Definition NewClient (cfg : Configuration) : Client :=
  {| config := cfg; endpoint := Endpoint cfg +:+ "/ingest/v1/errors" |}.

Record log_line := { level : string; message : string }.

(** [c.log]: debug lines are dropped unless debug mode is on. *)
Definition log (c : Client) (lvl msg : string) : list log_line :=
  if negb (Debug (config c)) && String.eqb lvl "debug" then []
  else [ {| level := lvl; message := msg |} ].

Definition StatusCreated : Z := 201.
Definition StatusUnauthorized : Z := 401.
Definition StatusUnprocessableEntity : Z := 422.
Definition StatusTooManyRequests : Z := 429.

(** Decimal rendering of [%d]. *)
Definition fmt_d (n : Z) : string := pretty.pretty n.

Definition handleHTTPError (c : Client) (statusCode : Z) (body : Body)
    : list log_line :=
  if statusCode =? StatusUnauthorized
  then log c "error" "Authentication failed: invalid API key"
  else if statusCode =? StatusUnprocessableEntity
  then log c "error" ("Validation error: " +:+ body_bytes body)
  else if statusCode =? StatusTooManyRequests
  then log c "warning" "Rate limited by Checkend API"
  else if 500 <=? statusCode
  then log c "error" ("Server error: " +:+ fmt_d statusCode)
  else log c "error" ("HTTP error: " +:+ fmt_d statusCode).

(** Storing a JSON value into an [int] field: [null] leaves the field,
    an integer literal in the range of [int] sets it, anything else is an
    error. *)
Definition store_int (v : json) (cur : Z) : option Z :=
  match v with
  | JNull => Some cur
  | JNumber (JInt z) =>
      if (- 2 ^ 63 <=? z) && (z <? 2 ^ 63) then Some z else None
  | _ => None
  end.

(** Member names select a field by its tag, letter case ignored; members
    that select no field are skipped; a later member overrides an earlier
    one. *)
Fixpoint decode_members (members : list (string * json)) (r : APIResponse)
    : option APIResponse :=
  match members with
  | [] => Some r
  | (k, v) :: rest =>
      if String.eqb (ToLower k) "id"
      then match store_int v (ID r) with
           | Some z => decode_members rest {| ID := z; ProblemID := ProblemID r |}
           | None => None
           end
      else if String.eqb (ToLower k) "problem_id"
      then match store_int v (ProblemID r) with
           | Some z => decode_members rest {| ID := ID r; ProblemID := z |}
           | None => None
           end
      else decode_members rest r
  end.

(** [json.Unmarshal(body, &apiResp)] with [apiResp] zero-valued: [None]
    when it reports an error. *)
Definition json_Unmarshal (body : Body) : option APIResponse :=
  let zero := {| ID := 0; ProblemID := 0 |} in
  match body_json body with
  | None => None
  | Some JNull => Some zero
  | Some (JObject members) => decode_members members zero
  | Some _ => None
  end.

Definition fmt_APIResponse (r : APIResponse) : string :=
  "{ID:" +:+ fmt_d (ID r) +:+ " ProblemID:" +:+ fmt_d (ProblemID r) +:+ "}".

(** The request that [Send] issues: [http.NewRequest("POST", c.endpoint,
    data)] with the three headers set. *)
Definition post_request (c : Client) (data : string) : HTTPRequest :=
  {| req_method := "POST";
     req_url := endpoint c;
     req_body := data;
     req_headers :=
       [("Content-Type", "application/json");
        ("Checkend-Ingestion-Key", APIKey (config c));
        ("User-Agent", "checkend-go/" +:+ Version)] |}.

(** [Send]: the response, nil as [None], and the lines written to the log.
    The text of the decoder's error is left out of the log line. *)
Definition Send (c : Client) (net : Net) (notice : Notice)
    : option APIResponse * list log_line :=
  if String.eqb (APIKey (config c)) ""
  then (None, log c "error" "Cannot send notice: api_key not configured")
  else
    let payload := ToPayload notice in
    match json_Marshal net payload with
    | inr err => (None, log c "error" ("Failed to marshal payload: " +:+ err))
    | inl data =>
        match http_NewRequest net (endpoint c) with
        | Some err =>
            (None, log c "error" ("Failed to create request: " +:+ err))
        | None =>
            match httpClient_Do net (post_request c data) with
            | DoError err =>
                (None, log c "error" ("Failed to send request: " +:+ err))
            | ReadError _ err =>
                (None, log c "error" ("Failed to read response: " +:+ err))
            | Response status body =>
                if negb (status =? StatusCreated)
                then (None, handleHTTPError c status body)
                else
                  match json_Unmarshal body with
                  | None =>
                      (None, log c "error" "Failed to parse response")
                  | Some apiResp =>
                      (Some apiResp,
                       log c "debug"
                         ("Notice sent successfully: "
                          +:+ fmt_APIResponse apiResp))
                  end
            end
        end
    end.

End Client.

(** ** The asynchronous worker (src/unnamed/part_001) *)

Module WorkerM.
Import Values Config NoticeM Client.

(** The queue is a buffered channel: [queue] is its buffer, oldest notice
    first, and the capacity is [MaxQueueSize] of the configuration. *)
Record Worker := {
  wconfig : Configuration;
  client : Client.Client;
  queue : list Notice;
  running : bool
}.

(** [make(chan *Notice, n)] panics on a negative [n]: [None]. The sizes
    that are too large for the runtime to allocate depend on the platform
    and are not told apart here: the facts about making a worker for a
    size that is not given by a queue in memory carry a bound on it. *)
Definition NewWorker (cfg : Configuration) : option Worker :=
  if MaxQueueSize cfg <? 0 then None
  else Some {| wconfig := cfg;
               client := NewClient cfg;
               queue := [];
               running := false |}.

Definition Start (w : Worker) : Worker :=
  if running w then w
  else {| wconfig := wconfig w; client := client w;
          queue := queue w; running := true |}.

(** [Push]. The send case of the [select] is ready when the processing
    task is blocked receiving on the queue ([receiver_waiting], the notice
    is handed over and returned as third component) or when the buffer has
    room; otherwise the [default] case runs. *)
Definition Push (w : Worker) (receiver_waiting : bool) (notice : Notice)
    : bool * Worker * option Notice :=
  if negb (running w) then (false, w, None)
  else if receiver_waiting then (true, w, Some notice)
  else if Z.of_nat (List.length (queue w)) <? MaxQueueSize (wconfig w)
  then (true,
        {| wconfig := wconfig w; client := client w;
           queue := queue w ++ [notice]; running := running w |},
        None)
  else (false, w, None).

(** Consecutive calls of [Push] while no receive happens on the queue. *)
Fixpoint push_all (w : Worker) (notices : list Notice)
    : list bool * Worker :=
  match notices with
  | [] => ([], w)
  | n :: rest =>
      let '(ok, w1, _) := Push w false n in
      let '(oks, w2) := push_all w1 rest in
      (ok :: oks, w2)
  end.

(** What the processing task does to the world, in order. *)
Inductive event :=
| EvSend (notice : Notice) (resp : option APIResponse)
| EvLog (line : log_line)
| EvSleep (d : Z).

(** The world of the processing task: [nets k] answers the library calls of
    the [k]-th call of [Send] (counting from 0), [sends] counts the calls
    made so far. *)
Record World := {
  nets : nat -> Net;
  sends : nat;
  events : list event
}.

Definition client_Send (w : Worker) (notice : Notice) (st : World)
    : option APIResponse * World :=
  let '(resp, lines) := Send (client w) (nets st (sends st)) notice in
  (resp,
   {| nets := nets st;
      sends := S (sends st);
      events := events st ++ EvSend notice resp :: map EvLog lines |}).

Definition time_Sleep (d : Z) (st : World) : World :=
  {| nets := nets st; sends := sends st; events := events st ++ [EvSleep d] |}.

Definition wrap64 (x : Z) : Z := (x + 2 ^ 63) mod 2 ^ 64 - 2 ^ 63.

Definition Millisecond : Z := 1000000.

(** [time.Duration(1<<uint(attempt)) * 100 * time.Millisecond], in int64
    nanoseconds; a shift count of 64 or more gives 0. *)
Definition delay (attempt : Z) : Z :=
  let shifted := if attempt <? 64 then wrap64 (Z.shiftl 1 attempt) else 0 in
  wrap64 (wrap64 (shifted * 100) * Millisecond).

(** The loop of [sendWithRetry], entered with the counter at [attempt]. *)
Equations sendWithRetry_from (w : Worker) (notice : Notice)
    (maxRetries attempt : Z) (st : World) : World
    by wf (Z.to_nat (maxRetries - attempt)) lt :=
sendWithRetry_from w notice maxRetries attempt st
  with Z_lt_dec attempt maxRetries := {
  | right _ => st
  | left Hlt with client_Send w notice st := {
    | (Some _, st1) => st1
    | (None, st1) =>
        sendWithRetry_from w notice maxRetries (attempt + 1)
          (if attempt <? maxRetries - 1
           then time_Sleep (delay attempt) st1
           else st1)
    }
  }.
Next Obligation. lia. Qed.

Definition sendWithRetry (w : Worker) (notice : Notice) (maxRetries : Z)
    (st : World) : World :=
  sendWithRetry_from w notice maxRetries 0 st.

(** The case [notice := <-w.queue] of [run]: the oldest queued notice is
    received and sent with three attempts. *)
Definition run_receive (w : Worker) (st : World) : Worker * World :=
  match queue w with
  | [] => (w, st)
  | notice :: rest =>
      ({| wconfig := wconfig w; client := client w;
          queue := rest; running := running w |},
       sendWithRetry w notice 3 st)
  end.

End WorkerM.

(** ** The notice builder (src/notice_builder.go) *)

Module Builder.
Import GoStrings Values Reflect Config GoTime NoticeM Sanitize.

Definition maxBacktraceLines : nat := 100.
Definition maxMessageLength : Z := 10000.

(** A run of Go code ends with a value or with a run-time panic. *)
Inductive outcome (A : Type) :=
| Ok (a : A)
| Panic (msg : string).
Arguments Ok {A} a.
Arguments Panic {A} msg.

#[export] Instance outcome_bind : MBind outcome := fun A B k x =>
  match x with
  | Ok a => k a
  | Panic msg => Panic msg
  end.

Record Frame := { File : string; Line : Z; Function : string }.

(** What the builder reads from the process: the frames of
    [runtime.Callers(4, ...)] innermost first, [os.Environ()],
    [os.Hostname()] ([None] on error), the clock and [runtime.Version()]. *)
Record Process := {
  callers : list Frame;
  os_Environ : list string;
  os_Hostname : option string;
  time_Now : Time;
  runtime_Version : string
}.

Record NoticeBuilder := {
  bconfig : Configuration;
  sanitizeFilter : SanitizeFilter
}.

Definition NewNoticeBuilder (cfg : Configuration) : NoticeBuilder :=
  {| bconfig := cfg; sanitizeFilter := NewSanitizeFilter (FilterKeys cfg) |}.

Definition extractClassName (err : option GoError) : string :=
  match err with
  | None => "error"
  | Some e =>
      let t := match err_type e with TPtr elem => elem | t0 => t0 end in
      let name := type_Name t in
      let name := if String.eqb name "" then type_String t else name in
      let pkg := type_PkgPath t in
      if negb (String.eqb pkg "") && negb (HasPrefix pkg "errors")
      then pkg +:+ "." +:+ name
      else name
  end.

(** [err.Error()] on a nil interface is a nil dereference. *)
Definition extractMessage (err : option GoError) : outcome string :=
  match err with
  | None =>
      Panic "runtime error: invalid memory address or nil pointer dereference"
  | Some e =>
      let message := err_Error e in
      Ok (if maxMessageLength <? len message
          then take (Z.to_nat maxMessageLength) message +:+ "..."
          else message)
  end.

Definition cleanFilePath (b : NoticeBuilder) (path : string) : string :=
  let root := RootPath (bconfig b) in
  if negb (String.eqb root "") && HasPrefix path root
  then TrimPrefix (TrimPrefix path root) "/"
  else path.

Definition frame_line (b : NoticeBuilder) (fr : Frame) : string :=
  cleanFilePath b (File fr) +:+ ":" +:+ pretty.pretty (Line fr)
  +:+ " in " +:+ Function fr.

Fixpoint backtrace_frames (b : NoticeBuilder) (frames : list Frame)
    : list string :=
  match frames with
  | [] => []
  | fr :: rest =>
      if Contains (File fr) "checkend-go"
      then backtrace_frames b rest
      else frame_line b fr :: backtrace_frames b rest
  end.

(** With no program counter at all, [frames.Next()] yields one zero
    frame, which the loop records. *)
Definition extractBacktrace (b : NoticeBuilder) (proc : Process)
    : list string :=
  match List.firstn maxBacktraceLines (callers proc) with
  | [] => [frame_line b {| File := ""; Line := 0; Function := "" |}]
  | frames => backtrace_frames b frames
  end.

Definition isSensitiveEnvVar (key : string) : bool :=
  let sensitivePatterns :=
    ["SECRET"; "PASSWORD"; "KEY"; "TOKEN"; "CREDENTIAL"; "AUTH"; "PRIVATE"] in
  let keyUpper := ToUpper key in
  existsb (fun pattern => Contains keyUpper pattern) sensitivePatterns.

Definition getEnvironmentVars (proc : Process) : gmap string string :=
  foldl (fun env e =>
           match SplitN_eq2 e with
           | (key, Some val) =>
               if isSensitiveEnvVar key then env else <[key := val]> env
           | (_, None) => env
           end) ∅ (os_Environ proc).

Definition getHostname (proc : Process) : string :=
  match os_Hostname proc with
  | Some h => h
  | None => ""
  end.

Definition buildNotifier (proc : Process) : NotifierInfo :=
  {| Name := "checkend-go";
     NVersion := Version;
     Language := "go";
     LanguageVersion := runtime_Version proc |}.

(** [m[key] = v]: a write to a nil map panics. *)
Definition map_assign (m : option (gmap string value)) (key : string)
    (v : value) : outcome (option (gmap string value)) :=
  match m with
  | None => Panic "assignment to entry in nil map"
  | Some g => Ok (Some (<[key := v]> g))
  end.

Definition Build (b : NoticeBuilder) (proc : Process)
    (err : option GoError)
    (context user request : option (gmap string value))
    (fingerprint : string) (tags : list string) : outcome Notice :=
  let errorClass := extractClassName err in
  message ← extractMessage err;
  let backtrace := extractBacktrace b proc in
  let sanitizedContext := Filter (sanitizeFilter b) context in
  sanitizedContext ←
    (if SendEnvironment (bconfig b)
     then map_assign sanitizedContext "env"
            (VOther (OStringMap (getEnvironmentVars proc)))
     else Ok sanitizedContext);
  let sanitizedUser :=
    if SendUserData (bconfig b) && (0 <? map_len user)
    then Filter (sanitizeFilter b) user else None in
  let sanitizedRequest :=
    if SendRequestData (bconfig b) && (0 <? map_len request)
    then Filter (sanitizeFilter b) request else None in
  Ok {| ErrorClass := errorClass;
        Message := message;
        Backtrace := backtrace;
        Fingerprint := fingerprint;
        Tags := tags;
        Context := sanitizedContext;
        User := sanitizedUser;
        Request := sanitizedRequest;
        NEnvironment := Environment (bconfig b);
        OccurredAt := UTC (time_Now proc);
        Notifier := buildNotifier proc;
        NAppName := AppName (bconfig b);
        NRevision := Revision (bconfig b);
        NHostname := getHostname proc |}.

End Builder.

(** ** The worker: stopping, flushing and draining (src/unnamed/part_001)

    The processing task is the only receiver of the queue, so what it does
    with the queue is given here as functions of the queue it finds. The
    [select] statements whose choice is not fixed by the state take it from
    a schedule. *)

Module WorkerRun.
Import Values Config NoticeM Client WorkerM Builder.

(** A worker together with its [done] channel. *)
Record Life := { lw : Worker; done_closed : bool }.

Definition NewLife (cfg : Configuration) : option Life :=
  match NewWorker cfg with
  | Some w => Some {| lw := w; done_closed := false |}
  | None => None
  end.

Definition Start_life (l : Life) : Life :=
  {| lw := Start (lw l); done_closed := done_closed l |}.

(** [Stop] up to [close(w.done)]: the flag is cleared under the lock,
    then the channel is closed, which panics when it is closed already. *)
Definition Stop_signal (l : Life) : outcome Life :=
  if negb (running (lw l)) then Ok l
  else
    let w := {| wconfig := wconfig (lw l); client := client (lw l);
                queue := queue (lw l); running := false |} in
    if done_closed l then Panic "close of closed channel"
    else Ok {| lw := w; done_closed := true |}.

(** The schedule of [drain]: at turn [i] of its loop, whether the context
    of the shutdown timeout is done, and whether the [select] then takes
    that case when a notice is ready as well. *)
Record Schedule := {
  ctx_done : nat -> bool;
  takes_done : nat -> bool
}.

(** The loop of [drain] from turn [i] on the queue [q]: the notices left
    in the queue and the world. With the queue empty the loop returns, by
    the context or by the default case. *)
Fixpoint drain_from (w : Worker) (sched : Schedule) (i : nat)
    (q : list Notice) (st : World) : list Notice * World :=
  match q with
  | [] => ([], st)
  | notice :: rest =>
      if ctx_done sched i && takes_done sched i then (q, st)
      else drain_from w sched (S i) rest (client_Send w notice st).2
  end.

Definition drain (w : Worker) (sched : Schedule) (st : World)
    : Worker * World :=
  let '(remaining, st') := drain_from w sched 0 (queue w) st in
  ({| wconfig := wconfig w; client := client w;
      queue := remaining; running := running w |}, st').

(** The case [done := <-w.flushCh] of [run]: while the queue has a notice,
    receive it and send it with three attempts. *)
Fixpoint flush_queue (w : Worker) (q : list Notice) (st : World) : World :=
  match q with
  | [] => st
  | notice :: rest => flush_queue w rest (sendWithRetry w notice 3 st)
  end.

(** [Flush], with the answer of the processing task: the call returns at
    once when the worker is not running or the queue is empty; otherwise it
    hands its channel to the processing task over [flushCh] and waits for
    that channel to be closed. A task started with [done] closed already
    takes that case of its [select] sooner or later and returns;
    [takes_done] says that it does so before it receives from [flushCh],
    and then nothing receives the channel of the call, which does not
    return: [None]. With [done] open the task takes the queued notices in
    order, each with three attempts, whichever of its two other cases
    receives them. *)
Definition Flush (l : Life) (takes_done : bool) (st : World)
    : option (Life * World) :=
  let w := lw l in
  if negb (running w) || (Z.of_nat (List.length (queue w)) =? 0)
  then Some (l, st)
  else if done_closed l && takes_done then None
  else Some ({| lw := {| wconfig := wconfig w; client := client w;
                         queue := []; running := running w |};
                done_closed := done_closed l |},
             flush_queue w (queue w) st).

(** The notices of the [Send] calls of an event list, and the number of
    its sleeps. *)
Fixpoint sent (evs : list event) : list Notice :=
  match evs with
  | [] => []
  | EvSend n _ :: rest => n :: sent rest
  | _ :: rest => sent rest
  end.

Fixpoint sleeps (evs : list event) : nat :=
  match evs with
  | [] => O
  | EvSleep _ :: rest => S (sleeps rest)
  | _ :: rest => sleeps rest
  end.

End WorkerRun.

(** ** Resolving the configuration (src/configuration.go)

    [Cfg.Config] is the structure given by the caller, with a pointer to
    [bool] as [option bool] and a duration in nanoseconds.
    [Resolve.Resolved] is the resolved configuration: the fields the core
    reads, as [Config.Configuration], and the others beside it. The
    environment variables are read through [getenv], which answers the
    empty string for a variable that is not set. *)

Module Cfg.

(** A before-notify callback may change the notice it is handed; it
    answers whether to go on, and the notice as it leaves it. The
    callbacks here are those that return. *)
Definition Callback : Type := NoticeM.Notice -> bool * NoticeM.Notice.

Record Config := {
  APIKey : string;
  Endpoint : string;
  Environment : string;
  Enabled : option bool;
  AsyncSend : bool;
  MaxQueueSize : Z;
  Timeout : Z;
  ConnectTimeout : Z;
  ShutdownTimeout : Z;
  FilterKeys : list string;
  IgnoredErrors : list Ignore.pattern;
  BeforeNotify : list Callback;
  Debug : bool;
  AppName : string;
  Revision : string;
  RootPath : string;
  SendRequestData : option bool;
  SendSessionData : option bool;
  SendEnvironment : option bool;
  SendUserData : option bool;
  Proxy : string;
  SSLVerify : option bool
}.

End Cfg.

Module Resolve.
Import GoStrings.

Definition Second : Z := 1000000000.
Definition DefaultEndpoint : string := "https://app.checkend.io".
Definition DefaultTimeout : Z := 15 * Second.
Definition DefaultConnectTimeout : Z := 5 * Second.
Definition DefaultShutdownTimeout : Z := 5 * Second.
Definition DefaultMaxQueueSize : Z := 1000.

Definition DefaultFilterKeys : list string :=
  ["password"; "password_confirmation"; "secret"; "secret_key"; "api_key";
   "apikey"; "access_token"; "auth_token"; "authorization"; "token";
   "credit_card"; "card_number"; "cvv"; "cvc"; "ssn"; "social_security"].

Record Resolved := {
  base : Config.Configuration;
  Timeout : Z;
  ConnectTimeout : Z;
  IgnoredErrors : list Ignore.pattern;
  BeforeNotify : list Cfg.Callback;
  Proxy : string;
  SSLVerify : bool
}.

(** [if s == "" { s = alt }] *)
Definition or_else (s alt : string) : string :=
  if String.eqb s "" then alt else s.

Definition or_default (o : option bool) (d : bool) : bool :=
  match o with
  | Some b => b
  | None => d
  end.

Fixpoint first_set (getenv : string -> string) (vars : list string)
    : option string :=
  match vars with
  | [] => None
  | v :: rest =>
      if String.eqb (getenv v) "" then first_set getenv rest
      else Some (getenv v)
  end.

Definition detectEnvironment (getenv : string -> string) : string :=
  match first_set getenv ["GO_ENV"; "ENVIRONMENT"; "ENV"; "APP_ENV"] with
  | Some val => val
  | None => "development"
  end.

Definition is_yes (s : string) : bool :=
  String.eqb s "true" || String.eqb s "1" || String.eqb s "yes".

Definition is_no (s : string) : bool :=
  String.eqb s "false" || String.eqb s "0" || String.eqb s "no".

Definition NewConfiguration (getenv : string -> string) (cfg : Cfg.Config)
    : Resolved :=
  let apiKey := or_else (Cfg.APIKey cfg) (getenv "CHECKEND_API_KEY") in
  let endpoint :=
    or_else (or_else (Cfg.Endpoint cfg) (getenv "CHECKEND_ENDPOINT"))
      DefaultEndpoint in
  let environment :=
    let e := or_else (Cfg.Environment cfg) (getenv "CHECKEND_ENVIRONMENT") in
    if String.eqb e "" then detectEnvironment getenv else e in
  let enabled :=
    match Cfg.Enabled cfg with
    | Some b => b
    | None => String.eqb environment "production"
              || String.eqb environment "staging"
    end in
  let asyncSend := if Cfg.AsyncSend cfg then true else true in
  let maxQueueSize :=
    if 0 <? Cfg.MaxQueueSize cfg then Cfg.MaxQueueSize cfg
    else DefaultMaxQueueSize in
  let timeout :=
    if 0 <? Cfg.Timeout cfg then Cfg.Timeout cfg else DefaultTimeout in
  let connectTimeout :=
    if 0 <? Cfg.ConnectTimeout cfg then Cfg.ConnectTimeout cfg
    else DefaultConnectTimeout in
  let shutdownTimeout :=
    if 0 <? Cfg.ShutdownTimeout cfg then Cfg.ShutdownTimeout cfg
    else DefaultShutdownTimeout in
  let filterKeys := DefaultFilterKeys ++ Cfg.FilterKeys cfg in
  let debug :=
    if Cfg.Debug cfg then true
    else is_yes (ToLower (getenv "CHECKEND_DEBUG")) in
  let appName := or_else (Cfg.AppName cfg) (getenv "CHECKEND_APP_NAME") in
  let revision :=
    or_else (or_else (Cfg.Revision cfg) (getenv "CHECKEND_REVISION"))
      (getenv "GIT_COMMIT") in
  let rootPath := or_else (Cfg.RootPath cfg) (getenv "CHECKEND_ROOT_PATH") in
  let proxy :=
    or_else (or_else (Cfg.Proxy cfg) (getenv "HTTPS_PROXY"))
      (getenv "HTTP_PROXY") in
  let sslVerify :=
    match Cfg.SSLVerify cfg with
    | Some b => b
    | None =>
        if is_no (ToLower (getenv "CHECKEND_SSL_VERIFY")) then false else true
    end in
  {| base :=
       {| Config.APIKey := apiKey;
          Config.Endpoint := endpoint;
          Config.Environment := environment;
          Config.Enabled := enabled;
          Config.AsyncSend := asyncSend;
          Config.MaxQueueSize := maxQueueSize;
          Config.ShutdownTimeout := shutdownTimeout;
          Config.FilterKeys := filterKeys;
          Config.Debug := debug;
          Config.AppName := appName;
          Config.Revision := revision;
          Config.RootPath := rootPath;
          Config.SendRequestData := or_default (Cfg.SendRequestData cfg) true;
          Config.SendSessionData := or_default (Cfg.SendSessionData cfg) true;
          Config.SendEnvironment := or_default (Cfg.SendEnvironment cfg) false;
          Config.SendUserData := or_default (Cfg.SendUserData cfg) true |};
     Timeout := timeout;
     ConnectTimeout := connectTimeout;
     IgnoredErrors := Cfg.IgnoredErrors cfg;
     BeforeNotify := Cfg.BeforeNotify cfg;
     Proxy := proxy;
     SSLVerify := sslVerify |}.

End Resolve.

(** ** Request-scoped data (src/unnamed/part_000)

    Of a [context.Context] only the value under the key of the package
    shows: a context is the nil interface, or holds no value under the key,
    or holds a pointer to a [ContextData], which may be nil. A context is
    never changed; the setters return a new one. *)

Module Ctx.
Import Values NoticeM Builder.

Record ContextData := {
  Context : option (gmap string value);
  User : option (gmap string value);
  Request : option (gmap string value)
}.

Inductive GoContext :=
| NilContext
| NoValue
| WithValue (data : option ContextData).

Definition nil_dereference : string :=
  "runtime error: invalid memory address or nil pointer dereference".

(** [context.WithValue] panics on a nil parent. *)
Definition WithContextData (ctx : GoContext) (data : option ContextData)
    : outcome GoContext :=
  match ctx with
  | NilContext => Panic "cannot create context from nil parent"
  | _ => Ok (WithValue data)
  end.

(** [ctx.Value] on the nil interface faults; a nil pointer stored under
    the key is returned as it is. *)
Definition GetContextData (ctx : GoContext) : outcome (option ContextData) :=
  match ctx with
  | NilContext => Panic nil_dereference
  | NoValue => Ok (Some {| Context := Some ∅; User := Some ∅;
                           Request := Some ∅ |})
  | WithValue data => Ok data
  end.

(** A field of the data behind a pointer that may be nil. *)
Definition deref (data : option ContextData) : outcome ContextData :=
  match data with
  | Some d => Ok d
  | None => Panic nil_dereference
  end.

Definition SetContext (ctx : GoContext) (data : option (gmap string value))
    : outcome GoContext :=
  ctxData ← GetContextData ctx;
  ctxData ← deref ctxData;
  let merged := range_assign (range_entries (Context ctxData)) ∅ in
  let merged := range_assign (range_entries data) merged in
  WithContextData ctx
    (Some {| Context := Some merged;
             User := User ctxData;
             Request := Request ctxData |}).

Definition SetUser (ctx : GoContext) (user : option (gmap string value))
    : outcome GoContext :=
  ctxData ← GetContextData ctx;
  ctxData ← deref ctxData;
  WithContextData ctx
    (Some {| Context := Context ctxData;
             User := user;
             Request := Request ctxData |}).

Definition SetRequest (ctx : GoContext) (request : option (gmap string value))
    : outcome GoContext :=
  ctxData ← GetContextData ctx;
  ctxData ← deref ctxData;
  WithContextData ctx
    (Some {| Context := Context ctxData;
             User := User ctxData;
             Request := request |}).

End Ctx.

(** ** The options of a notification (src/checkend.go) *)

Module Opt.
Import Values.

Record notifyOptions := {
  Context : option (gmap string value);
  User : option (gmap string value);
  Request : option (gmap string value);
  Fingerprint : string;
  Tags : list string
}.

Definition NotifyOption : Type := notifyOptions -> notifyOptions.

Definition WithContext (ctx : option (gmap string value)) : NotifyOption :=
  fun o => {| Context := ctx; User := User o; Request := Request o;
              Fingerprint := Fingerprint o; Tags := Tags o |}.

Definition WithUser (user : option (gmap string value)) : NotifyOption :=
  fun o => {| Context := Context o; User := user; Request := Request o;
              Fingerprint := Fingerprint o; Tags := Tags o |}.

Definition WithRequest (request : option (gmap string value)) : NotifyOption :=
  fun o => {| Context := Context o; User := User o; Request := request;
              Fingerprint := Fingerprint o; Tags := Tags o |}.

Definition WithFingerprint (fingerprint : string) : NotifyOption :=
  fun o => {| Context := Context o; User := User o; Request := Request o;
              Fingerprint := fingerprint; Tags := Tags o |}.

Definition WithTags (tags : list string) : NotifyOption :=
  fun o => {| Context := Context o; User := User o; Request := Request o;
              Fingerprint := Fingerprint o; Tags := tags |}.

(** [options := &notifyOptions{}; for _, opt := range opts { opt(options) }] *)
Definition apply_options (opts : list NotifyOption) : notifyOptions :=
  foldl (fun o opt => opt o)
    {| Context := None; User := None; Request := None;
       Fingerprint := ""; Tags := [] |} opts.

End Opt.

(** ** The entry points of the package (src/checkend.go, src/testing.go)

    The package variables are the fields of [SDK]. A notification returns
    the new value of the variables, the world after the calls of the
    library, and the notice handed over to the processing task when that
    was waiting on the queue. *)

Module Pipeline.
Import Values Reflect NoticeM Client WorkerM Builder Resolve.

Record SDK := {
  config : option Resolved;
  worker : option Worker;
  initialized : bool;
  testingEnabled : bool;
  testingNotices : list Notice
}.

Definition set_worker (sdk : SDK) (w : option Worker) : SDK :=
  {| config := config sdk; worker := w; initialized := initialized sdk;
     testingEnabled := testingEnabled sdk;
     testingNotices := testingNotices sdk |}.

Definition capture (sdk : SDK) (notice : Notice) : SDK :=
  {| config := config sdk; worker := worker sdk;
     initialized := initialized sdk;
     testingEnabled := testingEnabled sdk;
     testingNotices := testingNotices sdk ++ [notice] |}.

Definition SetupTesting (sdk : SDK) : SDK :=
  {| config := config sdk; worker := worker sdk;
     initialized := initialized sdk;
     testingEnabled := true; testingNotices := [] |}.

Definition TestingNoticeCount (sdk : SDK) : Z :=
  Z.of_nat (List.length (testingNotices sdk)).

Definition TestingLastNotice (sdk : SDK) : option Notice :=
  if Z.of_nat (List.length (testingNotices sdk)) =? 0 then None
  else List.nth_error (testingNotices sdk)
         (List.length (testingNotices sdk) - 1).

(** [Configure]: a queue size for which [NewWorker] makes no channel
    makes it panic. *)
Definition Configure (getenv : string -> string) (sdk : SDK)
    (cfg : Cfg.Config) : outcome SDK :=
  let c := NewConfiguration getenv cfg in
  w ← (if Config.AsyncSend (base c) && Config.Enabled (base c)
       then match NewWorker (base c) with
            | Some w => Ok (Some (Start w))
            | None => Panic "makechan: size out of range"
            end
       else Ok (worker sdk));
  Ok {| config := Some c; worker := w; initialized := true;
        testingEnabled := testingEnabled sdk;
        testingNotices := testingNotices sdk |}.

(** [runBeforeNotify]: the callbacks in order, each on the notice as the
    ones before it left it, up to the first that answers false. *)
Fixpoint runBeforeNotify (callbacks : list Cfg.Callback) (notice : Notice)
    : bool * Notice :=
  match callbacks with
  | [] => (true, notice)
  | callback :: rest =>
      let '(ok, notice') := callback notice in
      if ok then runBeforeNotify rest notice' else (false, notice')
  end.

Definition buildNotice (c : Resolved) (proc : Process) (ctx : Ctx.GoContext)
    (err : option GoError) (opts : list Opt.NotifyOption) : outcome Notice :=
  let options := Opt.apply_options opts in
  ctxData ← Ctx.GetContextData ctx;
  ctxData ← Ctx.deref ctxData;
  let mergedContext := range_assign (range_entries (Ctx.Context ctxData)) ∅ in
  let mergedContext :=
    range_assign (range_entries (Opt.Context options)) mergedContext in
  let mergedUser :=
    match Opt.User options with
    | Some u => Some u
    | None => Ctx.User ctxData
    end in
  let mergedRequest :=
    match Opt.Request options with
    | Some r => Some r
    | None => Ctx.Request ctxData
    end in
  Build (NewNoticeBuilder (base c)) proc err (Some mergedContext)
    mergedUser mergedRequest (Opt.Fingerprint options) (Opt.Tags options).

(** [NewClient(config).Send(notice)] in the world [st]. *)
Definition direct_Send (c : Resolved) (notice : Notice) (st : World)
    : option APIResponse * World :=
  let '(resp, lines) := Send (NewClient (base c)) (nets st (sends st)) notice in
  (resp,
   {| nets := nets st;
      sends := S (sends st);
      events := events st ++ EvSend notice resp :: map EvLog lines |}).

Section Engine.

Context {R : Type}.
Variable regexp_Compile : string -> option R.
Variable regexp_MatchString : R -> string -> bool.
Variable AssignableTo : rtype -> rtype -> bool.

Definition shouldIgnore (sdk : SDK) (err : option GoError) : bool :=
  match config sdk with
  | None => false
  | Some c =>
      Ignore.ShouldIgnore regexp_Compile regexp_MatchString AssignableTo
        (Ignore.NewIgnoreFilter (IgnoredErrors c)) err
  end.

(** The steps that [NotifyWithContext] and [NotifySyncWithContext] share:
    [Ok None] when the notification stops before a notice is to be
    routed. *)
Definition prepare (sdk : SDK) (proc : Process) (ctx : Ctx.GoContext)
    (err : option GoError) (opts : list Opt.NotifyOption)
    : outcome (option (Resolved * Notice)) :=
  match config sdk with
  | None => Ok None
  | Some c =>
      if negb (initialized sdk) || negb (Config.Enabled (base c)) then Ok None
      else if shouldIgnore sdk err then Ok None
      else
        notice ← buildNotice c proc ctx err opts;
        let '(ok, notice) := runBeforeNotify (BeforeNotify c) notice in
        if negb ok then Ok None else Ok (Some (c, notice))
  end.

Definition NotifyWithContext (sdk : SDK) (proc : Process)
    (receiver_waiting : bool) (st : World) (ctx : Ctx.GoContext)
    (err : option GoError) (opts : list Opt.NotifyOption)
    : outcome (SDK * World * option Notice) :=
  prepared ← prepare sdk proc ctx err opts;
  match prepared with
  | None => Ok (sdk, st, None)
  | Some (c, notice) =>
      if testingEnabled sdk then Ok (capture sdk notice, st, None)
      else
        match Config.AsyncSend (base c), worker sdk with
        | true, Some w =>
            let '(_, w', handed) := Push w receiver_waiting notice in
            Ok (set_worker sdk (Some w'), st, handed)
        | _, _ => Ok (sdk, (direct_Send c notice st).2, None)
        end
  end.

Definition NotifySyncWithContext (sdk : SDK) (proc : Process)
    (st : World) (ctx : Ctx.GoContext)
    (err : option GoError) (opts : list Opt.NotifyOption)
    : outcome (SDK * World * option APIResponse) :=
  prepared ← prepare sdk proc ctx err opts;
  match prepared with
  | None => Ok (sdk, st, None)
  | Some (c, notice) =>
      if testingEnabled sdk
      then Ok (capture sdk notice, st, Some {| ID := 0; ProblemID := 0 |})
      else
        let '(resp, st') := direct_Send c notice st in
        Ok (sdk, st', resp)
  end.

End Engine.

End Pipeline.

(** ** integrations (src/integrations/asynq.go, machinery.go)

    The helpers that redact job arguments, the request record made of an
    [http.Request], and two of the handlers that report through
    [NotifyWithContext]. *)

Module Integrations.
Import GoStrings Values Reflect NoticeM Builder WorkerM Resolve Pipeline.

(** [toLower]: [c + 32] for a byte from 'A' to 'Z'. *)
Definition toLower (c : ascii) : ascii :=
  let n := N_of_ascii c in
  if ((65 <=? n) && (n <=? 90))%N then ascii_of_N (n + 32) else c.

(** The loop of [equalFoldPrefix] over the bytes of [prefix]; it is
    entered with [s] at least as long. *)
Fixpoint equalFold_loop (s prefix : string) {struct prefix} : bool :=
  match prefix, s with
  | EmptyString, _ => true
  | String p prefix', String c s' =>
      if negb (Ascii.eqb (toLower c) (toLower p)) then false
      else equalFold_loop s' prefix'
  | String _ _, EmptyString => false
  end.

Definition equalFoldPrefix (s prefix : string) : bool :=
  if len s <? len prefix then false else equalFold_loop s prefix.

Fixpoint containsIgnoreCase (s substr : string) {struct s} : bool :=
  (len substr <=? len s)
  && (String.eqb s substr
      || ((len substr <? len s)
          && ((match s with
               | String _ s' => containsIgnoreCase s' substr
               | EmptyString => false
               end)
              || equalFoldPrefix s substr))).

Definition sensitivePatterns : list string :=
  ["password"; "secret"; "token"; "key"; "auth";
   "credential"; "private"; "api_key"; "apikey"].

Definition isSensitiveKey (key : string) : bool :=
  existsb (fun pattern => containsIgnoreCase key pattern) sensitivePatterns.

Fixpoint sanitizeJobArgs (data : value) {struct data} : value :=
  match data with
  | VMap v =>
      VMap (map_imap (fun key val =>
              Some (if isSensitiveKey key then VString "[FILTERED]"
                    else sanitizeJobArgs val)) v)
  | VSlice v => VSlice (map sanitizeJobArgs v)
  | _ => data
  end.

(** *** Machinery *)

Record MachinerySignature := {
  UUID : string;
  Name : string;
  RoutingKey : string;
  Args : list value;
  RetryCount : Z;
  RetryTimeout : Z
}.

Section Handlers.

Context {R : Type}.
Variable regexp_Compile : string -> option R.
Variable regexp_MatchString : R -> string -> bool.
Variable AssignableTo : rtype -> rtype -> bool.

Definition MachineryErrorHandler (sdk : SDK) (proc : Process)
    (receiver_waiting : bool) (st : World) (ctx : Ctx.GoContext)
    (taskName : string) (err : option GoError)
    (opts : list Opt.NotifyOption)
    : outcome (SDK * World * option Notice) :=
  match err with
  | None => Ok (sdk, st, None)
  | Some _ =>
      let taskCtx : gmap string value :=
        {[ "machinery" := VMap {[ "task_name" := VString taskName ]} ]} in
      ctx ← Ctx.SetContext ctx (Some taskCtx);
      let allOpts := [Opt.WithTags ["machinery"; "background_job"]] ++ opts in
      NotifyWithContext regexp_Compile regexp_MatchString AssignableTo
        sdk proc receiver_waiting st ctx err allOpts
  end.

(** [sig] is a pointer: its fields are read when the error is not nil. *)
Definition MachineryErrorHandlerWithSignature (sdk : SDK) (proc : Process)
    (receiver_waiting : bool) (st : World) (ctx : Ctx.GoContext)
    (sig : option MachinerySignature) (err : option GoError)
    (opts : list Opt.NotifyOption)
    : outcome (SDK * World * option Notice) :=
  match err with
  | None => Ok (sdk, st, None)
  | Some _ =>
      sig ← match sig with
            | Some s => Ok s
            | None => Panic Ctx.nil_dereference
            end;
      let taskCtx : gmap string value :=
        {[ "machinery" :=
             VMap (<["uuid" := VString (UUID sig)]>
                   (<["task_name" := VString (Name sig)]>
                   (<["routing_key" := VString (RoutingKey sig)]>
                   (<["args" := sanitizeJobArgs (VSlice (Args sig))]>
                   (<["retry_count" := VScalar (SInt KInt (RetryCount sig))]>
                   (<["retry_timeout" :=
                        VScalar (SInt KInt (RetryTimeout sig))]> ∅)))))) ]} in
      ctx ← Ctx.SetContext ctx (Some taskCtx);
      let allOpts := [Opt.WithTags ["machinery"; "background_job"]] ++ opts in
      NotifyWithContext regexp_Compile regexp_MatchString AssignableTo
        sdk proc receiver_waiting st ctx err allOpts
  end.

End Handlers.

(** *** HTTP requests

    Of an [http.Request] the fields that [extractRequest] reads, with
    [Query] the result of [r.URL.Query()]. A header or parameter with one
    value is stored as that string, any other as the [[]string] itself,
    which has no [String] method. *)

Record GoURL := {
  RawQuery : string;
  Query : gmap string (list string)
}.

Record HttpRequest := {
  TLS : bool;
  Host : string;
  RequestURI : string;
  Method : string;
  Header : gmap string (list string);
  URL : option GoURL;
  rctx : Ctx.GoContext
}.

Definition values_entry (values : list string) : value :=
  match values with
  | [v] => VString v
  | _ => VOther (OOpaque None)
  end.

Definition extractRequest (r : HttpRequest) : outcome (gmap string value) :=
  let scheme := if TLS r then "https" else "http" in
  let url := scheme +:+ "://" +:+ Host r +:+ RequestURI r in
  let headers : gmap string value := values_entry <$> Header r in
  let request : gmap string value :=
    <["url" := VString url]>
    (<["method" := VString (Method r)]>
    (<["headers" := VMap headers]> ∅)) in
  u ← match URL r with
      | Some u => Ok u
      | None => Panic Ctx.nil_dereference
      end;
  if negb (String.eqb (RawQuery u) "")
  then Ok (<["params" := VMap (values_entry <$> Query u)]> request)
  else Ok request.

(** [r.Context()]: the background context when the request has none. *)
Definition Request_Context (r : HttpRequest) : Ctx.GoContext :=
  match rctx r with
  | Ctx.NilContext => Ctx.NoValue
  | c => c
  end.

Section HTTPHandlers.

Context {R : Type}.
Variable regexp_Compile : string -> option R.
Variable regexp_MatchString : R -> string -> bool.
Variable AssignableTo : rtype -> rtype -> bool.

(** [GinErrorHandler]; [EchoErrorHandler] has the same body. *)
Definition GinErrorHandler (sdk : SDK) (proc : Process)
    (receiver_waiting : bool) (st : World) (r : option HttpRequest)
    (err : option GoError) (opts : list Opt.NotifyOption)
    : outcome (SDK * World * option Notice) :=
  r ← match r with
      | Some r => Ok r
      | None => Panic Ctx.nil_dereference
      end;
  request ← extractRequest r;
  ctx ← Ctx.SetRequest (Request_Context r) (Some request);
  NotifyWithContext regexp_Compile regexp_MatchString AssignableTo
    sdk proc receiver_waiting st ctx err opts.

End HTTPHandlers.

End Integrations.

(* ===================================================================== *)
(** * Part II: properties *)
(* ===================================================================== *)

(** ** Byte strings *)

Module GoStringsFacts.
Import GoStrings.
#[local] Arguments String.append !_ _ / : simpl nomatch.

Lemma length_app_str (a b : string) :
  String.length (a +:+ b) = (String.length a + String.length b)%nat.
Proof. induction a as [|c a IH]; simpl; [reflexivity | now rewrite IH]. Qed.

Lemma length_take (n : nat) (s : string) :
  (n <= String.length s)%nat -> String.length (take n s) = n.
Proof.
  revert s; induction n as [|n IH]; intros [|c s] Hn; simpl in *;
    try lia; try reflexivity.
  rewrite IH; lia.
Qed.

Lemma take_take_app (n : nat) (s t : string) :
  (n <= String.length s)%nat -> take n (take n s +:+ t) = take n s.
Proof.
  revert s; induction n as [|n IH]; intros [|c s] Hn; simpl in *;
    try lia; try (now destruct t).
  rewrite IH; [reflexivity | lia].
Qed.

Lemma HasPrefix_app (s t : string) : HasPrefix (s +:+ t) s = true.
Proof.
  induction s as [|c s IH]; simpl; [reflexivity|].
  now rewrite Ascii.eqb_refl.
Qed.

Lemma drop_app_length (s t : string) : drop (String.length s) (s +:+ t) = t.
Proof. induction s as [|c s IH]; simpl; [now destruct t | exact IH]. Qed.

Lemma HasSuffix_app (s t : string) : HasSuffix (s +:+ t) t = true.
Proof.
  unfold HasSuffix. rewrite length_app_str.
  replace (String.length s + String.length t - String.length t)%nat
    with (String.length s) by lia.
  rewrite drop_app_length, String.eqb_refl.
  apply andb_true_iff; split; [|reflexivity].
  apply Nat.leb_le; lia.
Qed.

Lemma take_drop (n : nat) (s : string) : take n s +:+ drop n s = s.
Proof.
  revert s; induction n as [|n IH]; intros [|c s]; simpl; try reflexivity.
  now rewrite IH.
Qed.

(** A suffix test that holds yields the decomposition of the string. *)
Lemma HasSuffix_elim (s t : string) :
  HasSuffix s t = true -> exists u, s = u +:+ t.
Proof.
  unfold HasSuffix. intros H. apply andb_true_iff in H as [_ H].
  apply String.eqb_eq in H.
  exists (take (String.length s - String.length t) s).
  rewrite <- H at 2. symmetry. apply take_drop.
Qed.

(** [Contains] finds the pattern at the head of some suffix. *)
Lemma Contains_iff (s sub : string) :
  Contains s sub = true <-> exists n, HasPrefix (drop n s) sub = true.
Proof.
  induction s as [|c s IH].
  - simpl. rewrite orb_false_r. split.
    + intros H. now exists 0%nat.
    + intros [[|n] H]; exact H.
  - cbn [Contains]. rewrite orb_true_iff, IH. split.
    + intros [H | [n H]]; [now exists 0%nat | now exists (S n)].
    + intros [[|n] H]; [now left | right; now exists n].
Qed.

End GoStringsFacts.

(** ** Values: size and induction *)

Module ValuesFacts.
Import Values.

Lemma value_size_lookup (m : gmap string value) k v :
  m !! k = Some v -> (value_size v < value_size (VMap m))%nat.
Proof.
  intros Hk. cbn [value_size].
  rewrite (map_fold_delete_L _ _ k v m); [lia | | exact Hk].
  intros; lia.
Qed.

Lemma value_size_elem (l : list value) v :
  In v l -> (value_size v < value_size (VSlice l))%nat.
Proof.
  cbn [value_size]. induction l as [|x l IH]; simpl; [tauto|].
  intros [-> | Hin]; [lia | specialize (IH Hin); lia].
Qed.

(** Induction over values with the hypotheses for the entries of a map and
    the items of a slice. *)
Lemma value_nested_ind (P : value -> Prop) :
  (forall m, map_Forall (fun _ v => P v) m -> P (VMap m)) ->
  (forall l, Forall P l -> P (VSlice l)) ->
  (forall s, P (VString s)) ->
  (forall x, P (VScalar x)) ->
  (forall o, P (VOther o)) ->
  forall v, P v.
Proof.
  intros Hmap Hslice Hstr Hsc Hoth v.
  remember (value_size v) as n eqn:Hn. revert v Hn.
  induction n as [n IH] using lt_wf_ind. intros v ->.
  destruct v as [m | l | s | x | o]; auto.
  - apply Hmap. intros k v Hk.
    apply (IH (value_size v)); [now apply value_size_lookup with k | reflexivity].
  - apply Hslice. apply Forall_forall. intros v Hin.
    apply (IH (value_size v)); [|reflexivity].
    apply value_size_elem. now apply list_elem_of_In.
Qed.

End ValuesFacts.

(** ** SanitizeFilter *)

Module SanitizeFacts.
Import GoStrings Values Sanitize GoStringsFacts ValuesFacts.

Definition depth_sentinel : string := "[MAX DEPTH EXCEEDED]".

(** No key on the path is one the filter redacts. *)
Definition path_clear (f : SanitizeFilter) (p : path) : bool :=
  forallb (fun st => match st with
                     | Key k => negb (shouldFilter f k)
                     | Idx _ => true
                     end) p.

(** The entry written by the range loop of [filterMap] at depth [d]. *)
Definition entry (f : SanitizeFilter) (d : Z) (key : string) (v : value)
    : option value :=
  Some (if shouldFilter f key then VString FilteredValue
        else filterValue f v (d + 1)).

Lemma truncateString_idem (s : string) :
  truncateString (truncateString s) = truncateString s.
Proof.
  unfold truncateString.
  destruct (maxStringLen <? len s) eqn:Hlong.
  - apply Z.ltb_lt in Hlong. unfold len in *.
    assert (HN : (Z.to_nat maxStringLen <= String.length s)%nat) by lia.
    set (N := Z.to_nat maxStringLen) in *.
    assert (Hlen : String.length (take N s +:+ "...") = (N + 3)%nat).
    { rewrite length_app_str, length_take by exact HN. reflexivity. }
    rewrite Hlen.
    replace (maxStringLen <? Z.of_nat (N + 3)) with true
      by (symmetry; apply Z.ltb_lt; subst N; unfold maxStringLen; lia).
    now rewrite take_take_app.
  - now rewrite Hlong.
Qed.

Lemma filterValue_deep (f : SanitizeFilter) (v : value) (d : Z) :
  maxDepth < d -> filterValue f v d = VString depth_sentinel.
Proof.
  intros H. apply Z.ltb_lt in H. destruct v; simpl; now rewrite H.
Qed.

Lemma filterValue_shallow (f : SanitizeFilter) (v : value) (d : Z) :
  d <= maxDepth ->
  filterValue f v d =
    match v with
    | VMap m => VMap (map_imap (entry f d) m)
    | VSlice l => VSlice (map (fun item => filterValue f item (d + 1)) l)
    | VString s => VString (truncateString s)
    | VScalar x => VScalar x
    | VOther o => VString (truncateString (valueToString o))
    end.
Proof.
  intros H. apply Z.ltb_ge in H.
  destruct v; simpl; rewrite H; try reflexivity.
  unfold filterMap_body. now rewrite H.
Qed.

Lemma filterMap_deep (f : SanitizeFilter) (data : gmap string value) (d : Z) :
  maxDepth < d ->
  filterMap f data d = {[ "_truncated" := VString depth_sentinel ]}.
Proof.
  intros H. apply Z.ltb_lt in H. unfold filterMap, filterMap_body.
  now rewrite H.
Qed.

Lemma filterMap_shallow (f : SanitizeFilter) (data : gmap string value) (d : Z) :
  d <= maxDepth -> filterMap f data d = map_imap (entry f d) data.
Proof.
  intros H. apply Z.ltb_ge in H. unfold filterMap, filterMap_body.
  now rewrite H.
Qed.

(** At the top level [Filter] is [filterValue] at depth 0. *)
Lemma Filter_as_value (f : SanitizeFilter) (m : gmap string value) :
  VMap (filterMap f m 0) = filterValue f (VMap m) 0.
Proof.
  rewrite filterMap_shallow, filterValue_shallow by (unfold maxDepth; lia).
  reflexivity.
Qed.

Lemma filterValue_idem (f : SanitizeFilter) (v : value) :
  forall d, filterValue f (filterValue f v d) d = filterValue f v d.
Proof.
  induction v as [m IH | l IH | s | x | o] using value_nested_ind; intros d;
    destruct (Z_lt_dec maxDepth d) as [Hd | Hd];
    try (now rewrite !(filterValue_deep _ _ _ Hd)).
  all: rewrite (filterValue_shallow f _ d) by lia.
  all: rewrite (filterValue_shallow f _ d) by lia.
  - f_equal. apply map_eq. intros k.
    rewrite !map_lookup_imap.
    destruct (m !! k) as [v|] eqn:Hk; [|reflexivity]. cbn.
    unfold entry. destruct (shouldFilter f k); [reflexivity|].
    f_equal. exact (IH k v Hk (d + 1)).
  - f_equal. rewrite map_map. apply map_ext_in. intros v Hin.
    rewrite Forall_forall in IH. apply IH. now apply list_elem_of_In.
  - now rewrite truncateString_idem.
  - reflexivity.
  - now rewrite truncateString_idem.
Qed.

Lemma get_app (p q : path) (v : value) :
  get (p ++ q) v = match get p v with Some x => get q x | None => None end.
Proof.
  revert v. induction p as [|st p IH]; intros v; [reflexivity|].
  destruct st as [k | i]; destruct v as [m | l | s | x | o]; simpl;
    try reflexivity.
  - destruct (m !! k); [apply IH | reflexivity].
  - destruct (l !! i); [apply IH | reflexivity].
Qed.

Lemma get_leaf (q : path) (s : string) : q <> [] -> get q (VString s) = None.
Proof. destruct q as [|[k|i] q]; [congruence | reflexivity | reflexivity]. Qed.

(** Along a path without redacted key the filter follows the input, one
    level of depth per step. *)
Lemma get_filter_clear (f : SanitizeFilter) (p : path) :
  forall v d x,
    get p v = Some x ->
    path_clear f p = true ->
    d + Z.of_nat (List.length p) <= maxDepth + 1 ->
    get p (filterValue f v d)
    = Some (filterValue f x (d + Z.of_nat (List.length p))).
Proof.
  induction p as [|st p IH]; intros v d x Hget Hclear Hd.
  - simpl in *. injection Hget as ->. now rewrite Z.add_0_r.
  - cbn [List.length] in *. cbn [path_clear forallb] in Hclear.
    apply andb_true_iff in Hclear as [Hst Hclear].
    rewrite filterValue_shallow by lia.
    replace (d + Z.of_nat (S (List.length p)))
      with ((d + 1) + Z.of_nat (List.length p)) by lia.
    destruct st as [k | i]; destruct v as [m | l | s | y | o];
      simpl in Hget; try discriminate; cbn [get].
    + rewrite map_lookup_imap.
      destruct (m !! k) as [y|]; [|discriminate]. cbn.
      unfold entry. apply negb_true_iff in Hst. rewrite Hst.
      apply IH; [exact Hget | exact Hclear | lia].
    + rewrite list_lookup_fmap.
      destruct (l !! i) as [y|]; [|discriminate]. cbn.
      apply IH; [exact Hget | exact Hclear | lia].
Qed.

(** In the output, a key that the filter redacts holds the marker. *)
Lemma get_filter_marker (f : SanitizeFilter) (p : path) :
  forall v d k y,
    get (p ++ [Key k]) (filterValue f v d) = Some y ->
    shouldFilter f k = true ->
    y = VString FilteredValue.
Proof.
  induction p as [|st p IH]; intros v d k y Hget Hk;
    (destruct (Z_lt_dec maxDepth d) as [Hd | Hd];
     [rewrite (filterValue_deep _ _ _ Hd), get_leaf in Hget
        by discriminate; discriminate|]).
  - rewrite filterValue_shallow in Hget by lia.
    destruct v as [m | l | s | x | o]; try discriminate.
    simpl in Hget. rewrite map_lookup_imap in Hget.
    destruct (m !! k) as [x|]; [|discriminate]. cbn in Hget.
    unfold entry in Hget. rewrite Hk in Hget. congruence.
  - rewrite filterValue_shallow in Hget by lia.
    destruct st as [k1 | i]; destruct v as [m | l | s | x | o];
      try discriminate; cbn [app get] in Hget.
    + rewrite map_lookup_imap in Hget.
      destruct (m !! k1) as [x|]; [|discriminate]. cbn in Hget.
      unfold entry in Hget. destruct (shouldFilter f k1).
      * rewrite get_leaf in Hget by (now destruct p). discriminate.
      * eapply IH; eauto.
    + rewrite list_lookup_fmap in Hget.
      destruct (l !! i) as [x|]; [|discriminate]. cbn in Hget.
      eapply IH; eauto.
Qed.

(** Below a redacted key the output has no position. *)
Lemma get_filter_blocked (f : SanitizeFilter) (p : path) :
  forall v d r,
    path_clear f p = false -> r <> [] ->
    get (p ++ r) (filterValue f v d) = None.
Proof.
  induction p as [|st p IH]; intros v d r Hclear Hr; [discriminate|].
  destruct (Z_lt_dec maxDepth d) as [Hd | Hd].
  { rewrite (filterValue_deep _ _ _ Hd). now destruct st. }
  rewrite filterValue_shallow by lia.
  cbn [path_clear forallb] in Hclear.
  destruct st as [k1 | i]; destruct v as [m | l | s | x | o];
    try reflexivity; cbn [app get].
  - rewrite map_lookup_imap.
    destruct (m !! k1) as [x|]; [|reflexivity]. cbn.
    unfold entry. destruct (shouldFilter f k1) eqn:Hk1.
    + apply get_leaf. now destruct p.
    + apply IH; [exact Hclear | exact Hr].
  - rewrite list_lookup_fmap.
    destruct (l !! i) as [x|]; [|reflexivity]. cbn.
    apply IH; [exact Hclear | exact Hr].
Qed.

(** Every position of the output is a position of the input. *)
Lemma get_filter_provenance (f : SanitizeFilter) (p : path) :
  forall v d y,
    get p (filterValue f v d) = Some y -> exists x, get p v = Some x.
Proof.
  induction p as [|st p IH]; intros v d y Hget; [now exists v|].
  destruct (Z_lt_dec maxDepth d) as [Hd | Hd].
  { rewrite (filterValue_deep _ _ _ Hd) in Hget. now destruct st. }
  rewrite filterValue_shallow in Hget by lia.
  destruct st as [k1 | i]; destruct v as [m | l | s | x | o];
    try discriminate; cbn [get] in *.
  - rewrite map_lookup_imap in Hget.
    destruct (m !! k1) as [x|]; [|discriminate]. cbn in Hget.
    unfold entry in Hget. destruct (shouldFilter f k1).
    + destruct p; [now exists x | now destruct s].
    + eapply IH; eauto.
  - rewrite list_lookup_fmap in Hget.
    destruct (l !! i) as [x|]; [|discriminate]. cbn in Hget.
    eapply IH; eauto.
Qed.

(** The output has no position below depth [maxDepth + 1]. *)
Lemma get_filter_bounded (f : SanitizeFilter) (p : path) :
  forall v d y,
    get p (filterValue f v d) = Some y -> d <= maxDepth + 1 ->
    d + Z.of_nat (List.length p) <= maxDepth + 1.
Proof.
  induction p as [|st p IH]; intros v d y Hget Hle; [simpl; lia|].
  destruct (Z_lt_dec maxDepth d) as [Hd | Hd].
  { rewrite (filterValue_deep _ _ _ Hd) in Hget. now destruct st. }
  rewrite filterValue_shallow in Hget by lia.
  cbn [List.length].
  destruct st as [k1 | i]; destruct v as [m | l | s | x | o];
    try discriminate; cbn [get] in *.
  - rewrite map_lookup_imap in Hget.
    destruct (m !! k1) as [x|]; [|discriminate]. cbn in Hget.
    unfold entry in Hget. destruct (shouldFilter f k1).
    + destruct p; [simpl; lia | now destruct s].
    + specialize (IH _ (d + 1) _ Hget). lia.
  - rewrite list_lookup_fmap in Hget.
    destruct (l !! i) as [x|]; [|discriminate]. cbn in Hget.
    specialize (IH _ (d + 1) _ Hget). lia.
Qed.

(** C7. Filtering is idempotent: filtering the result of [Filter] again
    returns the same map, a nil map included. *)
Theorem Filter_idempotent (f : SanitizeFilter)
    (data : option (gmap string value)) :
  Filter f (Filter f data) = Filter f data.
Proof.
  destruct data as [m|]; [|reflexivity]. cbn [Filter]. f_equal.
  assert (H : VMap (filterMap f (filterMap f m 0) 0) = VMap (filterMap f m 0)).
  { rewrite (Filter_as_value f (filterMap f m 0)), (Filter_as_value f m).
    apply filterValue_idem. }
  now injection H.
Qed.

Definition nested_secret : gmap string value :=
  {[ "password" := VMap {[ "token" := VString "abc123" ]} ]}.

(** C1, as stated, fails for a key that lies below another redacted key.
    In the input the key "token" is at depth 1 and matches a filter key,
    but it lies in the value of "password", which is replaced as a whole:
    the output has no key "token", so that key is not preserved with the
    marker as its value. *)
Lemma redaction_counterexample :
  get [Key "password"; Key "token"] (VMap nested_secret)
  = Some (VString "abc123")
  /\ shouldFilter (NewSanitizeFilter ["password"; "token"]) "token" = true
  /\ Filter (NewSanitizeFilter ["password"; "token"]) (Some nested_secret)
     = Some {[ "password" := VString FilteredValue ]}
  /\ (Filter (NewSanitizeFilter ["password"; "token"]) (Some nested_secret)
        ≫= fun out => get [Key "password"; Key "token"] (VMap out))
     <> Some (VString FilteredValue).
Proof.
  split; [vm_compute; reflexivity|].
  split; [vm_compute; reflexivity|].
  split; [vm_compute; reflexivity|].
  vm_compute. discriminate.
Qed.

(** C1, amended. Redaction completeness. Take a key [k] found in the input
    at the position [p ++ [Key k]], at depth [length p <= maxDepth] (the
    keys of the input map itself are at depth 0), whose lower-case form
    contains a filter key. Whatever the output holds at that position is
    the marker. When no key on the way to it is itself redacted, the
    position is kept, with the marker as value; otherwise it is absent,
    being below a redacted key. In both cases the output has no position
    below it, and every position of the output is a position of the input,
    so nothing that was stored under the key is carried over. *)
Theorem redaction_completeness (f : SanitizeFilter)
    (m : gmap string value) (p : path) (k : string) (v : value) :
  get (p ++ [Key k]) (VMap m) = Some v ->
  Z.of_nat (List.length p) <= maxDepth ->
  shouldFilter f k = true ->
  exists out,
    Filter f (Some m) = Some out
    /\ (forall y, get (p ++ [Key k]) (VMap out) = Some y ->
                  y = VString FilteredValue)
    /\ (path_clear f p = true ->
        get (p ++ [Key k]) (VMap out) = Some (VString FilteredValue))
    /\ (path_clear f p = false -> get (p ++ [Key k]) (VMap out) = None)
    /\ (forall q, q <> [] -> get (p ++ Key k :: q) (VMap out) = None)
    /\ (forall q y, get q (VMap out) = Some y ->
                    exists x, get q (VMap m) = Some x).
Proof.
  intros Hget Hdepth Hk. exists (filterMap f m 0).
  rewrite Filter_as_value.
  assert (Hmark : forall y,
             get (p ++ [Key k]) (filterValue f (VMap m) 0) = Some y ->
             y = VString FilteredValue).
  { intros y Hy. eapply get_filter_marker; eauto. }
  split; [reflexivity|]. split; [exact Hmark|].
  split; [|split; [|split]];
    [| | |intros q y Hy; now apply (get_filter_provenance f q _ 0 y)].
  - intros Hclear. rewrite get_app in Hget.
    destruct (get p (VMap m)) as [x|] eqn:Hx; [|discriminate].
    rewrite get_app.
    rewrite (get_filter_clear f p _ 0 x Hx Hclear) by lia.
    rewrite filterValue_shallow by lia.
    destruct x as [mx | | | |]; try discriminate.
    simpl in Hget |- *. rewrite map_lookup_imap.
    destruct (mx !! k); [|discriminate]. cbn. unfold entry.
    now rewrite Hk.
  - intros Hclear. now apply get_filter_blocked.
  - intros q Hq.
    change (p ++ Key k :: q) with (p ++ [Key k] ++ q).
    rewrite app_assoc, get_app.
    destruct (get (p ++ [Key k]) (filterValue f (VMap m) 0)) as [y|] eqn:Hy;
      [|reflexivity].
    rewrite (Hmark y eq_refl). now apply get_leaf.
Qed.

Definition credentials : gmap string value :=
  {[ "user" := VMap {[ "name" := VString "John";
                       "api_token" := VMap {[ "value" := VString "abc123" ]} ]} ]}.

Lemma redaction_completeness_witness :
  exists out,
    Filter (NewSanitizeFilter ["password"; "token"]) (Some credentials)
    = Some out
    /\ (forall y, get ([Key "user"] ++ [Key "api_token"]) (VMap out) = Some y ->
                  y = VString FilteredValue)
    /\ (path_clear (NewSanitizeFilter ["password"; "token"]) [Key "user"] = true ->
        get ([Key "user"] ++ [Key "api_token"]) (VMap out)
        = Some (VString FilteredValue))
    /\ (path_clear (NewSanitizeFilter ["password"; "token"]) [Key "user"] = false ->
        get ([Key "user"] ++ [Key "api_token"]) (VMap out) = None)
    /\ (forall q, q <> [] ->
        get ([Key "user"] ++ Key "api_token" :: q) (VMap out) = None)
    /\ (forall q y, get q (VMap out) = Some y ->
                    exists x, get q (VMap credentials) = Some x).
Proof.
  apply (redaction_completeness (NewSanitizeFilter ["password"; "token"])
           credentials [Key "user"] "api_token"
           (VMap {[ "value" := VString "abc123" ]})).
  - vm_compute. reflexivity.
  - vm_compute. discriminate.
  - vm_compute. reflexivity.
Defined.

End SanitizeFacts.

(** ** SanitizeFilter: shared structures and the depth cut-off *)

Module SanitizeDepthFacts.
Import GoStrings Values Sanitize SanitizeHeap SanitizeFacts.

Lemma all_done_Some (entries : gmap string (option value))
    (out : gmap string value) :
  all_done entries = Some out ->
  forall k, out !! k = entries !! k ≫= id.
Proof.
  unfold all_done. destruct (decide _); [|discriminate].
  intros [= <-] k. apply lookup_omap.
Qed.

Lemma all_done_None (entries : gmap string (option value)) :
  all_done entries = None <-> exists k, entries !! k = Some None.
Proof.
  unfold all_done. destruct (decide _) as [Hall | Hnot].
  - split; [discriminate|]. intros [k Hk].
    destruct (Hall k None Hk) as [x Hx]. discriminate.
  - split; [intros _ | reflexivity].
    apply map_not_Forall in Hnot; [|apply _].
    destruct Hnot as (k & o & Hk & Ho). exists k.
    destruct o as [x|]; [|exact Hk]. exfalso. apply Ho. eauto.
Qed.

Lemma all_done_fmap (m : gmap string value) :
  all_done (Some <$> m) = Some m.
Proof.
  unfold all_done. destruct (decide _) as [Hall | Hnot].
  - f_equal. apply map_eq. intros k.
    rewrite lookup_omap, lookup_fmap. now destruct (m !! k).
  - exfalso. apply Hnot. intros k o Hk. rewrite lookup_fmap in Hk.
    destruct (m !! k); [|discriminate]. injection Hk as <-. eauto.
Qed.

Lemma mapM_all_Some {A B : Type} (g : A -> option B) (g' : A -> B)
    (l : list A) :
  (forall i x, l !! i = Some x -> g x = Some (g' x)) ->
  mapM g l = Some (map g' l).
Proof.
  induction l as [|a l IH]; intros Hall; [reflexivity|].
  cbn. rewrite (Hall O a eq_refl). cbn.
  rewrite IH; [reflexivity|]. intros i x Hi. exact (Hall (S i) x Hi).
Qed.

Lemma filterNode_deep (f : SanitizeFilter) (h : Heap) (v : node) (d : Z) :
  maxDepth < d -> filterNode f h v d = Some (VString depth_sentinel).
Proof.
  intros Hd. rewrite filterNode_equation_1.
  destruct (Z_lt_dec maxDepth d); [reflexivity | contradiction].
Qed.

(** The entries that the range loop of [filterMap] makes on a table. *)
Definition node_entries (f : SanitizeFilter) (h : Heap) (d : Z)
    (t : gmap string node) : gmap string (option value) :=
  map_imap (fun key x =>
    Some (if shouldFilter f key then Some (VString FilteredValue)
          else filterNode f h x (d + 1))) t.

Lemma filterNode_shallow (f : SanitizeFilter) (h : Heap) (v : node) (d : Z) :
  d <= maxDepth ->
  filterNode f h v d =
    match v with
    | NMap r => VMap <$> all_done (node_entries f h d (table h r))
    | NSlice r =>
        VSlice <$> mapM (fun item => filterNode f h item (d + 1)) (array h r)
    | NString s => Some (VString (truncateString s))
    | NScalar x => Some (VScalar x)
    | NOther o => Some (VString (truncateString (valueToString o)))
    | NFaulty => None
    end.
Proof.
  intros Hd. rewrite filterNode_equation_1.
  destruct (Z_lt_dec maxDepth d) as [|Hle]; [lia|].
  destruct v; cbn; try reflexivity.
  now replace (maxDepth <? d) with false by (symmetry; apply Z.ltb_ge; lia).
Qed.

(** A call of [String] that does not return is met at the end of [p]:
    the path passes no redacted key and ends at a depth that the filter
    enters. *)
Definition meets (f : SanitizeFilter) (h : Heap) (v : node) (d : Z)
    (p : path) : Prop :=
  walk h p v = Some NFaulty /\ path_clear f p = true
  /\ d + Z.of_nat (List.length p) <= maxDepth.

Lemma filterNode_meets (f : SanitizeFilter) (h : Heap) (p : path) :
  forall v d, meets f h v d p -> filterNode f h v d = None.
Proof.
  induction p as [|st p IH]; intros v d (Hwalk & Hclear & Hd).
  - cbn in Hwalk. injection Hwalk as ->. cbn in Hd.
    now rewrite filterNode_shallow by lia.
  - cbn [List.length] in Hd. cbn [path_clear forallb] in Hclear.
    apply andb_true_iff in Hclear as [Hst Hclear].
    rewrite filterNode_shallow by lia.
    destruct st as [k | i]; destruct v as [r | r | s | x | o |];
      try discriminate; cbn [walk] in Hwalk.
    + destruct (table h r !! k) as [x|] eqn:Hk; [|discriminate].
      assert (Hx : filterNode f h x (d + 1) = None).
      { apply IH. repeat split; [exact Hwalk | exact Hclear | lia]. }
      assert (Hnone : all_done (node_entries f h d (table h r)) = None).
      { apply all_done_None. exists k. unfold node_entries.
        rewrite map_lookup_imap, Hk. cbn [mbind option_bind].
        apply negb_true_iff in Hst. now rewrite Hst, Hx. }
      now rewrite Hnone.
    + destruct (array h r !! i) as [x|] eqn:Hi; [|discriminate].
      assert (Hx : filterNode f h x (d + 1) = None).
      { apply IH. repeat split; [exact Hwalk | exact Hclear | lia]. }
      assert (Hnone : mapM (fun item => filterNode f h item (d + 1))
                        (array h r) = None).
      { apply eq_None_not_Some. intros [l Hl].
        apply mapM_Some_1 in Hl.
        destruct (Forall2_lookup_l _ _ _ _ _ Hl Hi) as (y & _ & Hy).
        congruence. }
      now rewrite Hnone.
Qed.

(** Where no such call is met, the filter returns, and returns the filter
    of the tree read through the levels that the depth counter leaves. *)
Lemma filterNode_unroll (f : SanitizeFilter) (h : Heap) (n : nat) :
  forall v d,
    maxDepth + 1 - d < Z.of_nat n ->
    (forall p, ~ meets f h v d p) ->
    filterNode f h v d = Some (filterValue f (unroll n h v) d).
Proof.
  induction n as [|n IH]; intros v d Hn Hcalm.
  { rewrite filterNode_deep, filterValue_deep by lia. reflexivity. }
  destruct (Z_lt_dec maxDepth d) as [Hd | Hd].
  { rewrite filterNode_deep, filterValue_deep by lia. reflexivity. }
  rewrite filterNode_shallow, filterValue_shallow by lia.
  destruct v as [r | r | s | x | o |]; cbn [unroll]; try reflexivity.
  - assert (Hentries : node_entries f h d (table h r)
                       = Some <$> map_imap (entry f d) (unroll n h <$> table h r)).
    { apply map_eq. intros k. unfold node_entries.
      rewrite lookup_fmap, !map_lookup_imap, lookup_fmap.
      destruct (table h r !! k) as [x|] eqn:Hk; [|reflexivity].
      cbn [mbind option_bind fmap option_fmap option_map].
      unfold entry. cbn [fmap option_fmap option_map].
      destruct (shouldFilter f k) eqn:Hsk; [reflexivity|].
      do 2 f_equal. apply IH; [lia|].
      intros p (Hwalk & Hclear & Hp).
      apply (Hcalm (Key k :: p)). repeat split.
      - cbn [walk]. now rewrite Hk.
      - cbn [path_clear forallb]. rewrite Hsk. exact Hclear.
      - cbn [List.length]. lia. }
    rewrite Hentries, all_done_fmap. reflexivity.
  - assert (Hitems : mapM (fun item => filterNode f h item (d + 1)) (array h r)
                     = Some (map (fun item => filterValue f item (d + 1))
                               (unroll n h <$> array h r))).
    { change (unroll n h <$> array h r) with (map (unroll n h) (array h r)).
      rewrite map_map. apply mapM_all_Some.
      intros i x Hi. apply IH; [lia|].
      intros p (Hwalk & Hclear & Hp).
      apply (Hcalm (Idx i :: p)). repeat split.
      - cbn [walk]. now rewrite Hi.
      - exact Hclear.
      - cbn [List.length]. lia. }
    rewrite Hitems. reflexivity.
  - exfalso. apply (Hcalm []). repeat split. cbn. lia.
Qed.

Lemma filterNode_root (f : SanitizeFilter) (h : Heap) (r : ref) :
  filterNode f h (NMap r) 0 = VMap <$> filterTable f h r 0.
Proof. now rewrite filterNode_shallow by (unfold maxDepth; lia). Qed.

Lemma Filter_heap_unroll (f : SanitizeFilter) (h : Heap) (r : ref) (n : nat) :
  (11 <= n)%nat ->
  (forall p, ~ meets f h (NMap r) 0 p) ->
  Filter_heap f h (Some r)
  = Some (Filter f (Some (unroll n h <$> table h r))).
Proof.
  intros Hn Hcalm.
  pose proof (filterNode_unroll f h (S n) (NMap r) 0
                ltac:(unfold maxDepth; lia) Hcalm) as H.
  rewrite filterNode_root in H. cbn [unroll] in H.
  rewrite <- Filter_as_value in H. cbn [Filter_heap Filter].
  destruct (filterTable f h r 0) as [out|]; [|discriminate].
  cbn in *. congruence.
Qed.

Lemma Filter_heap_meets (f : SanitizeFilter) (h : Heap) (r : ref) (p : path) :
  meets f h (NMap r) 0 p -> Filter_heap f h (Some r) = None.
Proof.
  intros Hp. apply filterNode_meets in Hp. rewrite filterNode_root in Hp.
  cbn [Filter_heap]. now destruct (filterTable f h r 0).
Qed.

(** On the map that contains itself the filter stops at depth 11. *)
Example Filter_self_map :
  (Filter_heap (NewSanitizeFilter []) self_map (Some 1%positive)
     ≫= fun res => res
     ≫= fun out => get (replicate 11 (Key "self")) (VMap out))
  = Some (VString "[MAX DEPTH EXCEEDED]")
  /\ (Filter_heap (NewSanitizeFilter []) self_map (Some 1%positive)
        ≫= fun res => res
        ≫= fun out => get (replicate 9 (Key "self") ++ [Key "name"]) (VMap out))
     = Some (VString "loop").
Proof. split; vm_compute; reflexivity. Qed.

(** The filter calls the [String] method of the nil pointer and does not
    return a value; under a redacted key the method is not called. *)
Example Filter_nil_stringer :
  Filter_heap (NewSanitizeFilter ["password"]) nil_stringer (Some 1%positive)
  = None
  /\ Filter_heap (NewSanitizeFilter ["target"]) nil_stringer (Some 1%positive)
     = Some (Some {[ "target" := VString FilteredValue;
                     "name" := VString "job" ]}).
Proof. split; vm_compute; reflexivity. Qed.

(** The value that the cut-off would leave in place of [v] if maps were
    replaced by the single-entry map and everything else by the string. *)
Definition cutoff_by_kind (v : value) : value :=
  match v with
  | VMap _ => VMap {[ "_truncated" := VString depth_sentinel ]}
  | _ => VString depth_sentinel
  end.

(** [nest n leaf]: [leaf] wrapped in [n] maps with the one key "nested". *)
Fixpoint nest (n : nat) (leaf : value) : value :=
  match n with
  | O => leaf
  | S n' => VMap {[ "nested" := nest n' leaf ]}
  end.

Definition deep_input : gmap string value :=
  {[ "nested" := nest 11 (VScalar (SInt KInt 12)) ]}.

Definition deep_path : path := replicate 11 (Key "nested").

(** C8, as stated, fails on a chain of twelve nested maps: the map found
    at depth 11 is replaced by the sentinel string, not by the single-entry
    map with key "_truncated". *)
Lemma depth_cutoff_counterexample :
  get deep_path (VMap deep_input)
  = Some (VMap {[ "nested" := VScalar (SInt KInt 12) ]})
  /\ (Filter (NewSanitizeFilter []) (Some deep_input)
        ≫= fun out => get deep_path (VMap out))
     = Some (VString "[MAX DEPTH EXCEEDED]")
  /\ (Filter (NewSanitizeFilter []) (Some deep_input)
        ≫= fun out => get deep_path (VMap out))
     <> Some (cutoff_by_kind (VMap {[ "nested" := VScalar (SInt KInt 12) ]})).
Proof.
  split; [vm_compute; reflexivity|].
  split; [vm_compute; reflexivity|].
  vm_compute. discriminate.
Qed.

(** C8, amended. [Filter] returns on every structure, also one that
    contains itself, unless it calls a [String] method that panics or does
    not return; it makes such a call only for a value of another type
    found through at most [maxDepth] steps without passing a redacted key,
    and then does not return a value either. When it returns, the result
    is the filter of the tree read through eleven levels of references:
    whatever the input holds at depth [maxDepth + 1], be it a map, a slice
    or a scalar, is replaced by the sentinel string and not descended
    into, and the output has no position deeper than that. The
    single-entry map with key "_truncated" is what [filterMap] returns when
    it is entered with a depth above [maxDepth], which no call made from
    [Filter] does, as [filterValue] answers the sentinel string first. *)
Theorem depth_termination (f : SanitizeFilter) :
  (forall h r,
      (forall p, ~ meets f h (NMap r) 0 p) ->
      forall n, (11 <= n)%nat ->
        Filter_heap f h (Some r)
        = Some (Filter f (Some (unroll n h <$> table h r))))
  /\ (forall h r p,
        meets f h (NMap r) 0 p -> Filter_heap f h (Some r) = None)
  /\ (forall h, Filter_heap f h None = Some None)
  /\ (forall m out,
        Filter f (Some m) = Some out ->
        (forall p v,
            get p (VMap m) = Some v ->
            Z.of_nat (List.length p) = maxDepth + 1 ->
            path_clear f p = true ->
            get p (VMap out) = Some (VString "[MAX DEPTH EXCEEDED]"))
        /\ (forall p y,
              get p (VMap out) = Some y ->
              Z.of_nat (List.length p) <= maxDepth + 1))
  /\ (forall data d,
        maxDepth < d ->
        filterMap f data d
        = {[ "_truncated" := VString "[MAX DEPTH EXCEEDED]" ]})
  /\ (forall v d,
        maxDepth < d ->
        filterValue f v d = VString "[MAX DEPTH EXCEEDED]").
Proof.
  split; [|split; [|split; [|split; [|split]]]].
  - intros h r Hcalm n Hn. now apply Filter_heap_unroll.
  - intros h r p. apply Filter_heap_meets.
  - reflexivity.
  - intros m out [= <-]. rewrite Filter_as_value. split.
    + intros p v Hget Hlen Hclear.
      rewrite (get_filter_clear f p _ 0 v Hget Hclear) by lia.
      now rewrite filterValue_deep by lia.
    + intros p y Hget.
      pose proof (get_filter_bounded f p _ 0 y Hget). unfold maxDepth in *. lia.
  - intros data d Hd. now apply filterMap_deep.
  - intros v d Hd. now apply filterValue_deep.
Qed.

(** In the map that contains itself every path leads to the map or to
    its name. *)
Lemma walk_self_map (p : path) :
  forall v,
    v = NMap 1%positive \/ v = NString "loop" ->
    walk self_map p v <> Some NFaulty.
Proof.
  induction p as [|st p IH]; intros v Hv.
  - cbn. destruct Hv as [-> | ->]; discriminate.
  - destruct Hv as [-> | ->]; [|now destruct st].
    destruct st as [k | i]; [|discriminate]. cbn [walk].
    destruct (table self_map 1%positive !! k) as [x|] eqn:Hk; [|discriminate].
    apply IH.
    assert (Ht : table self_map 1%positive
                 = {[ "self" := NMap 1%positive; "name" := NString "loop" ]})
      by reflexivity.
    rewrite Ht in Hk. clear Ht.
    destruct (decide (k = "self")) as [-> | Hs].
    + rewrite lookup_insert_eq in Hk. left. congruence.
    + rewrite lookup_insert_ne in Hk by congruence.
      destruct (decide (k = "name")) as [-> | Hn].
      * rewrite lookup_singleton_eq in Hk. right. congruence.
      * rewrite lookup_singleton_ne in Hk by congruence. discriminate.
Qed.

Lemma depth_termination_witness :
  Filter_heap (NewSanitizeFilter []) self_map (Some 1%positive)
  = Some (Filter (NewSanitizeFilter [])
            (Some (unroll 11 self_map <$> table self_map 1%positive)))
  /\ Filter_heap (NewSanitizeFilter []) nil_stringer (Some 1%positive) = None
  /\ exists out,
       Filter (NewSanitizeFilter []) (Some deep_input) = Some out
       /\ get deep_path (VMap out) = Some (VString "[MAX DEPTH EXCEEDED]").
Proof.
  destruct (depth_termination (NewSanitizeFilter []))
    as (Hcalm & Hmeets & _ & Hcut & _).
  split; [|split].
  - apply Hcalm; [|apply Nat.le_refl].
    intros p (Hwalk & _). revert Hwalk. apply walk_self_map. now left.
  - apply (Hmeets nil_stringer 1%positive [Key "target"]).
    repeat split. cbn. unfold maxDepth. lia.
  - eexists. split; [reflexivity|].
    destruct (Hcut deep_input _ eq_refl) as [Hsentinel _].
    apply (Hsentinel deep_path
             (VMap {[ "nested" := VScalar (SInt KInt 12) ]}));
      vm_compute; reflexivity.
Defined.

End SanitizeDepthFacts.

(** ** IgnoreFilter *)

Module IgnoreFacts.
Import GoStrings Reflect GoRegexp Ignore GoStringsFacts.
#[local] Arguments String.append !_ _ / : simpl nomatch.

Lemma HasPrefix_elim (s p : string) :
  HasPrefix s p = true -> s = p +:+ drop (String.length p) s.
Proof.
  revert s; induction p as [|c p IH]; intros s H; simpl in *.
  - now destruct s.
  - destruct s as [|c' s]; [discriminate|].
    apply andb_true_iff in H as [Hc Hp].
    apply Ascii.eqb_eq in Hc as ->. simpl. f_equal. now apply IH.
Qed.

Lemma drop_drop (n j : nat) (s : string) : drop j (drop n s) = drop (n + j) s.
Proof.
  revert s; induction n as [|n IH]; intros s; simpl.
  - now destruct j, s.
  - destruct s as [|c s]; [now destruct j | apply IH].
Qed.

Lemma Contains_app_r (u t sub : string) :
  Contains t sub = true -> Contains (u +:+ t) sub = true.
Proof.
  intros H. induction u as [|c u IH]; simpl; [exact H|].
  rewrite IH. apply orb_true_r.
Qed.

(** The regular expression that [w] compiles to when it has no
    metacharacter: one literal atom per byte. *)
Fixpoint lits (w : string) : regex :=
  match w with
  | EmptyString => []
  | String c w' => (ALit c, QOne) :: lits w'
  end.

Lemma match_here_lits (w : string) (r : regex) :
  forall s, match_here (lits w ++ r) s
            = HasPrefix s w && match_here r (drop (String.length w) s).
Proof.
  induction w as [|c w IH]; intros s; simpl.
  - now destruct s.
  - destruct s as [|c' s]; [reflexivity|]. simpl.
    rewrite IH. now rewrite andb_assoc.
Qed.

Lemma match_star_elim (a : atom) (k : string -> bool) (s : string) :
  match_star a k s = true -> exists j, k (drop j s) = true.
Proof.
  induction s as [|c s IH]; simpl.
  - rewrite orb_false_r. intros H. now exists 0%nat.
  - intros H. apply orb_true_iff in H as [H | H]; [now exists 0%nat|].
    apply andb_true_iff in H as [_ H].
    destruct (IH H) as [j Hj]. now exists (S j).
Qed.

Lemma match_star_zero (a : atom) (k : string -> bool) (s : string) :
  k s = true -> match_star a k s = true.
Proof. intros H. destruct s; simpl; now rewrite H. Qed.

Lemma MatchString_iff (re : regex) (s : string) :
  MatchString re s = true <-> exists n, match_here re (drop n s) = true.
Proof.
  induction s as [|c s IH].
  - simpl. rewrite orb_false_r. split.
    + intros H. now exists 0%nat.
    + intros [[|n] H]; exact H.
  - cbn [MatchString]. rewrite orb_true_iff, IH. split.
    + intros [H | [n H]]; [now exists 0%nat | now exists (S n)].
    + intros [[|n] H]; [now left | right; now exists n].
Qed.

Definition timeout_pattern : string := ".*timeout.*".

Definition timeout_re : regex :=
  (AAny, QStar) :: lits "timeout" ++ [(AAny, QStar)].

Lemma Compile_timeout : Compile timeout_pattern = Some timeout_re.
Proof. reflexivity. Qed.

(** The pattern matches exactly the strings that contain "timeout",
    letter case included. *)
Lemma MatchString_timeout (s : string) :
  MatchString timeout_re s = Contains s "timeout".
Proof.
  apply eq_true_iff_eq. rewrite MatchString_iff, Contains_iff.
  unfold timeout_re. split.
  - intros [n H]. cbn [match_here] in H.
    apply match_star_elim in H as [j H].
    rewrite match_here_lits in H. apply andb_true_iff in H as [H _].
    rewrite drop_drop in H. now exists (n + j)%nat.
  - intros [n H]. exists n. cbn [match_here].
    apply match_star_zero. rewrite match_here_lits, H. simpl.
    apply match_star_zero. reflexivity.
Qed.

(** The class name that [ShouldIgnore] matches string patterns against. *)
Definition className (e : GoError) : string :=
  TrimPrefix (type_String (err_type e)) "*".

Section AnyEngine.
Context {R : Type}.
Variable regexp_Compile : string -> option R.
Variable regexp_MatchString : R -> string -> bool.
Variable AssignableTo : rtype -> rtype -> bool.

Lemma matchPatterns_string (errType : rtype) (errName p : string)
    (ps : list pattern) :
  In (PatString p) ps ->
  matchesString regexp_Compile regexp_MatchString errName p = true ->
  matchPatterns regexp_Compile regexp_MatchString AssignableTo
    errType errName ps = true.
Proof.
  intros Hin Hmatch. induction ps as [|pat ps IH]; [destruct Hin|].
  destruct Hin as [-> | Hin]; cbn [matchPatterns].
  - now rewrite Hmatch.
  - specialize (IH Hin). destruct pat; rewrite IH.
    + now destruct (matchesString _ _ errName p0).
    + now destruct (bool_decide _ || _).
    + now destruct (bool_decide _).
    + reflexivity.
Qed.

(** C10. For a non-nil error and a string pattern of the filter, the
    error is ignored as soon as its class name (the type name without the
    pointer star) ends with the pattern as a bare suffix, no dot required
    in front of it: the pattern "Error" ignores every class name ending in
    "Error". This comes in addition to the exact match, the match of the
    pattern after a dot and the regular-expression match, which ignore
    the error as well. *)
Theorem bare_suffix_ignored (f : IgnoreFilter) (e : GoError) (p : string) :
  In (PatString p) (patterns f) ->
  (exists u, className e = u +:+ p)
  \/ className e = p
  \/ (exists u, className e = u +:+ "." +:+ p)
  \/ (exists re, regexp_Compile p = Some re
                 /\ regexp_MatchString re (className e) = true) ->
  ShouldIgnore regexp_Compile regexp_MatchString AssignableTo f (Some e)
  = true.
Proof.
  intros Hin Hcase. cbn [ShouldIgnore]. fold (className e).
  apply matchPatterns_string with p; [exact Hin|].
  unfold matchesString.
  destruct (String.eqb (className e) p) eqn:Heq; [reflexivity|].
  destruct Hcase as [[u Hu] | [Hp | [[u Hu] | (re & Hre & Hm)]]].
  - now rewrite Hu, HasSuffix_app, orb_true_r.
  - apply String.eqb_neq in Heq. contradiction.
  - now rewrite Hu, HasSuffix_app.
  - rewrite Hre, Hm. now destruct (_ || _).
Qed.

End AnyEngine.

Definition customError : GoError :=
  {| err_type :=
       TPtr (TNamed "github.com/Checkend/checkend-go/filters" "filters"
               "customError");
     err_Error := "test" |}.

Lemma bare_suffix_ignored_witness :
  ShouldIgnore GoRegexp.Compile GoRegexp.MatchString (fun _ _ => false)
    (NewIgnoreFilter [PatString "Error"]) (Some customError) = true.
Proof.
  apply (bare_suffix_ignored GoRegexp.Compile GoRegexp.MatchString
           (fun _ _ => false) (NewIgnoreFilter [PatString "Error"])
           customError "Error").
  - simpl. left. reflexivity.
  - left. exists "filters.custom". vm_compute. reflexivity.
Defined.

(** The type of the values of [errors.New]. *)
Definition errorString : rtype := TPtr (TNamed "errors" "errors" "errorString").

(** An error type declared as [TimeoutError] in package [main]. *)
Definition TimeoutError : GoError :=
  {| err_type := TPtr (TNamed "main" "main" "TimeoutError");
     err_Error := "i/o timeout" |}.

(** C2, as stated, fails: the class name "main.TimeoutError" contains
    "Timeout", and the filter with the pattern ".*timeout.*" does not
    ignore the error. *)
Lemma timeout_pattern_counterexample :
  Contains (className TimeoutError) "Timeout" = true
  /\ ShouldIgnore_frag (fun _ _ => false)
       (NewIgnoreFilter [PatString ".*timeout.*"]) (Some TimeoutError)
     = false.
Proof. split; vm_compute; reflexivity. Qed.

Lemma matchesString_timeout (name : string) :
  matchesString GoRegexp.Compile GoRegexp.MatchString name timeout_pattern
  = Contains name "timeout".
Proof.
  unfold matchesString. rewrite Compile_timeout, MatchString_timeout.
  destruct (String.eqb name timeout_pattern) eqn:Heq.
  { apply String.eqb_eq in Heq as ->. reflexivity. }
  destruct (HasSuffix name ("." +:+ timeout_pattern)
            || HasSuffix name timeout_pattern) eqn:Hsuf.
  - symmetry. apply orb_true_iff in Hsuf as [H | H];
      apply HasSuffix_elim in H as [u ->];
      apply Contains_app_r; reflexivity.
  - now destruct (Contains name "timeout").
Qed.

(** C2, amended. With the pattern ".*timeout.*" a non-nil error is ignored
    exactly when its class name contains "timeout" in that letter case;
    the error of [errors.New], of class name "errors.errorString", is not
    ignored; a nil error is ignored whatever the patterns are. *)
Theorem timeout_pattern_matching (impl : rtype -> rtype -> bool) :
  (forall e,
      ShouldIgnore_frag impl (NewIgnoreFilter [PatString ".*timeout.*"])
        (Some e)
      = Contains (className e) "timeout")
  /\ (forall msg,
      ShouldIgnore_frag impl (NewIgnoreFilter [PatString ".*timeout.*"])
        (Some {| err_type := errorString; err_Error := msg |})
      = false)
  /\ (forall ps, ShouldIgnore_frag impl (NewIgnoreFilter ps) None = true).
Proof.
  assert (H : forall e,
      ShouldIgnore_frag impl (NewIgnoreFilter [PatString ".*timeout.*"])
        (Some e)
      = Contains (className e) "timeout").
  { intros e. unfold ShouldIgnore_frag. cbn [ShouldIgnore NewIgnoreFilter
      patterns matchPatterns].
    fold (className e). fold timeout_pattern.
    rewrite matchesString_timeout.
    now destruct (Contains (className e) "timeout"). }
  split; [exact H|]. split.
  - intros msg. rewrite H. reflexivity.
  - reflexivity.
Qed.

End IgnoreFacts.

(** ** Notice.ToPayload *)

Module NoticeFacts.
Import Values GoTime NoticeM.

(** The entries of a possibly nil map, as a map. *)
Definition entries_of (m : option (gmap string value)) : gmap string value :=
  match m with
  | None => ∅
  | Some g => g
  end.

Lemma range_assign_union (entries : list (string * value)) :
  forall ctx,
    NoDup entries.*1 ->
    range_assign entries ctx = list_to_map entries ∪ ctx.
Proof.
  induction entries as [|[k v] es IH]; intros ctx Hnd.
  - simpl. now rewrite (left_id_L ∅ (∪)).
  - rewrite fmap_cons in Hnd. apply NoDup_cons in Hnd as [Hk Hnd].
    change (range_assign ((k, v) :: es) ctx)
      with (range_assign es (<[k:=v]> ctx)).
    rewrite IH by exact Hnd.
    change (list_to_map ((k, v) :: es))
      with (<[k:=v]> (list_to_map es : gmap string value)).
    rewrite <- insert_union_l. symmetry.
    apply insert_union_r. now apply not_elem_of_list_to_map_1.
Qed.

(** The range loop gives the same map in whatever order it visits the
    entries. *)
Lemma range_assign_any_order (m : option (gmap string value))
    (entries : list (string * value)) (ctx : gmap string value) :
  entries ≡ₚ range_entries m ->
  range_assign entries ctx = entries_of m ∪ ctx.
Proof.
  intros Hperm.
  assert (Hnd : NoDup entries.*1).
  { rewrite Hperm. destruct m as [g|]; simpl;
      [apply NoDup_fst_map_to_list | constructor]. }
  rewrite range_assign_union by exact Hnd. f_equal.
  rewrite (list_to_map_proper entries (range_entries m) Hnd Hperm).
  destruct m as [g|]; simpl; [apply list_to_map_to_list | reflexivity].
Qed.

Lemma PContext_ToPayload (n : Notice) :
  PContext (ToPayload n)
  = entries_of (Context n) ∪ {[ "environment" := VString (NEnvironment n) ]}.
Proof.
  unfold ToPayload, ToPayload_in_order. cbn [PContext].
  now rewrite (range_assign_any_order (Context n)) by reflexivity.
Qed.

Definition server_field (proj : ServerInfo -> string) (s : option ServerInfo)
    : string :=
  match s with
  | Some info => proj info
  | None => ""
  end.

Definition notifier0 : NotifierInfo :=
  {| Name := "checkend-go"; NVersion := "0.1.0";
     Language := "go"; LanguageVersion := "go1.22.0" |}.

Definition notice_with (ctx : option (gmap string value)) (env : string)
    (t : Time) : Notice :=
  {| ErrorClass := "errorString"; Message := "test error";
     Backtrace := ["main.go:10 in main.main"];
     Fingerprint := ""; Tags := [];
     Context := ctx; Request := None; User := None;
     NEnvironment := env; OccurredAt := t; Notifier := notifier0;
     NAppName := ""; NRevision := ""; NHostname := "" |}.

Definition staging_context : option (gmap string value) :=
  Some {[ "environment" := VString "staging" ]}.

Definition noon : Time := {| unix_sec := 1700000000; nsec := 0; zone := 0 |}.
Definition noon_and_a_half : Time :=
  {| unix_sec := 1700000000; nsec := 500000000; zone := 0 |}.

(** C3, as stated, fails. A context map that has its own "environment"
    key keeps its value in the payload, so the environment name of the
    notice does not appear and two notices that differ in it have the same
    payload; and two notices half a second apart have the same payload. *)
Lemma ToPayload_counterexample :
  PContext (ToPayload (notice_with staging_context "production" noon))
    !! "environment"
  = Some (VString "staging")
  /\ PContext (ToPayload (notice_with staging_context "production" noon))
       !! "environment"
     <> Some (VString "production")
  /\ ToPayload (notice_with staging_context "production" noon)
     = ToPayload (notice_with staging_context "development" noon)
  /\ ToPayload (notice_with None "production" noon)
     = ToPayload (notice_with None "production" noon_and_a_half).
Proof.
  split; [vm_compute; reflexivity|].
  split; [vm_compute; discriminate|].
  split; vm_compute; reflexivity.
Qed.

(** C3, amended. [ToPayload] produces one payload, whatever the order in
    which the range visits the context. Class, message, backtrace,
    fingerprint, tags and notifier are carried unchanged, and the time as
    its RFC3339 text in UTC, to the second. The context map of the payload
    holds every entry of the context of the notice, and under
    "environment" the environment name of the notice unless the context has
    that key itself, whose value is then kept. Request and user maps are
    carried when they have an entry and omitted otherwise; the server block
    is present when one of application name, revision or host name is
    non-empty, and the three are read back from it. *)
Theorem ToPayload_projection (n : Notice) :
  (forall entries,
      entries ≡ₚ range_entries (Context n) ->
      ToPayload_in_order entries n = ToPayload n)
  /\ PError (ToPayload n)
     = {| EClass := ErrorClass n; EMessage := Message n;
          EBacktrace := Backtrace n; EFingerprint := Fingerprint n;
          ETags := Tags n;
          EOccurredAt := Format_RFC3339 (UTC (OccurredAt n)) |}
  /\ PNotifier (ToPayload n) = Notifier n
  /\ (forall k v, entries_of (Context n) !! k = Some v ->
                  PContext (ToPayload n) !! k = Some v)
  /\ (forall k, k <> "environment" ->
                PContext (ToPayload n) !! k = entries_of (Context n) !! k)
  /\ (entries_of (Context n) !! "environment" = None ->
      PContext (ToPayload n) !! "environment"
      = Some (VString (NEnvironment n)))
  /\ (0 < map_len (Request n) -> PRequest (ToPayload n) = Request n)
  /\ (map_len (Request n) = 0 -> PRequest (ToPayload n) = None)
  /\ (0 < map_len (User n) -> PUser (ToPayload n) = User n)
  /\ (map_len (User n) = 0 -> PUser (ToPayload n) = None)
  /\ server_field SAppName (PServer (ToPayload n)) = NAppName n
  /\ server_field SRevision (PServer (ToPayload n)) = NRevision n
  /\ server_field SHostname (PServer (ToPayload n)) = NHostname n.
Proof.
  split.
  { intros entries Hperm. unfold ToPayload, ToPayload_in_order. f_equal.
    rewrite (range_assign_any_order (Context n) entries) by exact Hperm.
    now rewrite (range_assign_any_order (Context n)) by reflexivity. }
  split; [reflexivity|]. split; [reflexivity|].
  rewrite PContext_ToPayload.
  split.
  { intros k v Hk. now apply lookup_union_Some_l. }
  split.
  { intros k Hk. rewrite lookup_union_l; [reflexivity|].
    now apply lookup_singleton_ne. }
  split.
  { intros Hnone. rewrite lookup_union_r by exact Hnone.
    apply lookup_singleton_eq. }
  unfold ToPayload, ToPayload_in_order. cbn [PRequest PUser PServer].
  split.
  { intros H. apply Z.ltb_lt in H. now rewrite H. }
  split.
  { intros H. now rewrite H. }
  split.
  { intros H. apply Z.ltb_lt in H. now rewrite H. }
  split.
  { intros H. now rewrite H. }
  destruct (String.eqb_spec (NAppName n) "") as [Ha | Ha];
    destruct (String.eqb_spec (NRevision n) "") as [Hr | Hr];
    destruct (String.eqb_spec (NHostname n) "") as [Hh | Hh];
    cbn; auto.
Qed.

Lemma ToPayload_projection_witness :
  PContext (ToPayload (notice_with (Some ∅) "production" noon)) !! "environment"
  = Some (VString "production")
  /\ PRequest (ToPayload (notice_with (Some ∅) "production" noon)) = None
  /\ PContext (ToPayload (notice_with staging_context "production" noon))
       !! "environment"
     = Some (VString "staging").
Proof.
  destruct (ToPayload_projection (notice_with (Some ∅) "production" noon))
    as (_ & _ & _ & _ & _ & Henv & _ & Hreq & _).
  destruct (ToPayload_projection (notice_with staging_context "production" noon))
    as (_ & _ & _ & Hctx & _).
  split; [apply Henv; reflexivity|].
  split; [apply Hreq; reflexivity|].
  apply Hctx. reflexivity.
Defined.

End NoticeFacts.

(** ** Client.Send *)

Module ClientFacts.
Import GoStrings Values Config GoTime NoticeM GoJSON Client.

(** The success condition in the words of the specification: status 201
    and a body that is a JSON object with a number under "id" and a number
    under "problem_id". *)
Definition has_number (name : string) (j : json) : bool :=
  match j with
  | JObject members =>
      existsb (fun kv => String.eqb kv.1 name
                         && match kv.2 with
                            | JNumber _ => true
                            | _ => false
                            end) members
  | _ => false
  end.

Definition success_as_specified (status : Z) (body : Body) : bool :=
  (status =? 201)
  && match body_json body with
     | Some j => has_number "id" j && has_number "problem_id" j
     | None => false
     end.

Lemma log_error (c : Client.Client) (msg : string) :
  log c "error" msg = [ {| level := "error"; message := msg |} ].
Proof. unfold log. now rewrite andb_false_r. Qed.

Lemma log_warning (c : Client.Client) (msg : string) :
  log c "warning" msg = [ {| level := "warning"; message := msg |} ].
Proof. unfold log. now rewrite andb_false_r. Qed.

Lemma handleHTTPError_line (c : Client.Client) (status : Z) (body : Body) :
  exists lvl msg,
    handleHTTPError c status body = [ {| level := lvl; message := msg |} ]
    /\ (lvl = "error" \/ lvl = "warning").
Proof.
  unfold handleHTTPError.
  repeat case_match; rewrite ?log_error, ?log_warning; eauto.
Qed.

Definition empty_object : Body :=
  {| body_bytes := "{}"; body_json := Some (JObject []) |}.

Definition test_config : Configuration :=
  {| APIKey := "test-key"; Endpoint := "https://app.checkend.io";
     Environment := "production"; Enabled := true; AsyncSend := true;
     MaxQueueSize := 1000; ShutdownTimeout := 5000000000;
     FilterKeys := ["password"]; Debug := false;
     AppName := ""; Revision := ""; RootPath := "";
     SendRequestData := true; SendSessionData := true;
     SendEnvironment := false; SendUserData := true |}.

Definition test_notice : Notice :=
  {| ErrorClass := "errorString"; Message := "test error";
     Backtrace := []; Fingerprint := ""; Tags := [];
     Context := Some ∅; Request := None; User := None;
     NEnvironment := "production";
     OccurredAt := {| unix_sec := 1700000000; nsec := 0; zone := 0 |};
     Notifier := {| Name := "checkend-go"; NVersion := Version;
                    Language := "go"; LanguageVersion := "go1.22.0" |};
     NAppName := ""; NRevision := ""; NHostname := "" |}.

(** A server that answers 201 with the body [body]. *)
Definition answers_created (body : Body) : Net :=
  {| json_Marshal := fun _ => inl "{}";
     http_NewRequest := fun _ => None;
     httpClient_Do := fun _ => Response 201 body |}.

(** C6, as stated, fails: on status 201 with the body "{}", which has
    neither "id" nor "problem_id", [Send] returns a response, with both
    identifiers 0. *)
Lemma Send_counterexample :
  (Send (NewClient test_config) (answers_created empty_object) test_notice).1
  = Some {| ID := 0; ProblemID := 0 |}
  /\ success_as_specified 201 empty_object = false.
Proof. split; vm_compute; reflexivity. Qed.

(** The decoder, in the words of the claim. A member feeds the field
    [name] when its name is [name] up to the case of the letters; a field
    of type [int] accepts [null] and the integers in the range of [int];
    after the members a field holds the integer of the last member that
    feeds it with one, and what it held before when there is none. *)
Definition feeds (name k : string) : bool := String.eqb (ToLower k) name.

Definition int_or_null (v : json) : bool :=
  match v with
  | JNull => true
  | JNumber (JInt z) => (- 2 ^ 63 <=? z) && (z <? 2 ^ 63)
  | _ => false
  end.

Definition accepted (members : list (string * json)) : bool :=
  forallb (fun kv => if feeds "id" kv.1 || feeds "problem_id" kv.1
                     then int_or_null kv.2 else true) members.

Fixpoint field_after (name : string) (members : list (string * json))
    (cur : Z) : Z :=
  match members with
  | [] => cur
  | (k, v) :: rest =>
      field_after name rest
        (if feeds name k
         then match v with JNumber (JInt z) => z | _ => cur end
         else cur)
  end.

Definition decoded (members : list (string * json)) (r : APIResponse)
    : APIResponse :=
  {| ID := field_after "id" members (ID r);
     ProblemID := field_after "problem_id" members (ProblemID r) |}.

Lemma feeds_one (k : string) :
  feeds "id" k = true -> feeds "problem_id" k = false.
Proof.
  unfold feeds. intros H. apply String.eqb_eq in H. rewrite H. reflexivity.
Qed.

Lemma decode_members_spec (members : list (string * json)) :
  forall r,
    decode_members members r
    = if accepted members then Some (decoded members r) else None.
Proof.
  induction members as [|[k v] members IH]; intros r.
  - now destruct r.
  - cbn [decode_members accepted forallb fst snd]. fold (accepted members).
    fold (feeds "id" k). fold (feeds "problem_id" k).
    destruct (feeds "id" k) eqn:Hid.
    + rewrite (feeds_one k Hid) in *. cbn [orb].
      unfold decoded. cbn [field_after]. rewrite Hid, (feeds_one k Hid).
      destruct v as [| b | [z|] | s | items | ms]; cbn [store_int int_or_null andb];
        try reflexivity.
      * rewrite IH. reflexivity.
      * destruct ((- 2 ^ 63 <=? z) && (z <? 2 ^ 63)); [|reflexivity].
        rewrite IH. reflexivity.
    + cbn [orb]. destruct (feeds "problem_id" k) eqn:Hp.
      * unfold decoded. cbn [field_after]. rewrite Hid, Hp.
        destruct v as [| b | [z|] | s | items | ms];
          cbn [store_int int_or_null andb]; try reflexivity.
        -- rewrite IH. reflexivity.
        -- destruct ((- 2 ^ 63 <=? z) && (z <? 2 ^ 63)); [|reflexivity].
           rewrite IH. reflexivity.
      * rewrite IH. unfold decoded. cbn [field_after]. now rewrite Hid, Hp.
Qed.

Lemma json_Unmarshal_spec (body : Body) (r : APIResponse) :
  json_Unmarshal body = Some r
  <-> (body_json body = Some JNull /\ r = {| ID := 0; ProblemID := 0 |})
      \/ exists members,
           body_json body = Some (JObject members)
           /\ accepted members = true
           /\ r = decoded members {| ID := 0; ProblemID := 0 |}.
Proof.
  unfold json_Unmarshal.
  destruct (body_json body) as [[| b | n | s | items | members]|].
  - split; [intros [= <-]; now left|].
    intros [[_ ->] | (ms & H & _)]; [reflexivity | discriminate].
  - split; [discriminate | intros [[H _] | (ms & H & _)]; discriminate].
  - split; [discriminate | intros [[H _] | (ms & H & _)]; discriminate].
  - split; [discriminate | intros [[H _] | (ms & H & _)]; discriminate].
  - split; [discriminate | intros [[H _] | (ms & H & _)]; discriminate].
  - rewrite decode_members_spec. split.
    + destruct (accepted members) eqn:Hacc; [|discriminate].
      intros [= <-]. right. exists members. auto.
    + intros [[H _] | (ms & [= <-] & Hacc & ->)]; [discriminate|].
      now rewrite Hacc.
  - split; [discriminate | intros [[H _] | (ms & H & _)]; discriminate].
Qed.

(** C6, amended. [Send] returns a response exactly when the API key is
    set, the payload is serialized, the request is created, the exchange
    ends with status 201 and [json.Unmarshal] of the body into the response
    structure reports no error; the response is then what was decoded. The
    decoder reports no error exactly on the JSON [null] and on a JSON
    object in which every member named "id" or "problem_id", the case of
    the letters ignored, is [null] or an integer in the range of [int],
    whatever its other members are; each of the two fields then holds the
    integer of the last such member that has one, and 0 when there is
    none. In every other case [Send] returns nil and writes one line, of
    level error or warning, to the log. *)
Theorem Send_outcomes (c : Client.Client) (net : Net) (notice : Notice) :
  (forall r,
      (Send c net notice).1 = Some r <->
      APIKey (config c) <> ""
      /\ exists data body,
           json_Marshal net (ToPayload notice) = inl data
           /\ http_NewRequest net (endpoint c) = None
           /\ httpClient_Do net (post_request c data)
              = Response StatusCreated body
           /\ json_Unmarshal body = Some r)
  /\ ((Send c net notice).1 = None ->
      exists lvl msg,
        (Send c net notice).2 = [ {| level := lvl; message := msg |} ]
        /\ (lvl = "error" \/ lvl = "warning"))
  /\ (forall body r,
        json_Unmarshal body = Some r
        <-> (body_json body = Some JNull /\ r = {| ID := 0; ProblemID := 0 |})
            \/ exists members,
                 body_json body = Some (JObject members)
                 /\ accepted members = true
                 /\ r = decoded members {| ID := 0; ProblemID := 0 |}).
Proof.
  split; [|split; [|apply json_Unmarshal_spec]].
  - intros r. unfold Send.
    destruct (String.eqb_spec (APIKey (config c)) "") as [Hkey | Hkey].
    { split; [discriminate | intros [H _]; contradiction]. }
    destruct (json_Marshal net (ToPayload notice)) as [data | err] eqn:Hm.
    2:{ split; [discriminate|]. intros (_ & data & body & H & _).
        discriminate. }
    destruct (http_NewRequest net (endpoint c)) as [err|] eqn:Hreq.
    { split; [discriminate|]. intros (_ & d & b & _ & H & _). discriminate. }
    destruct (httpClient_Do net (post_request c data))
      as [err | st err | st body] eqn:Hdo.
    + split; [discriminate|]. intros (_ & d & b & Hd & _ & H & _).
      injection Hd as <-. rewrite Hdo in H. discriminate.
    + split; [discriminate|]. intros (_ & d & b & Hd & _ & H & _).
      injection Hd as <-. rewrite Hdo in H. discriminate.
    + destruct (Z.eqb_spec st StatusCreated) as [-> | Hst]; cbn [negb].
      * destruct (json_Unmarshal body) as [resp|] eqn:Hu; cbn [fst].
        -- split.
           ++ intros [= <-]. split; [exact Hkey|]. exists data, body. auto.
           ++ intros (_ & d & b & Hd & _ & H & Hr).
              injection Hd as <-. rewrite Hdo in H. injection H as <-.
              congruence.
        -- split; [discriminate|].
           intros (_ & d & b & Hd & _ & H & Hr).
           injection Hd as <-. rewrite Hdo in H. injection H as <-.
           congruence.
      * split; [discriminate|].
        intros (_ & d & b & Hd & _ & H & _).
        injection Hd as <-. rewrite Hdo in H. injection H as ? _.
        contradiction.
  - unfold Send.
    destruct (String.eqb (APIKey (config c)) "");
      [intros _; rewrite log_error; eauto|].
    destruct (json_Marshal net (ToPayload notice)) as [data | err];
      [|intros _; rewrite log_error; eauto].
    destruct (http_NewRequest net (endpoint c)) as [err|];
      [intros _; rewrite log_error; eauto|].
    destruct (httpClient_Do net (post_request c data)) as [err | st err | st body];
      [intros _; rewrite log_error; eauto | intros _; rewrite log_error; eauto |].
    destruct (negb (st =? StatusCreated));
      [intros _; apply handleHTTPError_line|].
    destruct (json_Unmarshal body);
      [discriminate | intros _; rewrite log_error; eauto].
Qed.

(** A network on which the connection is refused. *)
Definition refuses : Net :=
  {| json_Marshal := fun _ => inl "{}";
     http_NewRequest := fun _ => None;
     httpClient_Do := fun _ => DoError "connection refused" |}.

(** A body with a member that feeds no field, a name in upper case and a
    [null] member. *)
Definition dq : string := String "034"%char EmptyString.

Definition mixed_object : Body :=
  {| body_bytes :=
       "{" +:+ dq +:+ "status" +:+ dq +:+ ":" +:+ dq +:+ "ok" +:+ dq +:+ ","
       +:+ dq +:+ "ID" +:+ dq +:+ ":7,"
       +:+ dq +:+ "problem_id" +:+ dq +:+ ":null}";
     body_json :=
       Some (JObject [("status", JString "ok");
                      ("ID", JNumber (JInt 7));
                      ("problem_id", JNull)]) |}.

Lemma Send_outcomes_witness :
  (Send (NewClient test_config) (answers_created empty_object) test_notice).1
  = Some {| ID := 0; ProblemID := 0 |}
  /\ (Send (NewClient test_config) (answers_created mixed_object) test_notice).1
     = Some {| ID := 7; ProblemID := 0 |}
  /\ exists lvl msg,
       (Send (NewClient test_config) refuses test_notice).2
       = [ {| level := lvl; message := msg |} ]
       /\ (lvl = "error" \/ lvl = "warning").
Proof.
  destruct (Send_outcomes (NewClient test_config)
              (answers_created empty_object) test_notice) as (Hiff & _).
  destruct (Send_outcomes (NewClient test_config)
              (answers_created mixed_object) test_notice)
    as (Hiff' & _).
  destruct (Send_outcomes (NewClient test_config) refuses test_notice)
    as (_ & Hnil & _).
  split; [|split].
  - apply Hiff. split; [discriminate|].
    exists "{}", empty_object. repeat split; reflexivity.
  - apply Hiff'. split; [discriminate|].
    exists "{}", mixed_object. repeat split; reflexivity.
  - apply Hnil. reflexivity.
Defined.

(** Bodies that the decoder refuses: an identifier that is a string, a
    fraction or out of the range of [int], also under a name that feeds no
    field twice, and a body that is not an object. *)
Example json_Unmarshal_refuses :
  json_Unmarshal {| body_bytes := ""; body_json :=
      Some (JObject [("id", JString "7")]) |} = None
  /\ json_Unmarshal {| body_bytes := ""; body_json :=
        Some (JObject [("id", JNumber (JInt 1)); ("Id", JNumber JNonInt)]) |}
     = None
  /\ json_Unmarshal {| body_bytes := ""; body_json :=
        Some (JObject [("problem_id", JNumber (JInt (2 ^ 63)))]) |} = None
  /\ json_Unmarshal {| body_bytes := ""; body_json :=
        Some (JArray [JNumber (JInt 1)]) |} = None
  /\ json_Unmarshal {| body_bytes := ""; body_json := None |} = None.
Proof. repeat split; reflexivity. Qed.

End ClientFacts.

(** ** Worker: the queue and the retry loop *)

Module WorkerFacts.
Import Values Config NoticeM Client WorkerM.

Definition with_queue (w : Worker) (q : list Notice) : Worker :=
  {| wconfig := wconfig w; client := client w;
     queue := q; running := running w |}.

Lemma Push_room (w : Worker) (notice : Notice) :
  running w = true ->
  Z.of_nat (List.length (queue w)) < MaxQueueSize (wconfig w) ->
  Push w false notice = (true, with_queue w (queue w ++ [notice]), None).
Proof.
  intros Hrun Hroom. unfold Push, with_queue. rewrite Hrun. cbn [negb].
  apply Z.ltb_lt in Hroom. rewrite Hroom. reflexivity.
Qed.

Lemma Push_full (w : Worker) (notice : Notice) :
  MaxQueueSize (wconfig w) <= Z.of_nat (List.length (queue w)) ->
  Push w false notice = (false, w, None).
Proof.
  intros Hfull. unfold Push. apply Z.ltb_ge in Hfull. rewrite Hfull.
  now destruct (running w).
Qed.

Lemma Push_stopped (w : Worker) (receiver_waiting : bool) (notice : Notice) :
  running w = false -> Push w receiver_waiting notice = (false, w, None).
Proof. intros Hrun. unfold Push. now rewrite Hrun. Qed.

Lemma push_all_room (notices : list Notice) :
  forall w,
    running w = true ->
    Z.of_nat (List.length (queue w) + List.length notices)
    <= MaxQueueSize (wconfig w) ->
    push_all w notices
    = (replicate (List.length notices) true, with_queue w (queue w ++ notices)).
Proof.
  induction notices as [|n ns IH]; intros w Hrun Hcap.
  - cbn. rewrite app_nil_r. now destruct w.
  - cbn [push_all]. cbn [List.length] in Hcap.
    rewrite Push_room by (trivial; lia).
    rewrite IH.
    + cbn. rewrite <- app_assoc. reflexivity.
    + exact Hrun.
    + cbn. rewrite length_app. cbn. lia.
Qed.

Lemma push_all_app (ns1 ns2 : list Notice) :
  forall w,
    push_all w (ns1 ++ ns2)
    = ((push_all w ns1).1 ++ (push_all (push_all w ns1).2 ns2).1,
       (push_all (push_all w ns1).2 ns2).2).
Proof.
  induction ns1 as [|n ns1 IH]; intros w.
  - cbn. now destruct (push_all w ns2).
  - cbn [app push_all]. destruct (Push w false n) as [[ok w1] h].
    rewrite IH. destruct (push_all w1 ns1) as [oks1 w2]. cbn.
    now destruct (push_all w2 ns2).
Qed.

(** C5. A worker made for a configuration of queue size [N] and started
    accepts [N] notices in a row when nothing is received from the queue in
    between, and refuses the next one, leaving the queue as it is; no call
    waits. A worker that is not running refuses every notice and its queue
    is unchanged. *)
Theorem queue_capacity_bound (cfg : Configuration) (notices : list Notice)
    (extra : Notice) :
  MaxQueueSize cfg = Z.of_nat (List.length notices) ->
  exists w0,
    NewWorker cfg = Some w0
    /\ push_all (Start w0) (notices ++ [extra])
       = (replicate (List.length notices) true ++ [false],
          with_queue (Start w0) notices)
    /\ (forall receiver_waiting n,
          Push w0 receiver_waiting n = (false, w0, None))
    /\ (forall w receiver_waiting n,
          running w = false -> Push w receiver_waiting n = (false, w, None)).
Proof.
  intros Hcap. unfold NewWorker.
  replace (MaxQueueSize cfg <? 0) with false by (symmetry; apply Z.ltb_ge; lia).
  eexists. split; [reflexivity|].
  split; [|split].
  - rewrite push_all_app. cbn [Start running].
    rewrite push_all_room by (cbn; trivial; lia).
    cbn [fst snd push_all].
    rewrite Push_full by (cbn; lia). reflexivity.
  - intros rw n. now apply Push_stopped.
  - intros w rw n. apply Push_stopped.
Qed.

Definition a_notice (msg : string) : Notice :=
  {| ErrorClass := "errorString"; Message := msg;
     Backtrace := []; Fingerprint := ""; Tags := [];
     Context := Some ∅; NoticeM.Request := None; User := None;
     NEnvironment := "production";
     OccurredAt := {| GoTime.unix_sec := 1700000000; GoTime.nsec := 0;
                      GoTime.zone := 0 |};
     Notifier := {| Name := "checkend-go"; NVersion := Version;
                    Language := "go"; LanguageVersion := "go1.22.0" |};
     NAppName := ""; NRevision := ""; NHostname := "" |}.

Definition a_config (size : Z) : Configuration :=
  {| APIKey := "test-key"; Endpoint := "https://app.checkend.io";
     Environment := "production"; Enabled := true; AsyncSend := true;
     MaxQueueSize := size; ShutdownTimeout := 5000000000;
     FilterKeys := ["password"]; Debug := false;
     AppName := ""; Revision := ""; RootPath := "";
     SendRequestData := true; SendSessionData := true;
     SendEnvironment := false; SendUserData := true |}.

Lemma queue_capacity_bound_witness :
  exists w0,
    NewWorker (a_config 2) = Some w0
    /\ push_all (Start w0) ([a_notice "one"; a_notice "two"] ++ [a_notice "three"])
       = (replicate 2 true ++ [false],
          with_queue (Start w0) [a_notice "one"; a_notice "two"])
    /\ (forall receiver_waiting n,
          Push w0 receiver_waiting n = (false, w0, None))
    /\ (forall w receiver_waiting n,
          running w = false -> Push w receiver_waiting n = (false, w, None)).
Proof.
  apply (queue_capacity_bound (a_config 2)
           [a_notice "one"; a_notice "two"] (a_notice "three")).
  reflexivity.
Defined.

(** One turn of the loop of [sendWithRetry]. *)
Lemma sendWithRetry_from_step (w : Worker) (notice : Notice)
    (maxRetries attempt : Z) (st : World) :
  sendWithRetry_from w notice maxRetries attempt st
  = if Z_lt_dec attempt maxRetries
    then match client_Send w notice st with
         | (Some _, st1) => st1
         | (None, st1) =>
             sendWithRetry_from w notice maxRetries (attempt + 1)
               (if attempt <? maxRetries - 1
                then time_Sleep (delay attempt) st1
                else st1)
         end
    else st.
Proof.
  rewrite sendWithRetry_from_equation_1.
  destruct (Z_lt_dec attempt maxRetries) as [Hlt | Hge]; cbn; [|reflexivity].
  destruct (client_Send w notice st) as [[r|] st1]; cbn; reflexivity.
Qed.

(** The back-off before attempt [a + 1] is 100ms times 2 to the [a], as
    long as that fits in 64 bits. *)
Lemma delay_pow2 (a : Z) :
  0 <= a <= 30 -> delay a = 100 * Millisecond * 2 ^ a.
Proof.
  intros Ha. unfold delay, Millisecond.
  replace (a <? 64) with true by (symmetry; apply Z.ltb_lt; lia).
  rewrite Z.shiftl_1_l.
  assert (Hpow : 1 <= 2 ^ a <= 2 ^ 30).
  { split; [|apply Z.pow_le_mono_r; lia].
    pose proof (Z.pow_pos_nonneg 2 a). lia. }
  change (2 ^ 30) with 1073741824 in Hpow.
  unfold wrap64. change (2 ^ 63) with 9223372036854775808.
  change (2 ^ 64) with 18446744073709551616.
  rewrite (Z.mod_small (2 ^ a + _)) by lia.
  replace (2 ^ a + 9223372036854775808 - 9223372036854775808) with (2 ^ a) by lia.
  rewrite (Z.mod_small (2 ^ a * 100 + _)) by lia.
  replace (2 ^ a * 100 + 9223372036854775808 - 9223372036854775808)
    with (2 ^ a * 100) by lia.
  rewrite Z.mod_small by lia. lia.
Qed.

(** The calls of an event list: the log lines left out. *)
Definition calls (evs : list event) : list event :=
  List.filter (fun ev => match ev with EvLog _ => false | _ => true end) evs.

Lemma calls_app (a b : list event) : calls (a ++ b) = calls a ++ calls b.
Proof. apply List.filter_app. Qed.

Lemma calls_logs (lines : list log_line) : calls (map EvLog lines) = [].
Proof. induction lines as [|l ls IH]; [reflexivity | exact IH]. Qed.

(** The answer of the [k]-th further call of [Send] in the world [st]. *)
Definition answer (w : Worker) (notice : Notice) (st : World) (k : nat)
    : option APIResponse :=
  (Send (client w) (nets st (sends st + k)%nat) notice).1.

Lemma client_Send_spec (w : Worker) (notice : Notice) (st : World) :
  exists lines,
    client_Send w notice st
    = (answer w notice st 0,
       {| nets := nets st; sends := S (sends st);
          events := events st
                    ++ EvSend notice (answer w notice st 0) :: map EvLog lines |}).
Proof.
  unfold client_Send, answer. rewrite Nat.add_0_r.
  destruct (Send (client w) (nets st (sends st)) notice) as [r lines].
  now exists lines.
Qed.

Lemma calls_send (n : Notice) (r : option APIResponse) (evs : list event) :
  calls (EvSend n r :: evs) = EvSend n r :: calls evs.
Proof. reflexivity. Qed.

Lemma calls_sleep (d : Z) (evs : list event) :
  calls (EvSleep d :: evs) = EvSleep d :: calls evs.
Proof. reflexivity. Qed.

Lemma calls_logs_app (lines : list log_line) (evs : list event) :
  calls (map EvLog lines ++ evs) = calls evs.
Proof. now rewrite calls_app, calls_logs. Qed.

Ltac calls_norm :=
  rewrite <- ?app_assoc; cbn [app];
  repeat (rewrite calls_send || rewrite calls_sleep
          || rewrite calls_logs_app || rewrite calls_logs);
  rewrite <- ?app_assoc; cbn [app].

Lemma answer_later (w : Worker) (notice : Notice) (st st' : World) (k : nat) :
  nets st' = nets st -> sends st' = (sends st + k)%nat ->
  answer w notice st' 0 = answer w notice st k.
Proof.
  intros Hn Hs. unfold answer. now rewrite Hn, Hs, Nat.add_0_r.
Qed.

(** C4. A notice received from the queue by the processing task is sent
    with [sendWithRetry(notice, 3)]. The calls it makes are: one [Send];
    if that returned nil, a sleep of 100ms * 2^0 and a second [Send]; if
    that returned nil too, a sleep of 100ms * 2^1 and a third [Send], after
    which it returns whatever the answer was. So there are at most three
    attempts, a response ends them, and the function returns without an
    error in every case. *)
Theorem retry_policy (w : Worker) (notice : Notice) (rest : list Notice)
    (st : World) :
  queue w = notice :: rest ->
  exists new,
    run_receive w st = (with_queue w rest, sendWithRetry w notice 3 st)
    /\ events (sendWithRetry w notice 3 st) = events st ++ new
    /\ calls new
       = match answer w notice st 0 with
         | Some r => [EvSend notice (Some r)]
         | None =>
             EvSend notice None :: EvSleep (100 * Millisecond * 2 ^ 0)
             :: match answer w notice st 1 with
                | Some r => [EvSend notice (Some r)]
                | None =>
                    [EvSend notice None;
                     EvSleep (100 * Millisecond * 2 ^ 1);
                     EvSend notice (answer w notice st 2)]
                end
         end
    /\ (sends (sendWithRetry w notice 3 st) <= sends st + 3)%nat.
Proof.
  intros Hq. unfold run_receive. rewrite Hq. fold (with_queue w rest).
  unfold sendWithRetry.
  rewrite sendWithRetry_from_step.
  destruct (Z_lt_dec 0 3) as [_|]; [|lia].
  destruct (client_Send_spec w notice st) as [l0 E0]. rewrite E0.
  destruct (answer w notice st 0) as [r0|] eqn:A0.
  { eexists. split; [reflexivity|]. cbn [events sends].
    split; [reflexivity|]. split; [|lia].
    now calls_norm. }
  change (0 <? 3 - 1) with true. cbn iota.
  rewrite sendWithRetry_from_step.
  destruct (Z_lt_dec (0 + 1) 3) as [_|]; [|lia].
  match goal with |- context [client_Send w notice ?s] => set (st1 := s) end.
  destruct (client_Send_spec w notice st1) as [l1 E1]. rewrite E1.
  rewrite (answer_later w notice st st1 1) by (subst st1; cbn; trivial; lia).
  destruct (answer w notice st 1) as [r1|] eqn:A1.
  { eexists. split; [reflexivity|]. subst st1. cbn [events sends time_Sleep].
    split; [rewrite <- !app_assoc; reflexivity|]. split; [|lia].
    calls_norm. now rewrite (delay_pow2 0) by lia. }
  change (0 + 1 <? 3 - 1) with true. cbn iota.
  rewrite sendWithRetry_from_step.
  destruct (Z_lt_dec (0 + 1 + 1) 3) as [_|]; [|lia].
  match goal with |- context [client_Send w notice ?s] => set (st2 := s) end.
  destruct (client_Send_spec w notice st2) as [l2 E2]. rewrite E2.
  rewrite (answer_later w notice st st2 2)
    by (subst st2 st1; cbn; trivial; lia).
  assert (Hend : forall s,
             sendWithRetry_from w notice 3 (0 + 1 + 1 + 1) s = s).
  { intros s. rewrite sendWithRetry_from_step.
    destruct (Z_lt_dec (0 + 1 + 1 + 1) 3); [lia | reflexivity]. }
  change (0 + 1 + 1 <? 3 - 1) with false. cbn iota.
  destruct (answer w notice st 2) as [r2|] eqn:A2; rewrite ?Hend.
  all: eexists; split; [reflexivity|]; subst st2 st1;
       cbn [events sends time_Sleep];
       (split; [rewrite <- !app_assoc; reflexivity|]); (split; [|lia]).
  all: calls_norm;
       rewrite (delay_pow2 0), (delay_pow2 (0 + 1)) by lia; reflexivity.
Qed.

Definition always_down : Net :=
  {| json_Marshal := fun _ => inl "{}";
     http_NewRequest := fun _ => None;
     httpClient_Do := fun _ => DoError "connection refused" |}.

Definition a_worker : Worker :=
  {| wconfig := a_config 2; client := NewClient (a_config 2);
     queue := [a_notice "one"]; running := true |}.

Definition a_world : World :=
  {| nets := fun _ => always_down; sends := 0; events := [] |}.

Lemma retry_policy_witness :
  exists new,
    run_receive a_worker a_world
    = (with_queue a_worker [], sendWithRetry a_worker (a_notice "one") 3 a_world)
    /\ events (sendWithRetry a_worker (a_notice "one") 3 a_world)
       = events a_world ++ new
    /\ calls new
       = match answer a_worker (a_notice "one") a_world 0 with
         | Some r => [EvSend (a_notice "one") (Some r)]
         | None =>
             EvSend (a_notice "one") None :: EvSleep (100 * Millisecond * 2 ^ 0)
             :: match answer a_worker (a_notice "one") a_world 1 with
                | Some r => [EvSend (a_notice "one") (Some r)]
                | None =>
                    [EvSend (a_notice "one") None;
                     EvSleep (100 * Millisecond * 2 ^ 1);
                     EvSend (a_notice "one")
                       (answer a_worker (a_notice "one") a_world 2)]
                end
         end
    /\ (sends (sendWithRetry a_worker (a_notice "one") 3 a_world)
        <= sends a_world + 3)%nat.
Proof.
  apply (retry_policy a_worker (a_notice "one") [] a_world). reflexivity.
Defined.

End WorkerFacts.

(** ** NoticeBuilder.Build *)

Module BuilderFacts.
Import GoStrings Values Reflect Config GoTime NoticeM Sanitize Builder.

(** C9. With [SendEnvironment] on and a nil context map, [Build] on a
    non-nil error does not produce a notice: [Filter] returns nil for the
    nil map and the assignment of the environment snapshot under "env"
    writes to that nil map. *)
Theorem Build_nil_context_faults (b : NoticeBuilder) (proc : Process)
    (e : GoError) (user request : option (gmap string value))
    (fingerprint : string) (tags : list string) :
  SendEnvironment (bconfig b) = true ->
  Filter (sanitizeFilter b) None = None
  /\ Build b proc (Some e) None user request fingerprint tags
     = Panic "assignment to entry in nil map".
Proof.
  intros Henv. split; [reflexivity|].
  unfold Build. cbn [extractMessage Filter]. rewrite Henv.
  reflexivity.
Qed.

Definition env_config : Configuration :=
  {| APIKey := "test-key"; Endpoint := "https://app.checkend.io";
     Environment := "production"; Enabled := true; AsyncSend := true;
     MaxQueueSize := 1000; ShutdownTimeout := 5000000000;
     FilterKeys := ["password"]; Debug := false;
     AppName := ""; Revision := ""; RootPath := "";
     SendRequestData := true; SendSessionData := true;
     SendEnvironment := true; SendUserData := true |}.

Definition a_process : Process :=
  {| callers := [ {| File := "/app/main.go"; Line := 10;
                     Function := "main.main" |} ];
     os_Environ := ["HOME=/root"; "API_KEY=abc"];
     os_Hostname := Some "host";
     time_Now := {| unix_sec := 1700000000; nsec := 0; zone := 0 |};
     runtime_Version := "go1.22.0" |}.

Definition test_error : GoError :=
  {| err_type := TPtr (TNamed "errors" "errors" "errorString");
     err_Error := "test error" |}.

Lemma Build_nil_context_faults_witness :
  Filter (sanitizeFilter (NewNoticeBuilder env_config)) None = None
  /\ Build (NewNoticeBuilder env_config) a_process (Some test_error)
       None None None "" []
     = Panic "assignment to entry in nil map".
Proof.
  apply (Build_nil_context_faults (NewNoticeBuilder env_config) a_process
           test_error None None "" []).
  reflexivity.
Defined.

(** With a non-nil context the same call produces a notice whose context
    has the snapshot under "env". *)
Example Build_empty_context :
  exists n,
    Build (NewNoticeBuilder env_config) a_process (Some test_error)
      (Some ∅) None None "" [] = Ok n
    /\ Context n
       = Some {[ "env" := VOther (OStringMap {[ "HOME" := "/root" ]}) ]}
    /\ ErrorClass n = "errorString"
    /\ Backtrace n = ["/app/main.go:10 in main.main"].
Proof. eexists. split; [reflexivity|]. repeat split; vm_compute; reflexivity. Qed.

End BuilderFacts.

(** ** The tests of the repository, run on the embedding

    The cases of src/filters/ignore_test.go and of the sanitize tests
    (src/unnamed/part_002), with the values they expect. *)

Module SourceTests.
Import GoStrings Values Sanitize Reflect Ignore.

Definition filters_type (name : string) : rtype :=
  TPtr (TNamed "github.com/Checkend/checkend-go/filters" "filters" name).

Definition customError (msg : string) : GoError :=
  {| err_type := filters_type "customError"; err_Error := msg |}.

Definition anotherError (msg : string) : GoError :=
  {| err_type := filters_type "anotherError"; err_Error := msg |}.

Definition errors_New (msg : string) : GoError :=
  {| err_type := TPtr (TNamed "errors" "errors" "errorString");
     err_Error := msg |}.

Definition ignores (ps : list pattern) (err : option GoError) : bool :=
  ShouldIgnore_frag (fun _ _ => false) (NewIgnoreFilter ps) err.

Example TestIgnoreFilterByString :
  ignores [PatString "customError"] (Some (customError "test")) = true
  /\ ignores [PatString "customError"] (Some (anotherError "test")) = false.
Proof. split; vm_compute; reflexivity. Qed.

Example TestIgnoreFilterByErrorInstance :
  ignores [PatError (filters_type "customError")]
    (Some (customError "another")) = true.
Proof. vm_compute; reflexivity. Qed.

Example TestIgnoreFilterByRegex :
  ignores [PatString ".*Error"] (Some (errors_New "test")) = false
  /\ ignores [PatString ".*Error"] (Some (customError "test")) = true.
Proof. split; vm_compute; reflexivity. Qed.

Example TestIgnoreFilterMultiplePatterns :
  ignores [PatString "customError"; PatString "anotherError"]
    (Some (customError "test")) = true
  /\ ignores [PatString "customError"; PatString "anotherError"]
       (Some (anotherError "test")) = true
  /\ ignores [PatString "customError"; PatString "anotherError"]
       (Some (errors_New "test")) = false.
Proof. repeat split; vm_compute; reflexivity. Qed.

Example TestIgnoreFilterEmptyList :
  ignores [] (Some (customError "test")) = false.
Proof. reflexivity. Qed.

Example TestIgnoreFilterNilError :
  ignores [PatString "customError"] None = true.
Proof. reflexivity. Qed.

Definition int (n : Z) : value := VScalar (SInt KInt n).

Example TestSanitizeFilterSimple :
  Filter (NewSanitizeFilter ["password"; "secret"])
    (Some {[ "username" := VString "john"; "password" := VString "secret123" ]})
  = Some {[ "username" := VString "john"; "password" := VString "[FILTERED]" ]}.
Proof. vm_compute; reflexivity. Qed.

Example TestSanitizeFilterNested :
  Filter (NewSanitizeFilter ["password"; "token"])
    (Some {[ "user" :=
               VMap {[ "name" := VString "John";
                       "credentials" :=
                         VMap {[ "password" := VString "secret123";
                                 "api_token" := VString "abc123" ]} ]} ]})
  = Some {[ "user" :=
              VMap {[ "name" := VString "John";
                      "credentials" :=
                        VMap {[ "password" := VString "[FILTERED]";
                                "api_token" := VString "[FILTERED]" ]} ]} ]}.
Proof. vm_compute; reflexivity. Qed.

Example TestSanitizeFilterSlice :
  Filter (NewSanitizeFilter ["password"])
    (Some {[ "users" :=
               VSlice [ VMap {[ "name" := VString "Alice";
                                "password" := VString "pass1" ]};
                        VMap {[ "name" := VString "Bob";
                                "password" := VString "pass2" ]} ] ]})
  = Some {[ "users" :=
              VSlice [ VMap {[ "name" := VString "Alice";
                               "password" := VString "[FILTERED]" ]};
                       VMap {[ "name" := VString "Bob";
                               "password" := VString "[FILTERED]" ]} ] ]}.
Proof. vm_compute; reflexivity. Qed.

Example TestSanitizeFilterCaseInsensitive :
  Filter (NewSanitizeFilter ["password"])
    (Some {[ "PASSWORD" := VString "value1"; "Password" := VString "value2";
             "password" := VString "value3" ]})
  = Some {[ "PASSWORD" := VString "[FILTERED]";
            "Password" := VString "[FILTERED]";
            "password" := VString "[FILTERED]" ]}.
Proof. vm_compute; reflexivity. Qed.

Example TestSanitizeFilterPartialMatch :
  Filter (NewSanitizeFilter ["password"; "secret"])
    (Some {[ "user_password" := VString "secret";
             "password_hash" := VString "hash";
             "secret_key" := VString "key" ]})
  = Some {[ "user_password" := VString "[FILTERED]";
            "password_hash" := VString "[FILTERED]";
            "secret_key" := VString "[FILTERED]" ]}.
Proof. vm_compute; reflexivity. Qed.

Example TestSanitizeFilterPreservesNonSensitive :
  Filter (NewSanitizeFilter ["password"])
    (Some {[ "id" := int 123; "name" := VString "Test";
             "active" := VScalar (SBool true);
             "value" := VScalar (SFloat KFloat64 4614253070214989087) ]})
  = Some {[ "id" := int 123; "name" := VString "Test";
            "active" := VScalar (SBool true);
            "value" := VScalar (SFloat KFloat64 4614253070214989087) ]}.
Proof. vm_compute; reflexivity. Qed.

Example TestSanitizeFilterHandlesNil :
  Filter (NewSanitizeFilter ["password"]) None = None.
Proof. reflexivity. Qed.

Fixpoint bytes (n : nat) (c : ascii) : string :=
  match n with
  | O => EmptyString
  | S n' => String c (bytes n' c)
  end.

Example TestSanitizeFilterTruncatesLongStrings :
  len (truncateString (bytes (Z.to_nat 15000) "x")) = maxStringLen + 3.
Proof. vm_compute; reflexivity. Qed.

(** The map of the deep-nesting test: level 0 holds "level" and, under
    "nested", level 1, and so on to level 15. *)
Fixpoint levels (n : nat) (i : Z) : gmap string value :=
  match n with
  | O => {[ "level" := int i ]}
  | S n' => {[ "level" := int i; "nested" := VMap (levels n' (i + 1)) ]}
  end.

Example TestSanitizeFilterHandlesDeepNesting :
  (Filter (NewSanitizeFilter []) (Some (levels 15 0)) ≫= fun out => out !! "level")
  = Some (int 0)
  /\ (Filter (NewSanitizeFilter []) (Some (levels 15 0))
        ≫= fun out => get (replicate 10 (Key "nested")) (VMap out))
     = Some (VMap {[ "level" := VString "[MAX DEPTH EXCEEDED]";
                     "nested" := VString "[MAX DEPTH EXCEEDED]" ]}).
Proof. split; vm_compute; reflexivity. Qed.

End SourceTests.

(** ** SanitizeFilter: shape, bounds and letter case *)

Module SanitizeMoreFacts.
Import GoStrings Values Sanitize GoStringsFacts ValuesFacts SanitizeFacts.
#[local] Arguments String.append !_ _ / : simpl nomatch.

Lemma lower_upper_byte (c : ascii) : lower_byte (upper_byte c) = lower_byte c.
Proof.
  destruct c as [[] [] [] [] [] [] [] []]; vm_compute; reflexivity.
Qed.

Lemma upper_lower_byte (c : ascii) : upper_byte (lower_byte c) = upper_byte c.
Proof.
  destruct c as [[] [] [] [] [] [] [] []]; vm_compute; reflexivity.
Qed.

Lemma lower_lower_byte (c : ascii) : lower_byte (lower_byte c) = lower_byte c.
Proof.
  destruct c as [[] [] [] [] [] [] [] []]; vm_compute; reflexivity.
Qed.

Lemma ToLower_ToUpper (s : string) : ToLower (ToUpper s) = ToLower s.
Proof.
  induction s as [|c s IH]; [reflexivity|].
  cbn. f_equal; [apply lower_upper_byte | exact IH].
Qed.

Lemma ToUpper_ToLower (s : string) : ToUpper (ToLower s) = ToUpper s.
Proof.
  induction s as [|c s IH]; [reflexivity|].
  cbn. f_equal; [apply upper_lower_byte | exact IH].
Qed.

Lemma ToLower_idem (s : string) : ToLower (ToLower s) = ToLower s.
Proof.
  induction s as [|c s IH]; [reflexivity|].
  cbn. f_equal; [apply lower_lower_byte | exact IH].
Qed.

Lemma HasPrefix_refl (s : string) : HasPrefix s s = true.
Proof. induction s as [|c s IH]; simpl; [reflexivity|]. now rewrite Ascii.eqb_refl. Qed.

Lemma Contains_refl (s : string) : Contains s s = true.
Proof. destruct s; simpl; [reflexivity|]. now rewrite Ascii.eqb_refl, HasPrefix_refl. Qed.

Lemma Contains_empty (s : string) : Contains s "" = true.
Proof. now destruct s. Qed.

Lemma len_truncateString (s : string) :
  len (truncateString s) <= maxStringLen + 3
  /\ (len s <= maxStringLen -> truncateString s = s).
Proof.
  unfold truncateString, len.
  destruct (maxStringLen <? Z.of_nat (String.length s)) eqn:Hlong.
  - apply Z.ltb_lt in Hlong. split; [|lia].
    rewrite length_app_str, length_take by lia.
    change (String.length "...") with 3%nat.
    rewrite Nat2Z.inj_add, Z2Nat.id by (unfold maxStringLen; lia). lia.
  - apply Z.ltb_ge in Hlong. split; [lia | reflexivity].
Qed.

Lemma shouldFilter_upper (keys : list string) (key : string) :
  shouldFilter (NewSanitizeFilter keys) (ToUpper key)
  = shouldFilter (NewSanitizeFilter keys) key.
Proof. unfold shouldFilter. now rewrite ToLower_ToUpper. Qed.

Lemma shouldFilter_self (keys : list string) (k : string) :
  In k keys -> shouldFilter (NewSanitizeFilter keys) k = true.
Proof.
  intros Hin. unfold shouldFilter, NewSanitizeFilter. cbn [filterKeys].
  apply existsb_exists. exists (ToLower k). split.
  - apply in_map_iff. now exists k.
  - apply Contains_refl.
Qed.

Lemma shouldFilter_empty_key (keys : list string) (key : string) :
  In "" keys -> shouldFilter (NewSanitizeFilter keys) key = true.
Proof.
  intros Hin. unfold shouldFilter, NewSanitizeFilter. cbn [filterKeys].
  apply existsb_exists. exists "". split.
  - apply in_map_iff. now exists "".
  - apply Contains_empty.
Qed.

(** The strings of ASCII bytes. *)
Definition is_ascii (s : string) : bool :=
  forallb (fun c => (N_of_ascii c <? 128)%N) (list_ascii_of_string s).

(** X1. For a key of ASCII bytes the filter gives the same answer in
    upper case, in lower case and as written; filter keys of ASCII bytes
    give the same filter in upper case as they do as written. Every
    configured key redacts the key of the same name, and a filter key that
    is the empty string redacts every key. *)
Theorem shouldFilter_any_case (keys : list string) (key : string) :
  (is_ascii key = true ->
   shouldFilter (NewSanitizeFilter keys) (ToUpper key)
   = shouldFilter (NewSanitizeFilter keys) key
   /\ shouldFilter (NewSanitizeFilter keys) (ToLower key)
      = shouldFilter (NewSanitizeFilter keys) key)
  /\ (forallb is_ascii keys = true ->
      shouldFilter (NewSanitizeFilter (map ToUpper keys)) key
      = shouldFilter (NewSanitizeFilter keys) key)
  /\ (In key keys -> shouldFilter (NewSanitizeFilter keys) key = true)
  /\ (In "" keys -> shouldFilter (NewSanitizeFilter keys) key = true).
Proof.
  split; [intros _; split|].
  - apply shouldFilter_upper.
  - unfold shouldFilter. now rewrite ToLower_idem.
  - split; [|split; [apply shouldFilter_self | apply shouldFilter_empty_key]].
    intros _. unfold shouldFilter, NewSanitizeFilter. cbn [filterKeys].
    rewrite map_map. f_equal. apply map_ext. intros k. apply ToLower_ToUpper.
Qed.

Lemma shouldFilter_any_case_witness :
  shouldFilter (NewSanitizeFilter ["Password"; "token"]) (ToUpper "user_password")
  = shouldFilter (NewSanitizeFilter ["Password"; "token"]) "user_password"
  /\ shouldFilter (NewSanitizeFilter (map ToUpper ["Password"; "token"]))
       "user_password"
     = shouldFilter (NewSanitizeFilter ["Password"; "token"]) "user_password"
  /\ shouldFilter (NewSanitizeFilter ["Password"; "token"]) "user_password"
     = true.
Proof.
  destruct (shouldFilter_any_case ["Password"; "token"] "user_password")
    as (Hkey & Hkeys & _).
  destruct (Hkey eq_refl) as [Hupper _].
  split; [exact Hupper|]. split; [exact (Hkeys eq_refl)|].
  vm_compute. reflexivity.
Defined.

(** Keys in several cases, and a filter with an empty key. *)
Example shouldFilter_case_examples :
  shouldFilter (NewSanitizeFilter ["password"]) "PASSWORD" = true
  /\ shouldFilter (NewSanitizeFilter ["Password"]) "user_password" = true
  /\ shouldFilter (NewSanitizeFilter ["password"]) "username" = false
  /\ shouldFilter (NewSanitizeFilter ["password"; ""]) "username" = true.
Proof. repeat split; vm_compute; reflexivity. Qed.

(** What the filter may leave at a position: a string of bounded length,
    a scalar or a container; never a value of another type. *)
Definition wire_safe (y : value) : Prop :=
  match y with
  | VString s => len s <= maxStringLen + 3
  | VOther _ => False
  | _ => True
  end.

Lemma filterValue_wire_safe (f : SanitizeFilter) (p : path) :
  forall v d y, get p (filterValue f v d) = Some y -> wire_safe y.
Proof.
  induction p as [|st p IH]; intros v d y Hget.
  - cbn in Hget. injection Hget as <-.
    destruct (Z_lt_dec maxDepth d) as [Hd | Hd].
    { rewrite filterValue_deep by lia. vm_compute. discriminate. }
    rewrite filterValue_shallow by lia.
    destruct v; cbn; auto; apply len_truncateString.
  - destruct (Z_lt_dec maxDepth d) as [Hd | Hd].
    { rewrite (filterValue_deep _ _ _ Hd) in Hget. now destruct st. }
    rewrite filterValue_shallow in Hget by lia.
    destruct st as [k1 | i]; destruct v as [m | l | s | x | o];
      try discriminate; cbn [get] in Hget.
    + rewrite map_lookup_imap in Hget.
      destruct (m !! k1) as [x|]; [|discriminate]. cbn in Hget.
      unfold entry in Hget. destruct (shouldFilter f k1).
      * destruct p as [|[?|?] ?]; try discriminate.
        injection Hget as <-. vm_compute. discriminate.
      * eapply IH; eauto.
    + rewrite list_lookup_fmap in Hget.
      destruct (l !! i) as [x|]; [|discriminate]. cbn in Hget.
      eapply IH; eauto.
Qed.

(** X2. Whatever the input, every string in the output of [Filter] has at
    most 10003 bytes and no position of the output holds a value of a type
    other than map, slice, string or the scalar types. *)
Theorem Filter_output_wire_safe (f : SanitizeFilter)
    (m out : gmap string value) (p : path) (y : value) :
  Filter f (Some m) = Some out ->
  get p (VMap out) = Some y ->
  wire_safe y.
Proof.
  intros Hout Hget. unfold Filter in Hout. injection Hout as <-.
  rewrite Filter_as_value in Hget. eapply filterValue_wire_safe; eauto.
Qed.

Definition opaque_input : gmap string value :=
  {[ "when" := VOther (OOpaque (Some "2024-01-02")); "n" := VScalar SNil ]}.

Lemma Filter_output_wire_safe_witness : wire_safe (VString "2024-01-02").
Proof.
  apply (Filter_output_wire_safe (NewSanitizeFilter ["password"]) opaque_input
           {[ "when" := VString "2024-01-02"; "n" := VScalar SNil ]}
           [Key "when"] (VString "2024-01-02")).
  - vm_compute. reflexivity.
  - vm_compute. reflexivity.
Defined.

(** X3. The filter keeps the shape of what it traverses: a map reached
    without passing a redacted key, at depth at most [maxDepth], becomes a
    map with exactly the same keys, and a slice a slice of the same
    length. *)
Theorem Filter_keeps_shape (f : SanitizeFilter) (m : gmap string value) :
  exists out,
    Filter f (Some m) = Some out
    /\ dom out = dom m
    /\ (forall p mi,
          get p (VMap m) = Some (VMap mi) ->
          path_clear f p = true ->
          Z.of_nat (List.length p) <= maxDepth ->
          exists mo, get p (VMap out) = Some (VMap mo) /\ dom mo = dom mi)
    /\ (forall p li,
          get p (VMap m) = Some (VSlice li) ->
          path_clear f p = true ->
          Z.of_nat (List.length p) <= maxDepth ->
          exists lo, get p (VMap out) = Some (VSlice lo)
                     /\ List.length lo = List.length li).
Proof.
  assert (Hdom : forall d mi, dom (map_imap (entry f d) mi) = dom mi).
  { intros d mi. apply set_eq. intros k.
    rewrite !elem_of_dom, map_lookup_imap.
    destruct (mi !! k); cbn; unfold entry; split; intros [? ?]; eauto;
      discriminate. }
  exists (filterMap f m 0). split; [reflexivity|].
  split.
  { rewrite filterMap_shallow by (unfold maxDepth; lia). apply Hdom. }
  rewrite Filter_as_value. split.
  - intros p mi Hget Hclear Hlen.
    rewrite (get_filter_clear f p _ 0 _ Hget Hclear) by lia.
    rewrite filterValue_shallow by lia. eexists. split; [reflexivity|].
    apply Hdom.
  - intros p li Hget Hclear Hlen.
    rewrite (get_filter_clear f p _ 0 _ Hget Hclear) by lia.
    rewrite filterValue_shallow by lia. eexists. split; [reflexivity|].
    apply length_map.
Qed.

(** Data that the filter has nothing to do with, down to [n] levels:
    no key is redacted, no string is longer than [maxStringLen], and every
    value is a map, a slice, a string or a scalar. *)
Fixpoint plain (f : SanitizeFilter) (n : nat) (v : value) {struct n} : Prop :=
  match n with
  | O => False
  | S n' =>
      match v with
      | VMap m =>
          map_Forall (fun k x => shouldFilter f k = false /\ plain f n' x) m
      | VSlice l => Forall (plain f n') l
      | VString s => len s <= maxStringLen
      | VScalar _ => True
      | VOther _ => False
      end
  end.

Lemma filterValue_plain (f : SanitizeFilter) (n : nat) :
  forall v d,
    plain f n v -> d + Z.of_nat n <= maxDepth + 1 ->
    filterValue f v d = v.
Proof.
  induction n as [|n IH]; intros v d Hplain Hd; [destruct Hplain|].
  rewrite filterValue_shallow by lia.
  destruct v as [m | l | s | x | o]; cbn [plain] in Hplain.
  - f_equal. apply map_eq. intros k. rewrite map_lookup_imap.
    destruct (m !! k) as [x|] eqn:Hk; [|reflexivity]. cbn.
    destruct (Hplain k x Hk) as [Hkey Hx]. unfold entry. rewrite Hkey.
    f_equal. apply IH; [exact Hx | lia].
  - f_equal. induction Hplain as [|x l Hx Hl IHl]; [reflexivity|].
    cbn. f_equal; [apply IH; [exact Hx | lia] | exact IHl].
  - f_equal. now apply len_truncateString.
  - reflexivity.
  - destruct Hplain.
Qed.

Lemma plain_get (f : SanitizeFilter) (p : path) :
  forall n v x,
    plain f n v -> get p v = Some x -> exists k, plain f (S k) x.
Proof.
  induction p as [|st p IH]; intros n v x Hplain Hget.
  - cbn in Hget. injection Hget as <-.
    destruct n as [|n]; [destruct Hplain | now exists n].
  - destruct n as [|n]; [destruct Hplain|].
    destruct st as [k | i]; destruct v as [m | l | s | y | o];
      try discriminate; cbn [get plain] in *.
    + destruct (m !! k) as [y|] eqn:Hk; [|discriminate].
      destruct (Hplain k y Hk) as [_ Hy]. eapply IH; eauto.
    + destruct (l !! i) as [y|] eqn:Hi; [|discriminate].
      eapply IH; [|exact Hget].
      eapply Forall_lookup_1; eauto.
Qed.

(** [y] is what the filter leaves of a value [x] that it has nothing to
    do with: the same string or scalar, a map with the same keys, a slice
    of the same length. *)
Definition kept_as (x y : value) : Prop :=
  match x with
  | VString _ | VScalar _ => y = x
  | VMap mi => exists mo, y = VMap mo /\ dom mo = dom mi
  | VSlice li => exists lo, y = VSlice lo /\ List.length lo = List.length li
  | VOther _ => False
  end.

(** X4. On a map that has no redacted key, no string above
    [maxStringLen], no value of another type and at most eleven levels
    (its entries at depth 1 to 10 at the deepest), [Filter] changes
    nothing that can be read: the output has exactly the positions of the
    input, with the same string or scalar at each, the same keys in each
    map and the same length of each slice. A nil map or slice inside the
    input has no key and no item, and comes back as an empty one. *)
Theorem Filter_plain_unchanged (f : SanitizeFilter) (m : gmap string value) :
  plain f 11 (VMap m) ->
  exists out,
    Filter f (Some m) = Some out
    /\ (forall p x,
          get p (VMap m) = Some x ->
          exists y, get p (VMap out) = Some y /\ kept_as x y)
    /\ (forall p y,
          get p (VMap out) = Some y -> exists x, get p (VMap m) = Some x).
Proof.
  intros Hplain.
  assert (H : VMap (filterMap f m 0) = VMap m).
  { rewrite Filter_as_value. apply (filterValue_plain f 11); [exact Hplain|].
    unfold maxDepth. lia. }
  exists (filterMap f m 0). split; [reflexivity|]. rewrite H. split.
  - intros p x Hget. exists x. split; [exact Hget|].
    destruct (plain_get f p 11 (VMap m) x Hplain Hget) as [k Hk].
    destruct x as [mi | li | s | y | o]; cbn; eauto.
  - intros p y Hget. eauto.
Qed.

Definition plain_input : gmap string value :=
  {[ "id" := VScalar (SInt KInt 123);
     "tags" := VSlice [VString "a"; VString "b"] ]}.

Lemma Filter_plain_unchanged_witness :
  exists out,
    Filter (NewSanitizeFilter ["password"]) (Some plain_input) = Some out
    /\ get [Key "tags"; Idx 1] (VMap out) = Some (VString "b").
Proof.
  destruct (Filter_plain_unchanged (NewSanitizeFilter ["password"]) plain_input)
    as (out & Hout & Hkept & _).
  { cbn [plain]. unfold plain_input.
    apply map_Forall_insert_2; [split; [reflexivity | exact I]|].
    apply map_Forall_insert_2; [|apply map_Forall_empty].
    split; [reflexivity|].
    repeat constructor; vm_compute; discriminate. }
  exists out. split; [exact Hout|].
  destruct (Hkept [Key "tags"; Idx 1] (VString "b") eq_refl) as (y & Hy & Hk).
  cbn in Hk. now subst y.
Defined.

End SanitizeMoreFacts.

(** ** IgnoreFilter: lists of patterns *)

Module IgnoreMoreFacts.
Import GoStrings Reflect Ignore GoStringsFacts IgnoreFacts.
#[local] Arguments String.append !_ _ / : simpl nomatch.

Section AnyEngine.
Context {R : Type}.
Variable regexp_Compile : string -> option R.
Variable regexp_MatchString : R -> string -> bool.
Variable AssignableTo : rtype -> rtype -> bool.

Lemma matchPatterns_app (errType : rtype) (errName : string)
    (ps1 ps2 : list pattern) :
  matchPatterns regexp_Compile regexp_MatchString AssignableTo
    errType errName (ps1 ++ ps2)
  = matchPatterns regexp_Compile regexp_MatchString AssignableTo
      errType errName ps1
    || matchPatterns regexp_Compile regexp_MatchString AssignableTo
         errType errName ps2.
Proof.
  induction ps1 as [|pat ps1 IH]; [reflexivity|].
  cbn [app matchPatterns]. rewrite IH.
  destruct pat.
  - now destruct (matchesString _ _ errName p).
  - now destruct (bool_decide _ || _).
  - now destruct (bool_decide _).
  - reflexivity.
Qed.

(** X5. A filter over two lists of patterns put together ignores an
    error exactly when the filter over one of the lists does: a pattern
    never takes back what another pattern ignores, and the order of the
    patterns does not matter. *)
Theorem ShouldIgnore_app (ps1 ps2 : list pattern) (e : GoError) :
  ShouldIgnore regexp_Compile regexp_MatchString AssignableTo
    (NewIgnoreFilter (ps1 ++ ps2)) (Some e)
  = ShouldIgnore regexp_Compile regexp_MatchString AssignableTo
      (NewIgnoreFilter ps1) (Some e)
    || ShouldIgnore regexp_Compile regexp_MatchString AssignableTo
         (NewIgnoreFilter ps2) (Some e)
  /\ ShouldIgnore regexp_Compile regexp_MatchString AssignableTo
       (NewIgnoreFilter (ps1 ++ ps2)) (Some e)
     = ShouldIgnore regexp_Compile regexp_MatchString AssignableTo
         (NewIgnoreFilter (ps2 ++ ps1)) (Some e).
Proof.
  cbn [ShouldIgnore NewIgnoreFilter patterns].
  rewrite !matchPatterns_app. split; [reflexivity | apply orb_comm].
Qed.

(** X6. The empty string as a pattern ignores every error: every class
    name ends with it. *)
Theorem empty_pattern_ignores_all (f : IgnoreFilter) (err : option GoError) :
  In (PatString "") (patterns f) ->
  ShouldIgnore regexp_Compile regexp_MatchString AssignableTo f err = true.
Proof.
  intros Hin. destruct err as [e|]; [|reflexivity]. cbn [ShouldIgnore].
  apply matchPatterns_string with ""; [exact Hin|].
  unfold matchesString.
  assert (H : forall s, HasSuffix s "" = true).
  { intros s. unfold HasSuffix. cbn [String.length]. rewrite Nat.sub_0_r.
    assert (Hd : drop (String.length s) s = "").
    { induction s as [|c s IH]; [reflexivity | exact IH]. }
    now rewrite Hd. }
  rewrite H, orb_true_r. now destruct (String.eqb _ _).
Qed.

End AnyEngine.

Lemma empty_pattern_ignores_all_witness :
  ShouldIgnore GoRegexp.Compile GoRegexp.MatchString (fun _ _ => false)
    (NewIgnoreFilter [PatString "customError"; PatString ""])
    (Some TimeoutError) = true.
Proof.
  apply (empty_pattern_ignores_all GoRegexp.Compile GoRegexp.MatchString
           (fun _ _ => false)
           (NewIgnoreFilter [PatString "customError"; PatString ""])
           (Some TimeoutError)).
  right. left. reflexivity.
Defined.

End IgnoreMoreFacts.

(** ** NoticeBuilder: what a built notice holds *)

Module BuilderMoreFacts.
Import GoStrings Values Reflect Config GoTime NoticeM Sanitize Builder.
Import GoStringsFacts SanitizeFacts.
#[local] Arguments String.append !_ _ / : simpl nomatch.

(** X7. [Build] faults on a nil error, whatever its other arguments, with
    the nil dereference of the runtime; and on an error whose text is read,
    with "assignment to entry in nil map", when the context map is nil and
    the environment snapshot is to be added. *)
Theorem Build_faults_on_nil (b : NoticeBuilder) (proc : Process)
    (err : option GoError) (context user request : option (gmap string value))
    (fingerprint : string) (tags : list string) :
  (err = None ->
   Build b proc err context user request fingerprint tags
   = Panic "runtime error: invalid memory address or nil pointer dereference")
  /\ (err <> None -> SendEnvironment (bconfig b) = true -> context = None ->
      Build b proc err context user request fingerprint tags
      = Panic "assignment to entry in nil map").
Proof.
  unfold Build. split.
  - intros ->. reflexivity.
  - intros Herr Henv ->. destruct err as [e|]; [|congruence].
    cbn [extractMessage mbind outcome_bind]. rewrite Henv. reflexivity.
Qed.

Lemma Build_faults_on_nil_witness :
  Build (NewNoticeBuilder ClientFacts.test_config) BuilderFacts.a_process
    None (Some ∅) None None "" []
  = Panic "runtime error: invalid memory address or nil pointer dereference"
  /\ Build (NewNoticeBuilder BuilderFacts.env_config)
       BuilderFacts.a_process (Some BuilderFacts.test_error) None None None
       "" []
     = Panic "assignment to entry in nil map".
Proof.
  split.
  - apply (Build_faults_on_nil (NewNoticeBuilder ClientFacts.test_config)
             BuilderFacts.a_process None (Some ∅) None None "" []).
    reflexivity.
  - apply (Build_faults_on_nil
             (NewNoticeBuilder BuilderFacts.env_config)
             BuilderFacts.a_process (Some BuilderFacts.test_error) None None
             None "" []);
      [discriminate | reflexivity | reflexivity].
Defined.

Lemma backtrace_frames_filter (b : NoticeBuilder) (frames : list Frame) :
  backtrace_frames b frames
  = map (frame_line b)
      (List.filter (fun fr => negb (Contains (File fr) "checkend-go")) frames).
Proof.
  induction frames as [|fr frames IH]; [reflexivity|].
  cbn. destruct (Contains (File fr) "checkend-go"); cbn; now rewrite IH.
Qed.

(** X8. The backtrace has at most 100 lines. When the call stack is not
    empty it is made of the lines of the first 100 frames, in order, less
    the frames whose file path contains "checkend-go": the cap is applied
    before the frames of the package are dropped. *)
Theorem extractBacktrace_bounded (b : NoticeBuilder) (proc : Process) :
  (List.length (extractBacktrace b proc) <= maxBacktraceLines)%nat
  /\ (callers proc <> [] ->
      extractBacktrace b proc
      = map (frame_line b)
          (List.filter (fun fr => negb (Contains (File fr) "checkend-go"))
             (List.firstn maxBacktraceLines (callers proc)))).
Proof.
  unfold extractBacktrace.
  destruct (List.firstn maxBacktraceLines (callers proc)) as [|fr frames] eqn:Hf.
  - split; [cbn; unfold maxBacktraceLines; lia|].
    intros Hne. destruct (callers proc); [contradiction | discriminate].
  - rewrite backtrace_frames_filter. split; [|reflexivity].
    rewrite length_map.
    pose proof (List.filter_length_le
                  (fun fr => negb (Contains (File fr) "checkend-go"))
                  (fr :: frames)) as Hle.
    pose proof (List.firstn_le_length maxBacktraceLines (callers proc)) as Hn.
    rewrite Hf in Hn. lia.
Qed.

(** X9. The message of a built notice is the text of the error when that
    has at most 10000 bytes, and its first 10000 bytes followed by "..."
    otherwise: never more than 10003 bytes. *)
Theorem Build_message_bounded (b : NoticeBuilder) (proc : Process)
    (e : GoError) (context user request : option (gmap string value))
    (fingerprint : string) (tags : list string) (n : Notice) :
  Build b proc (Some e) context user request fingerprint tags = Ok n ->
  len (Message n) <= maxMessageLength + 3
  /\ (len (err_Error e) <= maxMessageLength -> Message n = err_Error e)
  /\ (maxMessageLength < len (err_Error e) ->
      Message n = take (Z.to_nat maxMessageLength) (err_Error e) +:+ "..."
      /\ len (Message n) = maxMessageLength + 3).
Proof.
  unfold Build. cbn [extractMessage mbind outcome_bind].
  remember (Z.to_nat maxMessageLength) as N eqn:HN.
  assert (HN' : Z.of_nat N = maxMessageLength) by (subst N; reflexivity).
  destruct (if SendEnvironment (bconfig b) then _ else _) as [c|msg];
    cbn [mbind outcome_bind]; [|discriminate].
  intros H.
  assert (Hm : Message n
               = if maxMessageLength <? len (err_Error e)
                 then take N (err_Error e) +:+ "..."
                 else err_Error e)
    by (injection H as <-; reflexivity).
  clear H. rewrite Hm. unfold len.
  destruct (maxMessageLength <? Z.of_nat (String.length (err_Error e))) eqn:Hlong.
  - apply Z.ltb_lt in Hlong.
    assert (Hlen : Z.of_nat (String.length (take N (err_Error e) +:+ "..."))
                   = maxMessageLength + 3).
    { rewrite length_app_str, length_take by lia.
      change (String.length "...") with 3%nat. lia. }
    split; [lia|]. split; [lia | auto].
  - apply Z.ltb_ge in Hlong. split; [lia|]. split; [reflexivity | lia].
Qed.

(** An error whose text has 10001 bytes. *)
Definition long_error : GoError :=
  {| err_type := err_type BuilderFacts.test_error;
     err_Error := string_of_list_ascii (repeat "x"%char (Z.to_nat 10001)) |}.

Definition long_notice : Notice :=
  match Build (NewNoticeBuilder ClientFacts.test_config)
          BuilderFacts.a_process (Some long_error) (Some ∅) None None "" [] with
  | Ok n => n
  | Panic _ => WorkerFacts.a_notice ""
  end.

Lemma Build_message_bounded_witness :
  Message long_notice
  = string_of_list_ascii (repeat "x"%char (Z.to_nat 10000)) +:+ "..."
  /\ len (Message long_notice) = 10003.
Proof.
  assert (Hbuild :
            Build (NewNoticeBuilder ClientFacts.test_config)
              BuilderFacts.a_process (Some long_error) (Some ∅) None None
              "" []
            = Ok long_notice).
  { vm_compute. reflexivity. }
  destruct (Build_message_bounded _ _ _ _ _ _ _ _ _ Hbuild) as (_ & _ & Hlong).
  destruct Hlong as [Hmsg Hlen]; [vm_compute; reflexivity|].
  split; [|exact Hlen]. rewrite Hmsg. vm_compute. reflexivity.
Defined.

End BuilderMoreFacts.

(** ** NoticeBuilder: environment snapshot, file paths and data flags *)

Module BuilderEnvFacts.
Import GoStrings Values Reflect Config GoTime NoticeM Sanitize Builder.
Import GoStringsFacts ValuesFacts SanitizeFacts.
#[local] Arguments String.append !_ _ / : simpl nomatch.

(** One turn of the loop of [getEnvironmentVars]. *)
Definition env_step (env : gmap string string) (e : string)
    : gmap string string :=
  match SplitN_eq2 e with
  | (key, Some val) =>
      if isSensitiveEnvVar key then env else <[key := val]> env
  | (_, None) => env
  end.

Lemma getEnvironmentVars_foldl (proc : Process) :
  getEnvironmentVars proc = foldl env_step ∅ (os_Environ proc).
Proof. reflexivity. Qed.

Lemma env_foldl_sound (entries : list string) :
  forall env k v,
    foldl env_step env entries !! k = Some v ->
    env !! k = Some v
    \/ (isSensitiveEnvVar k = false
        /\ exists e, In e entries /\ SplitN_eq2 e = (k, Some v)).
Proof.
  induction entries as [|e es IH]; intros env k v Hk; [now left|].
  cbn [foldl] in Hk. apply IH in Hk as [Hk | (Hs & e' & Hin & He')].
  - unfold env_step in Hk.
    destruct (SplitN_eq2 e) as [key [val|]] eqn:He; [|now left].
    destruct (isSensitiveEnvVar key) eqn:Hsens; [now left|].
    destruct (decide (key = k)) as [-> | Hne].
    + rewrite lookup_insert_eq in Hk. injection Hk as ->.
      right. split; [exact Hsens|]. exists e. split; [now left | exact He].
    + rewrite lookup_insert_ne in Hk by exact Hne. now left.
  - right. split; [exact Hs|]. exists e'. split; [now right | exact He'].
Qed.

Lemma env_foldl_keeps (entries : list string) :
  forall env k, is_Some (env !! k) -> is_Some (foldl env_step env entries !! k).
Proof.
  induction entries as [|e es IH]; intros env k Hk; [exact Hk|].
  cbn [foldl]. apply IH. unfold env_step.
  destruct (SplitN_eq2 e) as [key [val|]]; [|exact Hk].
  destruct (isSensitiveEnvVar key); [exact Hk|].
  destruct (decide (key = k)) as [-> | Hne].
  - rewrite lookup_insert_eq. eauto.
  - now rewrite lookup_insert_ne.
Qed.

Lemma env_foldl_complete (entries : list string) :
  forall env e k v,
    In e entries -> SplitN_eq2 e = (k, Some v) ->
    isSensitiveEnvVar k = false ->
    is_Some (foldl env_step env entries !! k).
Proof.
  induction entries as [|e0 es IH]; intros env e k v Hin He Hs; [destruct Hin|].
  cbn [foldl]. destruct Hin as [-> | Hin].
  - apply env_foldl_keeps. unfold env_step. rewrite He, Hs.
    rewrite lookup_insert_eq. eauto.
  - eapply IH; eauto.
Qed.

(** [isSensitiveEnvVar] in terms of its seven words. *)
Lemma isSensitiveEnvVar_words (k : string) :
  isSensitiveEnvVar k = false
  <-> forall w,
        In w ["SECRET"; "PASSWORD"; "KEY"; "TOKEN"; "CREDENTIAL"; "AUTH";
              "PRIVATE"] ->
        Contains (ToUpper k) w = false.
Proof.
  unfold isSensitiveEnvVar. cbv zeta. split.
  - intros Hnone w Hw.
    destruct (Contains (ToUpper k) w) eqn:Hc; [|reflexivity].
    rewrite <- Hnone. symmetry. apply existsb_exists. eauto.
  - intros Hall. apply not_true_is_false. intros Hsome.
    apply existsb_exists in Hsome as (w & Hw & Hc).
    rewrite (Hall w Hw) in Hc. discriminate.
Qed.

(** X10. Each entry of the environment snapshot is the name and the text
    after the first '=' of an entry of the environment, and its name, when
    of ASCII bytes, has in upper case none of SECRET, PASSWORD, KEY, TOKEN,
    CREDENTIAL, AUTH and PRIVATE within it; and every entry of the
    environment that has an '=' and such a name has its name in the
    snapshot. *)
Theorem getEnvironmentVars_sound (proc : Process) :
  (forall k v,
      getEnvironmentVars proc !! k = Some v ->
      (exists e, In e (os_Environ proc) /\ SplitN_eq2 e = (k, Some v))
      /\ (SanitizeMoreFacts.is_ascii k = true ->
          forall w,
            In w ["SECRET"; "PASSWORD"; "KEY"; "TOKEN"; "CREDENTIAL"; "AUTH";
                  "PRIVATE"] ->
            Contains (ToUpper k) w = false))
  /\ (forall e k v,
        In e (os_Environ proc) -> SplitN_eq2 e = (k, Some v) ->
        SanitizeMoreFacts.is_ascii k = true ->
        (forall w,
            In w ["SECRET"; "PASSWORD"; "KEY"; "TOKEN"; "CREDENTIAL"; "AUTH";
                  "PRIVATE"] ->
            Contains (ToUpper k) w = false) ->
        is_Some (getEnvironmentVars proc !! k)).
Proof.
  rewrite getEnvironmentVars_foldl. split.
  - intros k v Hk. apply env_foldl_sound in Hk as [Hk | [Hs He]].
    + rewrite lookup_empty in Hk. discriminate.
    + split; [exact He|]. intros _. now apply isSensitiveEnvVar_words.
  - intros e k v Hin He _ Hw. eapply env_foldl_complete; eauto.
    now apply isSensitiveEnvVar_words.
Qed.

Lemma getEnvironmentVars_sound_witness :
  (forall w,
      In w ["SECRET"; "PASSWORD"; "KEY"; "TOKEN"; "CREDENTIAL"; "AUTH";
            "PRIVATE"] ->
      Contains (ToUpper "HOME") w = false)
  /\ is_Some (getEnvironmentVars BuilderFacts.a_process !! "HOME").
Proof.
  destruct (getEnvironmentVars_sound BuilderFacts.a_process) as [Hs Hc].
  split.
  - destruct (Hs "HOME" "/root") as [_ Hw]; [vm_compute; reflexivity|].
    apply Hw. reflexivity.
  - apply (Hc "HOME=/root" "HOME" "/root");
      [left; reflexivity | reflexivity | reflexivity |].
    intros w Hw. cbn [In] in Hw.
    decompose [or] Hw; subst; try reflexivity; contradiction.
Defined.

(** X11. With a root path configured, a file path that starts with it is
    returned without it and without one '/' that follows, wherever the root
    path ends within the file path; every other path, and every path when
    no root path is configured, is returned as it is. *)
Theorem cleanFilePath_strips (b : NoticeBuilder) (path rest : string) :
  (RootPath (bconfig b) <> "" ->
   cleanFilePath b (RootPath (bconfig b) +:+ rest) = TrimPrefix rest "/")
  /\ (RootPath (bconfig b) = "" \/ HasPrefix path (RootPath (bconfig b)) = false ->
      cleanFilePath b path = path).
Proof.
  unfold cleanFilePath. split.
  - intros Hroot. apply String.eqb_neq in Hroot. rewrite Hroot.
    rewrite HasPrefix_app. cbn [negb andb].
    unfold TrimPrefix at 2. now rewrite HasPrefix_app, drop_app_length.
  - intros [-> | Hpre]; [reflexivity|].
    rewrite Hpre. now rewrite andb_false_r.
Qed.

(** What a built notice carries: the user map only when user data is to
    be sent and the given map has an entry, and then filtered; the same for
    the request map; the filtered context, to which the environment
    snapshot is added under "env" when it is to be sent, in place of an
    entry of that name; the environment name of the configuration; and the
    time in UTC. *)
Lemma Build_contents (b : NoticeBuilder) (proc : Process)
    (e : GoError) (context user request : option (gmap string value))
    (fingerprint : string) (tags : list string) (n : Notice) :
  Build b proc (Some e) context user request fingerprint tags = Ok n ->
  (User n = None \/ (SendUserData (bconfig b) = true /\ 0 < map_len user
                     /\ User n = Filter (sanitizeFilter b) user))
  /\ (SendUserData (bconfig b) = true -> 0 < map_len user ->
      User n = Filter (sanitizeFilter b) user)
  /\ (Request n = None \/ (SendRequestData (bconfig b) = true
                           /\ 0 < map_len request
                           /\ Request n = Filter (sanitizeFilter b) request))
  /\ (SendRequestData (bconfig b) = true -> 0 < map_len request ->
      Request n = Filter (sanitizeFilter b) request)
  /\ (SendEnvironment (bconfig b) = false ->
      Context n = Filter (sanitizeFilter b) context)
  /\ (SendEnvironment (bconfig b) = true ->
      exists m, Filter (sanitizeFilter b) context = Some m
                /\ Context n
                   = Some (<["env" := VOther (OStringMap (getEnvironmentVars proc))]> m))
  /\ NEnvironment n = Environment (bconfig b)
  /\ zone (OccurredAt n) = 0
  /\ Fingerprint n = fingerprint /\ Tags n = tags.
Proof.
  unfold Build. cbn [extractMessage mbind outcome_bind].
  generalize (if maxMessageLength <? len (err_Error e)
              then take (Z.to_nat maxMessageLength) (err_Error e) +:+ "..."
              else err_Error e) as msg.
  intros msg.
  destruct (SendEnvironment (bconfig b)) eqn:Henv.
  - destruct (Filter (sanitizeFilter b) context) as [m|] eqn:Hctx;
      cbn [map_assign mbind outcome_bind]; [|discriminate].
    intros H. injection H as <-. cbn.
    repeat split; try discriminate; eauto.
    + destruct (SendUserData (bconfig b)); [|now left].
      destruct (0 <? map_len user) eqn:Hu; [|now left].
      right. apply Z.ltb_lt in Hu. auto.
    + intros -> Hu. apply Z.ltb_lt in Hu. now rewrite Hu.
    + destruct (SendRequestData (bconfig b)); [|now left].
      destruct (0 <? map_len request) eqn:Hu; [|now left].
      right. apply Z.ltb_lt in Hu. auto.
    + intros -> Hu. apply Z.ltb_lt in Hu. now rewrite Hu.
  - cbn [mbind outcome_bind]. intros H. injection H as <-. cbn.
    repeat split; try discriminate; eauto.
    + destruct (SendUserData (bconfig b)); [|now left].
      destruct (0 <? map_len user) eqn:Hu; [|now left].
      right. apply Z.ltb_lt in Hu. auto.
    + intros -> Hu. apply Z.ltb_lt in Hu. now rewrite Hu.
    + destruct (SendRequestData (bconfig b)); [|now left].
      destruct (0 <? map_len request) eqn:Hu; [|now left].
      right. apply Z.ltb_lt in Hu. auto.
    + intros -> Hu. apply Z.ltb_lt in Hu. now rewrite Hu.
Qed.

Lemma get_insert_other (q : path) (a : string) (o : other)
    (m : gmap string value) (y : value) :
  get q (VMap (<[a := VOther o]> m)) = Some y ->
  q = [] \/ (q = [Key a] /\ y = VOther o) \/ get q (VMap m) = Some y.
Proof.
  destruct q as [|[k1 | i] q]; [now left | | discriminate].
  cbn [get]. destruct (decide (a = k1)) as [<- | Hne].
  - rewrite lookup_insert_eq.
    destruct q as [|[k2 | i] q]; [|discriminate | discriminate].
    intros [= <-]. right. left. auto.
  - rewrite lookup_insert_ne by exact Hne. intros H. right. right. exact H.
Qed.

(** What holds of the value [y] at the position [q] of a map of a built
    notice: it is one the filter may leave, and under a redacted key it is
    the marker. *)
Definition redacted_at (f : SanitizeFilter) (q : path) (y : value) : Prop :=
  SanitizeMoreFacts.wire_safe y
  /\ (forall p k, q = p ++ [Key k] -> shouldFilter f k = true ->
      y = VString FilteredValue).

Lemma Filter_redacted_at (f : SanitizeFilter)
    (data : option (gmap string value)) (out : gmap string value)
    (q : path) (y : value) :
  Filter f data = Some out ->
  get q (VMap out) = Some y ->
  redacted_at f q y.
Proof.
  destruct data as [m|]; [|discriminate]. unfold Filter. intros [= <-].
  rewrite Filter_as_value. intros Hget. split.
  - eapply SanitizeMoreFacts.filterValue_wire_safe; eauto.
  - intros p k -> Hk. eapply get_filter_marker; eauto.
Qed.

(** X12. In a built notice the user and request maps hold, at every
    position, a value the filter may leave (a string of at most 10003
    bytes, a scalar, a map or a slice), and the marker under every key the
    filter redacts, at any depth. The same holds of the context map but
    for its entry "env" when the environment snapshot is to be sent: the
    snapshot is put there after the filter has run, so it is there even
    when "env" is a key to redact, and its variables are not matched
    against the filter keys. *)
Theorem Build_data_redacted (b : NoticeBuilder) (proc : Process)
    (e : GoError) (context user request : option (gmap string value))
    (fingerprint : string) (tags : list string) (n : Notice) :
  Build b proc (Some e) context user request fingerprint tags = Ok n ->
  (forall out q y,
      User n = Some out \/ Request n = Some out ->
      get q (VMap out) = Some y ->
      redacted_at (sanitizeFilter b) q y)
  /\ (forall out q y,
        Context n = Some out ->
        get q (VMap out) = Some y ->
        q <> [] ->
        redacted_at (sanitizeFilter b) q y
        \/ (SendEnvironment (bconfig b) = true /\ q = [Key "env"]))
  /\ (SendEnvironment (bconfig b) = true ->
      exists out,
        Context n = Some out
        /\ out !! "env" = Some (VOther (OStringMap (getEnvironmentVars proc)))).
Proof.
  intros Hbuild.
  destruct (Build_contents b proc e context user request fingerprint tags n
              Hbuild)
    as (Hu & _ & Hr & _ & Hc0 & Hc1 & _).
  split; [|split].
  - intros out q y [Hout | Hout] Hget.
    + destruct Hu as [Hu | (_ & _ & Hu)]; [congruence|].
      rewrite Hu in Hout. eapply Filter_redacted_at; eauto.
    + destruct Hr as [Hr | (_ & _ & Hr)]; [congruence|].
      rewrite Hr in Hout. eapply Filter_redacted_at; eauto.
  - intros out q y Hout Hget Hq.
    destruct (SendEnvironment (bconfig b)) eqn:Henv.
    + destruct (Hc1 eq_refl) as (m & Hm & Hctx).
      rewrite Hctx in Hout. injection Hout as <-.
      apply get_insert_other in Hget as [Hnil | [[-> _] | Hget]];
        [contradiction | now right | left].
      eapply Filter_redacted_at; eauto.
    + left. rewrite (Hc0 eq_refl) in Hout. eapply Filter_redacted_at; eauto.
  - intros Henv. destruct (Hc1 Henv) as (m & _ & Hctx).
    eexists. split; [exact Hctx|]. apply lookup_insert_eq.
Qed.

Definition secret_user : gmap string value :=
  {[ "id" := VScalar (SInt KInt 7);
     "profile" := VMap {[ "Password" := VString "hunter2" ]} ]}.

Lemma Build_data_redacted_witness :
  exists n,
    Build (NewNoticeBuilder BuilderFacts.env_config) BuilderFacts.a_process
      (Some BuilderFacts.test_error) (Some ∅) (Some secret_user) None "" []
    = Ok n
    /\ (forall out q y,
          User n = Some out \/ Request n = Some out ->
          get q (VMap out) = Some y ->
          redacted_at (sanitizeFilter (NewNoticeBuilder BuilderFacts.env_config))
            q y)
    /\ (exists out,
          Context n = Some out
          /\ out !! "env"
             = Some (VOther (OStringMap
                               (getEnvironmentVars BuilderFacts.a_process)))).
Proof.
  eexists. split; [vm_compute; reflexivity|].
  edestruct (Build_data_redacted (NewNoticeBuilder BuilderFacts.env_config)
              BuilderFacts.a_process BuilderFacts.test_error (Some ∅)
              (Some secret_user) None "" []) as (Hdata & _ & Henv).
  { vm_compute. reflexivity. }
  split; [exact Hdata | exact (Henv eq_refl)].
Defined.

(** The snapshot of the environment is in the context of the notice even
    when "env" is a key that the filter redacts. *)
Example env_escapes_filter :
  exists n out,
    Build (NewNoticeBuilder
             {| APIKey := "k"; Endpoint := ""; Environment := "production";
                Enabled := true; AsyncSend := true; MaxQueueSize := 1;
                ShutdownTimeout := 1; FilterKeys := ["env"]; Debug := false;
                AppName := ""; Revision := ""; RootPath := "";
                SendRequestData := true; SendSessionData := true;
                SendEnvironment := true; SendUserData := true |})
      BuilderFacts.a_process (Some BuilderFacts.test_error)
      (Some {[ "env" := VString "mine"; "Env_Id" := VString "e-1" ]})
      None None "" []
    = Ok n
    /\ Context n = Some out
    /\ out !! "Env_Id" = Some (VString FilteredValue)
    /\ out !! "env" = Some (VOther (OStringMap {[ "HOME" := "/root" ]})).
Proof.
  eexists. eexists. split; [vm_compute; reflexivity|].
  split; [reflexivity|]. split; vm_compute; reflexivity.
Qed.

End BuilderEnvFacts.

(** ** Client.Send: the log and the network *)

Module ClientMoreFacts.
Import GoStrings Values Config GoTime NoticeM GoJSON Client ClientFacts.

(** Without an API key [Send] makes no call of the library: whatever the
    network would answer, it returns nil and logs the one line that the key
    is not configured. *)
Lemma Send_without_key (c : Client.Client) (net : Net) (notice : Notice) :
  APIKey (config c) = "" ->
  Send c net notice
  = (None, [ {| level := "error";
                message := "Cannot send notice: api_key not configured" |} ]).
Proof.
  intros Hkey. unfold Send. rewrite Hkey. cbn [String.eqb].
  now rewrite log_error.
Qed.

Definition keyless_config : Configuration :=
  {| APIKey := ""; Endpoint := "https://app.checkend.io";
     Environment := "production"; Enabled := true; AsyncSend := true;
     MaxQueueSize := 1000; ShutdownTimeout := 5000000000;
     FilterKeys := []; Debug := false;
     AppName := ""; Revision := ""; RootPath := "";
     SendRequestData := true; SendSessionData := true;
     SendEnvironment := false; SendUserData := true |}.

(** X13. [Send] writes nothing to the log exactly when it returns a
    response and debug mode is off; with debug mode on a response is logged
    in one line of level debug. *)
Theorem Send_silent_iff (c : Client.Client) (net : Net) (notice : Notice) :
  ((Send c net notice).2 = [] <->
   (exists r, (Send c net notice).1 = Some r) /\ Debug (config c) = false)
  /\ (forall r, (Send c net notice).1 = Some r -> Debug (config c) = true ->
        (Send c net notice).2
        = [ {| level := "debug";
               message := "Notice sent successfully: " +:+ fmt_APIResponse r |} ]).
Proof.
  assert (Herr : forall msg, log c "error" msg <> []).
  { intros msg. rewrite log_error. discriminate. }
  assert (Hhttp : forall st body, handleHTTPError c st body <> []).
  { intros st body. destruct (handleHTTPError_line c st body) as (l & m & -> & _).
    discriminate. }
  assert (Hno : forall (lines : list log_line),
             lines <> [] ->
             (lines = [] <->
              (exists r : APIResponse, @None APIResponse = Some r)
              /\ Debug (config c) = false)).
  { intros lines Hl. split; [contradiction | intros [[r Hr] _]; discriminate]. }
  unfold Send.
  destruct (String.eqb (APIKey (config c)) "");
    [split; [apply Hno, Herr | discriminate]|].
  destruct (json_Marshal net (ToPayload notice)) as [data | err];
    [|split; [apply Hno, Herr | discriminate]].
  destruct (http_NewRequest net (endpoint c)) as [err|];
    [split; [apply Hno, Herr | discriminate]|].
  destruct (httpClient_Do net (post_request c data)) as [err | st err | st body];
    [split; [apply Hno, Herr | discriminate]
    |split; [apply Hno, Herr | discriminate]|].
  destruct (negb (st =? StatusCreated));
    [split; [apply Hno, Hhttp | discriminate]|].
  destruct (json_Unmarshal body) as [resp|];
    [|split; [apply Hno, Herr | discriminate]].
  cbn [fst snd]. unfold log. cbn [String.eqb Ascii.eqb Bool.eqb andb].
  destruct (Debug (config c)); cbn [negb andb]; split.
  - split; [discriminate | intros [_ H]; discriminate].
  - intros r [= <-] _. reflexivity.
  - split; [intros _; split; [eauto | reflexivity] | reflexivity].
  - intros r _ H. discriminate.
Qed.

End ClientMoreFacts.

(** ** Worker: retry in general, flush, drain and restart *)

Module WorkerRunFacts.
Import Values Config NoticeM Client WorkerM Builder WorkerRun WorkerFacts.

Lemma sent_app (a b : list event) : sent (a ++ b) = sent a ++ sent b.
Proof.
  induction a as [|[n r | l | d] a IH]; cbn; [reflexivity | | exact IH | exact IH].
  now rewrite IH.
Qed.

Lemma sleeps_app (a b : list event) : sleeps (a ++ b) = (sleeps a + sleeps b)%nat.
Proof.
  induction a as [|[n r | l | d] a IH]; cbn; [reflexivity | exact IH | exact IH |].
  now rewrite IH.
Qed.

Lemma sent_logs (lines : list log_line) : sent (map EvLog lines) = [].
Proof. induction lines as [|l ls IH]; [reflexivity | exact IH]. Qed.

Lemma sleeps_logs (lines : list log_line) : sleeps (map EvLog lines) = O.
Proof. induction lines as [|l ls IH]; [reflexivity | exact IH]. Qed.

(** What one call of [Send] by the worker adds to the world. *)
Lemma client_Send_adds (w : Worker) (notice : Notice) (st : World) :
  exists new,
    events (client_Send w notice st).2 = events st ++ new
    /\ sent new = [notice] /\ sleeps new = O
    /\ sends (client_Send w notice st).2 = S (sends st)
    /\ nets (client_Send w notice st).2 = nets st.
Proof.
  destruct (client_Send_spec w notice st) as [lines ->]. cbn.
  eexists. split; [reflexivity|]. cbn. now rewrite sent_logs, sleeps_logs.
Qed.

(** The loop of [sendWithRetry] with [n] turns left. *)
Lemma sendWithRetry_from_adds (w : Worker) (notice : Notice) (maxRetries : Z)
    (n : nat) :
  forall attempt st,
    Z.to_nat (maxRetries - attempt) = n ->
    exists k new,
      events (sendWithRetry_from w notice maxRetries attempt st)
      = events st ++ new
      /\ sent new = replicate k notice
      /\ sleeps new = Nat.pred k
      /\ (k <= n)%nat /\ (n <> O -> k <> O)
      /\ sends (sendWithRetry_from w notice maxRetries attempt st)
         = (sends st + k)%nat
      /\ nets (sendWithRetry_from w notice maxRetries attempt st) = nets st.
Proof.
  induction n as [|n IH]; intros attempt st Hn;
    rewrite sendWithRetry_from_step;
    destruct (Z_lt_dec attempt maxRetries) as [Hlt | Hge]; try lia.
  { exists O, []. rewrite app_nil_r, Nat.add_0_r. repeat split; auto. }
  destruct (client_Send_adds w notice st) as (new1 & Hev & Hsent & Hsl & Hs & Hnets).
  destruct (client_Send w notice st) as [[r|] st1]; cbn [snd] in *.
  { exists 1%nat, new1. rewrite Hs. repeat split; auto; lia. }
  destruct (Z.ltb_spec attempt (maxRetries - 1)) as [Hmore | Hlast].
  - destruct (IH (attempt + 1) (time_Sleep (delay attempt) st1) ltac:(lia))
      as (k & new & Hev' & Hsent' & Hsl' & Hk & Hk0 & Hs' & Hnets').
    exists (S k), (new1 ++ EvSleep (delay attempt) :: new).
    rewrite Hev', Hs', Hnets'. cbn [time_Sleep events sends nets].
    rewrite Hev, Hs, Hnets, !sent_app, !sleeps_app, Hsent, Hsl.
    cbn. rewrite Hsent', Hsl', <- !app_assoc. cbn.
    assert (k <> O) by (apply Hk0; lia).
    repeat split; auto; lia.
  - destruct (IH (attempt + 1) st1 ltac:(lia))
      as (k & new & Hev' & Hsent' & Hsl' & Hk & Hk0 & Hs' & Hnets').
    assert (k = O) by lia. subst k.
    exists 1%nat, (new1 ++ new).
    rewrite Hev', Hs', Hnets', Hev, Hs, Hnets, !sent_app, !sleeps_app.
    rewrite Hsent, Hsl, Hsent', Hsl', <- !app_assoc.
    repeat split; auto; lia.
Qed.

Lemma answer_shift (w : Worker) (notice : Notice) (st st' : World) (i : nat) :
  nets st' = nets st -> sends st' = S (sends st) ->
  answer w notice st' i = answer w notice st (S i).
Proof.
  intros Hn Hs. unfold answer. rewrite Hn, Hs. do 2 f_equal. f_equal. lia.
Qed.

(** The calls of [k] attempts that returned nil and were followed by a
    sleep, the first of them being attempt number [first]. *)
Definition failed_attempts (notice : Notice) (first : Z) (k : nat)
    : list event :=
  flat_map (fun i => [EvSend notice None;
                      EvSleep (delay (first + Z.of_nat i))]) (seq 0 k).

Lemma failed_attempts_S (notice : Notice) (first : Z) (k : nat) :
  failed_attempts notice first (S k)
  = EvSend notice None :: EvSleep (delay first)
    :: failed_attempts notice (first + 1) k.
Proof.
  unfold failed_attempts. cbn [seq flat_map app].
  rewrite Z.add_0_r. do 2 f_equal.
  rewrite <- seq_shift, flat_map_concat_map, map_map, <- flat_map_concat_map.
  apply flat_map_ext. intros i.
  now replace (first + 1 + Z.of_nat i) with (first + Z.of_nat (S i)) by lia.
Qed.

(** The loop of [sendWithRetry] with [S n] turns left. *)
Lemma sendWithRetry_from_trace (w : Worker) (notice : Notice)
    (maxRetries : Z) (n : nat) :
  forall attempt st,
    Z.to_nat (maxRetries - attempt) = S n ->
    exists k new,
      events (sendWithRetry_from w notice maxRetries attempt st)
      = events st ++ new
      /\ calls new
         = failed_attempts notice attempt k
           ++ [EvSend notice (answer w notice st k)]
      /\ attempt + Z.of_nat k < maxRetries
      /\ (forall i, (i < k)%nat -> answer w notice st i = None)
      /\ (answer w notice st k = None -> attempt + Z.of_nat k = maxRetries - 1)
      /\ sends (sendWithRetry_from w notice maxRetries attempt st)
         = (sends st + S k)%nat
      /\ nets (sendWithRetry_from w notice maxRetries attempt st) = nets st.
Proof.
  induction n as [|n IH]; intros attempt st Hn;
    rewrite sendWithRetry_from_step;
    (destruct (Z_lt_dec attempt maxRetries) as [Hlt | Hge]; [|lia]);
    destruct (client_Send_spec w notice st) as [lines ->];
    destruct (answer w notice st 0) as [r|] eqn:Hans.
  1,3: exists O, (EvSend notice (Some r) :: map EvLog lines);
       cbn [events sends nets]; rewrite Hans;
       (split; [reflexivity|]); (split; [now calls_norm|]);
       (split; [lia|]); (split; [intros i Hi; lia|]);
       (split; [discriminate|]); split; [lia | reflexivity].
  - replace (attempt <? maxRetries - 1) with false
      by (symmetry; apply Z.ltb_ge; lia).
    rewrite sendWithRetry_from_step.
    destruct (Z_lt_dec (attempt + 1) maxRetries); [lia|].
    exists O, (EvSend notice None :: map EvLog lines).
    cbn [events sends nets]. rewrite Hans.
    split; [reflexivity|]. split; [now calls_norm|].
    split; [lia|]. split; [intros i Hi; lia|].
    split; [lia|]. split; [lia | reflexivity].
  - replace (attempt <? maxRetries - 1) with true
      by (symmetry; apply Z.ltb_lt; lia).
    match goal with
    | |- context [sendWithRetry_from w notice maxRetries (attempt + 1) ?s] =>
        set (st1 := s)
    end.
    destruct (IH (attempt + 1) st1 ltac:(lia))
      as (k & new & Hev & Hcalls & Hk & Hnil & Hlast & Hs & Hnets).
    assert (Hshift : forall i, answer w notice st1 i = answer w notice st (S i))
      by (intros i; apply answer_shift; reflexivity).
    exists (S k),
      (EvSend notice None :: map EvLog lines ++ EvSleep (delay attempt) :: new).
    rewrite Hev, Hs, Hnets. subst st1. cbn [time_Sleep events sends nets].
    rewrite Hshift in Hcalls, Hlast.
    split; [now rewrite <- !app_assoc|].
    split.
    { calls_norm. rewrite Hcalls, failed_attempts_S. reflexivity. }
    split; [lia|]. split.
    { intros [|i] Hi; [exact Hans|]. rewrite <- Hshift. apply Hnil. lia. }
    split; [intros H; specialize (Hlast H); lia|].
    split; [lia | reflexivity].
Qed.

(** X14. With a number of retries of zero or less [sendWithRetry] does
    nothing. With a positive one its calls are, in this order: for each of
    the first [k] attempts, which all returned nil, a [Send] of the notice
    and a sleep of the back-off of that attempt; then one last [Send],
    after which it does not sleep. The attempts are at most the number of
    retries, and the last one returned nil only if it was the last one
    allowed. *)
Theorem sendWithRetry_attempts (w : Worker) (notice : Notice)
    (maxRetries : Z) (st : World) :
  (maxRetries <= 0 -> sendWithRetry w notice maxRetries st = st)
  /\ (0 < maxRetries ->
      exists k new,
        events (sendWithRetry w notice maxRetries st) = events st ++ new
        /\ calls new
           = flat_map (fun i => [EvSend notice None;
                                 EvSleep (delay (Z.of_nat i))]) (seq 0 k)
             ++ [EvSend notice (answer w notice st k)]
        /\ Z.of_nat k < maxRetries
        /\ (forall i, (i < k)%nat -> answer w notice st i = None)
        /\ (answer w notice st k = None -> Z.of_nat k = maxRetries - 1)
        /\ sends (sendWithRetry w notice maxRetries st) = (sends st + S k)%nat).
Proof.
  unfold sendWithRetry. split.
  - intros Hle. rewrite sendWithRetry_from_step.
    destruct (Z_lt_dec 0 maxRetries); [lia | reflexivity].
  - intros Hpos.
    destruct (sendWithRetry_from_trace w notice maxRetries
                (Nat.pred (Z.to_nat maxRetries)) 0 st ltac:(lia))
      as (k & new & Hev & Hcalls & Hk & Hnil & Hlast & Hs & _).
    exists k, new. repeat split; auto; lia.
Qed.

Lemma sendWithRetry_attempts_witness :
  exists k new,
    events (sendWithRetry a_worker (a_notice "one") 3 a_world)
    = events a_world ++ new
    /\ calls new
       = flat_map (fun i => [EvSend (a_notice "one") None;
                             EvSleep (delay (Z.of_nat i))]) (seq 0 k)
         ++ [EvSend (a_notice "one") (answer a_worker (a_notice "one") a_world k)]
    /\ Z.of_nat k < 3
    /\ (forall i, (i < k)%nat ->
          answer a_worker (a_notice "one") a_world i = None)
    /\ (answer a_worker (a_notice "one") a_world k = None -> Z.of_nat k = 3 - 1)
    /\ sends (sendWithRetry a_worker (a_notice "one") 3 a_world)
       = (sends a_world + S k)%nat.
Proof.
  apply (sendWithRetry_attempts a_worker (a_notice "one") 3 a_world). lia.
Defined.

(** What is logged for a notice that cannot be sent for want of a key. *)
Definition no_key_line : log_line :=
  {| level := "error";
     message := "Cannot send notice: api_key not configured" |}.

(** X15. Without an API key, a notice taken from the queue is not given
    up at once: whatever the network would answer, [sendWithRetry] goes
    through its three attempts, each returning nil without a call of the
    library and logging the same line, and sleeps 100ms and 200ms between
    them. *)
Theorem no_key_retries (w : Worker) (notice : Notice) (st : World) :
  APIKey (Client.config (client w)) = "" ->
  events (sendWithRetry w notice 3 st)
  = events st
    ++ [EvSend notice None; EvLog no_key_line; EvSleep (100 * Millisecond);
        EvSend notice None; EvLog no_key_line; EvSleep (200 * Millisecond);
        EvSend notice None; EvLog no_key_line]
  /\ sends (sendWithRetry w notice 3 st) = (sends st + 3)%nat.
Proof.
  intros Hkey.
  assert (Hsend : forall st0,
             client_Send w notice st0
             = (None,
                {| nets := nets st0; sends := S (sends st0);
                   events := events st0
                             ++ [EvSend notice None; EvLog no_key_line] |})).
  { intros st0. unfold client_Send.
    now rewrite (ClientMoreFacts.Send_without_key _ _ _ Hkey). }
  unfold sendWithRetry.
  rewrite sendWithRetry_from_step.
  destruct (Z_lt_dec 0 3) as [_ | ?]; [|lia]. rewrite Hsend.
  change (0 <? 3 - 1) with true. cbv iota.
  rewrite sendWithRetry_from_step.
  destruct (Z_lt_dec (0 + 1) 3) as [_ | ?]; [|lia]. rewrite Hsend.
  change (0 + 1 <? 3 - 1) with true. cbv iota.
  rewrite sendWithRetry_from_step.
  destruct (Z_lt_dec (0 + 1 + 1) 3) as [_ | ?]; [|lia]. rewrite Hsend.
  change (0 + 1 + 1 <? 3 - 1) with false. cbv iota.
  rewrite sendWithRetry_from_step.
  destruct (Z_lt_dec (0 + 1 + 1 + 1) 3) as [? | _]; [lia|].
  cbn [time_Sleep nets sends events].
  change (delay 0) with (100 * Millisecond).
  change (delay (0 + 1)) with (200 * Millisecond).
  rewrite <- !app_assoc. split; [reflexivity | lia].
Qed.

Definition keyless_worker : Worker :=
  {| wconfig := ClientMoreFacts.keyless_config;
     client := NewClient ClientMoreFacts.keyless_config;
     queue := []; running := true |}.

Lemma no_key_retries_witness :
  events (sendWithRetry keyless_worker (a_notice "n") 3 a_world)
  = events a_world
    ++ [EvSend (a_notice "n") None; EvLog no_key_line;
        EvSleep (100 * Millisecond);
        EvSend (a_notice "n") None; EvLog no_key_line;
        EvSleep (200 * Millisecond);
        EvSend (a_notice "n") None; EvLog no_key_line]
  /\ sends (sendWithRetry keyless_worker (a_notice "n") 3 a_world)
     = (sends a_world + 3)%nat.
Proof.
  apply (no_key_retries keyless_worker (a_notice "n") a_world). reflexivity.
Defined.

(** The notices of [q], the [i]-th repeated as often as the [i]-th count
    says. *)
Fixpoint repeated (q : list Notice) (counts : list nat) : list Notice :=
  match q, counts with
  | n :: q', k :: counts' => replicate k n ++ repeated q' counts'
  | _, _ => []
  end.

Lemma flush_queue_adds (w : Worker) (q : list Notice) :
  forall st,
    exists counts new,
      events (flush_queue w q st) = events st ++ new
      /\ sent new = repeated q counts
      /\ List.length counts = List.length q
      /\ Forall (fun k => 1 <= k <= 3)%nat counts.
Proof.
  induction q as [|n q IH]; intros st.
  { exists [], []. rewrite app_nil_r. repeat split; auto. }
  cbn [flush_queue].
  destruct (sendWithRetry_from_adds w n 3 3 0 st eq_refl)
    as (k & new1 & Hev1 & Hsent1 & _ & Hk & Hk1 & _).
  fold (sendWithRetry w n 3 st) in Hev1.
  assert (k <> O) by (apply Hk1; discriminate).
  destruct (IH (sendWithRetry w n 3 st)) as (counts & new & Hev & Hsent & Hlen & Hall).
  exists (k :: counts), (new1 ++ new).
  rewrite Hev, Hev1, sent_app, Hsent1, Hsent, <- app_assoc. cbn.
  repeat split; auto. constructor; [lia | exact Hall].
Qed.

(** X16. [Flush] on a running worker whose [done] channel is open returns
    with the queue empty after every queued notice has been sent, in the
    order of the queue, each with one to three attempts. On a worker that
    is not running it returns at once, whatever the queue holds. On a
    running worker whose [done] channel is closed, which is a worker
    started again after a stop, and with a notice queued, it does not
    return once the processing task has taken the case of that channel. *)
Theorem Flush_in_order (l : Life) (takes_done : bool) (st : World) :
  (running (lw l) = true -> done_closed l = false ->
   exists l' st' counts new,
     Flush l takes_done st = Some (l', st')
     /\ queue (lw l') = []
     /\ running (lw l') = true
     /\ done_closed l' = false
     /\ events st' = events st ++ new
     /\ sent new = repeated (queue (lw l)) counts
     /\ List.length counts = List.length (queue (lw l))
     /\ Forall (fun k => 1 <= k <= 3)%nat counts)
  /\ (running (lw l) = false -> Flush l takes_done st = Some (l, st))
  /\ (running (lw l) = true -> done_closed l = true -> queue (lw l) <> [] ->
      Flush l true st = None).
Proof.
  unfold Flush. cbv zeta. split; [|split].
  - intros Hrun Hopen. rewrite Hrun, Hopen. cbn [negb orb andb].
    destruct (queue (lw l)) as [|n q] eqn:Hq.
    + cbn. exists l, st, [], []. rewrite app_nil_r, Hq. repeat split; auto.
    + replace (Z.of_nat (List.length (n :: q)) =? 0) with false
        by (symmetry; apply Z.eqb_neq; cbn [List.length]; lia).
      destruct (flush_queue_adds (lw l) (n :: q) st)
        as (counts & new & Hev & Hsent & Hlen & Hall).
      do 2 eexists. exists counts, new.
      split; [reflexivity|]. cbn [lw queue running done_closed].
      repeat split; auto.
  - intros Hrun. rewrite Hrun. reflexivity.
  - intros Hrun Hclosed Hq. rewrite Hrun, Hclosed. cbn [negb orb andb].
    destruct (queue (lw l)) as [|n q]; [congruence|].
    replace (Z.of_nat (List.length (n :: q)) =? 0) with false
      by (symmetry; apply Z.eqb_neq; cbn [List.length]; lia).
    reflexivity.
Qed.

Lemma Flush_in_order_witness :
  exists l' st' counts new,
    Flush {| lw := a_worker; done_closed := false |} false a_world
    = Some (l', st')
    /\ queue (lw l') = []
    /\ running (lw l') = true
    /\ done_closed l' = false
    /\ events st' = events a_world ++ new
    /\ sent new = repeated [a_notice "one"] counts
    /\ List.length counts = 1%nat
    /\ Forall (fun k => 1 <= k <= 3)%nat counts.
Proof.
  apply (Flush_in_order {| lw := a_worker; done_closed := false |} false
           a_world); reflexivity.
Defined.

(** A worker made, started, stopped and started again, with one notice
    pushed: its [done] channel is closed, and a [Flush] whose request the
    processing task does not receive does not return. *)
Definition restarted : Life :=
  match NewLife (a_config 2) with
  | Some l0 =>
      match Stop_signal (Start_life l0) with
      | Ok l1 =>
          {| lw := (Push (lw (Start_life l1)) false (a_notice "one")).1.2;
             done_closed := done_closed (Start_life l1) |}
      | Panic _ => l0
      end
  | None => {| lw := a_worker; done_closed := false |}
  end.

Example Flush_after_restart :
  running (lw restarted) = true
  /\ done_closed restarted = true
  /\ queue (lw restarted) = [a_notice "one"]
  /\ Flush restarted true a_world = None.
Proof. repeat split; reflexivity. Qed.

Lemma drain_from_adds (w : Worker) (sched : Schedule) (q : list Notice) :
  forall i st,
    exists new,
      events (drain_from w sched i q st).2 = events st ++ new
      /\ sent new ++ (drain_from w sched i q st).1 = q
      /\ sleeps new = O
      /\ ((forall j, ctx_done sched j = false) ->
          (drain_from w sched i q st).1 = []).
Proof.
  induction q as [|n q IH]; intros i st.
  { exists []. rewrite app_nil_r. repeat split; auto. }
  cbn [drain_from].
  destruct (ctx_done sched i && takes_done sched i) eqn:Hstop.
  - exists []. rewrite app_nil_r. cbn. repeat split; auto.
    intros Hnever. rewrite Hnever in Hstop. discriminate.
  - destruct (client_Send_adds w n st) as (new1 & Hev1 & Hsent1 & Hsl1 & _).
    destruct (IH (S i) (client_Send w n st).2) as (new & Hev & Hsent & Hsl & Hall).
    exists (new1 ++ new).
    rewrite Hev, Hev1, sent_app, sleeps_app, Hsent1, Hsl1, Hsl, <- !app_assoc.
    cbn. rewrite Hsent. repeat split; auto.
Qed.

(** X17. Whatever the schedule, [drain] sends a front part of the queue,
    each notice once and in order, without sleeping, and leaves the rest in
    the queue; when the context of the shutdown timeout is never done it
    sends the whole queue. *)
Theorem drain_once_in_order (w : Worker) (sched : Schedule) (st : World) :
  exists new,
    events (drain w sched st).2 = events st ++ new
    /\ sent new ++ queue (drain w sched st).1 = queue w
    /\ sleeps new = O
    /\ ((forall j, ctx_done sched j = false) ->
        queue (drain w sched st).1 = []).
Proof.
  unfold drain.
  destruct (drain_from_adds w sched (queue w) 0 st) as (new & H).
  destruct (drain_from w sched 0 (queue w) st) as [remaining st'].
  exists new. exact H.
Qed.

(** X18. A worker that was stopped cannot be stopped a second time after
    a new start: its [done] channel is closed already and [Stop] panics.
    [Stop] on a worker that is not running does nothing. *)
Theorem Stop_after_restart_panics (cfg : Configuration) (l0 : Life) :
  NewLife cfg = Some l0 ->
  exists l1,
    Stop_signal (Start_life l0) = Ok l1
    /\ running (lw l1) = false
    /\ queue (lw l1) = []
    /\ Stop_signal l1 = Ok l1
    /\ Stop_signal l0 = Ok l0
    /\ Stop_signal (Start_life l1) = Panic "close of closed channel".
Proof.
  unfold NewLife, NewWorker.
  destruct (MaxQueueSize cfg <? 0); [discriminate|].
  intros [= <-]. eexists. split; [reflexivity|]. repeat split; reflexivity.
Qed.

Lemma Stop_after_restart_panics_witness :
  exists l1,
    Stop_signal (Start_life {| lw := {| wconfig := a_config 2;
                                        client := NewClient (a_config 2);
                                        queue := []; running := false |};
                               done_closed := false |}) = Ok l1
    /\ running (lw l1) = false
    /\ queue (lw l1) = []
    /\ Stop_signal l1 = Ok l1
    /\ Stop_signal {| lw := {| wconfig := a_config 2;
                               client := NewClient (a_config 2);
                               queue := []; running := false |};
                      done_closed := false |}
       = Ok {| lw := {| wconfig := a_config 2;
                        client := NewClient (a_config 2);
                        queue := []; running := false |};
               done_closed := false |}
    /\ Stop_signal (Start_life l1) = Panic "close of closed channel".
Proof.
  apply (Stop_after_restart_panics (a_config 2)). reflexivity.
Defined.

End WorkerRunFacts.

(** ** The resolved configuration *)

Module ResolveFacts.
Import GoStrings Resolve.
Import GoStringsFacts SanitizeMoreFacts.

Lemma or_else_nonempty (s alt : string) : alt <> "" -> or_else s alt <> "".
Proof.
  intros Halt. unfold or_else.
  destruct (String.eqb_spec s ""); [exact Halt | assumption].
Qed.

Lemma first_set_nonempty (getenv : string -> string) (vars : list string)
    (val : string) :
  first_set getenv vars = Some val -> val <> "".
Proof.
  induction vars as [|v vars IH]; [discriminate|]. cbn.
  destruct (String.eqb_spec (getenv v) ""); [exact IH|].
  intros [= <-]. assumption.
Qed.

Lemma positive_or_default (x d : Z) : 0 < d -> 0 < (if 0 <? x then x else d).
Proof. intros Hd. destruct (Z.ltb_spec 0 x); lia. Qed.

Lemma NewConfiguration_async (getenv : string -> string) (cfg : Cfg.Config) :
  Config.AsyncSend (base (NewConfiguration getenv cfg)) = true.
Proof. cbn. now destruct (Cfg.AsyncSend cfg). Qed.

(** X19. Whatever the caller's structure and the environment hold, the
    resolved queue size and the three timeouts are positive; the
    environment name and the endpoint are never empty; asynchronous sending
    is on even when the caller's structure says false; and the filter keys
    are the default keys followed by the caller's, each of which the filter
    of the notice builder redacts as it is written and, when of ASCII
    bytes, in upper and in lower case. *)
Theorem NewConfiguration_well_formed (getenv : string -> string)
    (cfg : Cfg.Config) :
  0 < Config.MaxQueueSize (base (NewConfiguration getenv cfg))
  /\ 0 < Config.ShutdownTimeout (base (NewConfiguration getenv cfg))
  /\ 0 < Timeout (NewConfiguration getenv cfg)
  /\ 0 < ConnectTimeout (NewConfiguration getenv cfg)
  /\ Config.Environment (base (NewConfiguration getenv cfg)) <> ""
  /\ Config.Endpoint (base (NewConfiguration getenv cfg)) <> ""
  /\ Config.AsyncSend (base (NewConfiguration getenv cfg)) = true
  /\ Config.FilterKeys (base (NewConfiguration getenv cfg))
     = DefaultFilterKeys ++ Cfg.FilterKeys cfg
  /\ (forall k,
        In k (DefaultFilterKeys ++ Cfg.FilterKeys cfg) ->
        Sanitize.shouldFilter
          (Builder.sanitizeFilter
             (Builder.NewNoticeBuilder (base (NewConfiguration getenv cfg))))
          k
        = true
        /\ (is_ascii k = true ->
            Sanitize.shouldFilter
              (Builder.sanitizeFilter
                 (Builder.NewNoticeBuilder (base (NewConfiguration getenv cfg))))
              (ToUpper k)
            = true
            /\ Sanitize.shouldFilter
                 (Builder.sanitizeFilter
                    (Builder.NewNoticeBuilder
                       (base (NewConfiguration getenv cfg))))
                 (ToLower k)
               = true)).
Proof.
  split; [cbn; apply positive_or_default; reflexivity|].
  split; [cbn; apply positive_or_default; reflexivity|].
  split; [cbn; apply positive_or_default; reflexivity|].
  split; [cbn; apply positive_or_default; reflexivity|].
  split; [|split; [|split; [apply NewConfiguration_async|split; [reflexivity|]]]].
  - cbn [NewConfiguration base Config.Environment].
    destruct (String.eqb_spec
                (or_else (Cfg.Environment cfg) (getenv "CHECKEND_ENVIRONMENT")) "")
      as [_ | Hne]; [|exact Hne].
    unfold detectEnvironment.
    destruct (first_set getenv _) as [val|] eqn:Hf; [|discriminate].
    now apply first_set_nonempty in Hf.
  - cbn [NewConfiguration base Config.Endpoint].
    apply or_else_nonempty. discriminate.
  - intros k Hin.
    cbn [Builder.NewNoticeBuilder Builder.sanitizeFilter NewConfiguration base
         Config.FilterKeys].
    split; [now apply shouldFilter_self|]. intros _.
    rewrite shouldFilter_upper. split; [now apply shouldFilter_self|].
    unfold Sanitize.shouldFilter at 1. rewrite ToLower_idem.
    now apply shouldFilter_self.
Qed.

Definition no_env : string -> string := fun _ => "".

Definition a_Config : Cfg.Config :=
  {| Cfg.APIKey := "test-key"; Cfg.Endpoint := ""; Cfg.Environment := "";
     Cfg.Enabled := Some true; Cfg.AsyncSend := false;
     Cfg.MaxQueueSize := 0; Cfg.Timeout := 0; Cfg.ConnectTimeout := 0;
     Cfg.ShutdownTimeout := 0; Cfg.FilterKeys := ["custom_key"];
     Cfg.IgnoredErrors := [Ignore.PatString "anotherError"];
     Cfg.BeforeNotify := []; Cfg.Debug := false;
     Cfg.AppName := ""; Cfg.Revision := ""; Cfg.RootPath := "";
     Cfg.SendRequestData := None; Cfg.SendSessionData := None;
     Cfg.SendEnvironment := None; Cfg.SendUserData := None;
     Cfg.Proxy := ""; Cfg.SSLVerify := None |}.

Lemma NewConfiguration_well_formed_witness :
  Sanitize.shouldFilter
    (Builder.sanitizeFilter
       (Builder.NewNoticeBuilder (base (NewConfiguration no_env a_Config))))
    (ToUpper "custom_key")
  = true.
Proof.
  destruct (NewConfiguration_well_formed no_env a_Config)
    as (_ & _ & _ & _ & _ & _ & _ & _ & H).
  destruct (H "custom_key") as [_ Hcase];
    [apply in_or_app; right; left; reflexivity|].
  destruct Hcase as [Hup _]; [reflexivity | exact Hup].
Defined.

(** The defaults of the configuration tests of the repository. *)
Example TestConfigurationDefaults :
  Config.MaxQueueSize (base (NewConfiguration no_env a_Config)) = 1000
  /\ Config.AsyncSend (base (NewConfiguration no_env a_Config)) = true
  /\ Config.Environment (base (NewConfiguration no_env a_Config)) = "development"
  /\ Config.Endpoint (base (NewConfiguration no_env a_Config))
     = "https://app.checkend.io"
  /\ Timeout (NewConfiguration no_env a_Config) = 15 * Second.
Proof. repeat split; vm_compute; reflexivity. Qed.

End ResolveFacts.

(** ** Request-scoped data and the entry points *)

Module PipelineFacts.
Import Values Reflect NoticeM Client WorkerM Builder Resolve Pipeline.
Import NoticeFacts ResolveFacts.

Lemma range_assign_entries (m : option (gmap string value))
    (ctx : gmap string value) :
  range_assign (range_entries m) ctx = entries_of m ∪ ctx.
Proof. now apply range_assign_any_order. Qed.

(** The context map that [buildNotice] and [SetContext] make of two
    maps: the entries of the second, and those of the first under the
    other keys. *)
Definition merged (first second : option (gmap string value))
    : gmap string value :=
  entries_of second ∪ entries_of first.

Lemma merge_loops (first second : option (gmap string value)) :
  range_assign (range_entries second) (range_assign (range_entries first) ∅)
  = merged first second.
Proof.
  rewrite !range_assign_entries. unfold merged.
  now rewrite (right_id_L ∅ (∪)).
Qed.

(** X20. On a context that is not nil and holds no nil data,
    [SetContext] adds the given entries to those of the context, the given
    ones winning on a common key, and keeps user and request; two calls
    amount to one call with the two maps merged the same way; [SetUser]
    and [SetRequest] replace their map, keep the rest, and commute. *)
Theorem SetContext_merges (ctx : Ctx.GoContext) (d : Ctx.ContextData)
    (a b user request : option (gmap string value)) :
  Ctx.GetContextData ctx = Ok (Some d) ->
  (ctx1 ← Ctx.SetContext ctx a; Ctx.GetContextData ctx1)
  = Ok (Some {| Ctx.Context := Some (merged (Ctx.Context d) a);
                Ctx.User := Ctx.User d;
                Ctx.Request := Ctx.Request d |})
  /\ (ctx1 ← Ctx.SetContext ctx a; Ctx.SetContext ctx1 b)
     = Ctx.SetContext ctx (Some (merged a b))
  /\ (ctx1 ← Ctx.SetRequest ctx request;
      ctx2 ← Ctx.SetUser ctx1 user;
      Ctx.GetContextData ctx2)
     = Ok (Some {| Ctx.Context := Ctx.Context d;
                   Ctx.User := user;
                   Ctx.Request := request |})
  /\ (ctx1 ← Ctx.SetRequest ctx request; Ctx.SetUser ctx1 user)
     = (ctx1 ← Ctx.SetUser ctx user; Ctx.SetRequest ctx1 request).
Proof.
  intros Hd.
  assert (Hctx : forall data,
             Ctx.WithContextData ctx data = Ok (Ctx.WithValue data)).
  { intros data. destruct ctx; [discriminate | reflexivity | reflexivity]. }
  unfold Ctx.SetContext, Ctx.SetUser, Ctx.SetRequest.
  rewrite Hd. cbn [mbind outcome_bind Ctx.deref]. rewrite !Hctx.
  cbn [mbind outcome_bind Ctx.deref Ctx.GetContextData Ctx.WithContextData
       Ctx.Context Ctx.User Ctx.Request].
  rewrite !merge_loops. split; [reflexivity|]. split; [|split; reflexivity].
  do 3 f_equal. unfold merged. cbn [entries_of].
  now rewrite (assoc_L (∪)).
Qed.

Definition some_data : Ctx.ContextData :=
  {| Ctx.Context := Some {[ "request_id" := VString "r-1" ]};
     Ctx.User := Some {[ "id" := VScalar (SInt KInt 7) ]};
     Ctx.Request := None |}.

Lemma SetContext_merges_witness :
  (ctx1 ← Ctx.SetContext (Ctx.WithValue (Some some_data))
            (Some {[ "request_id" := VString "r-2" ]});
   Ctx.GetContextData ctx1)
  = Ok (Some {| Ctx.Context :=
                  Some (merged (Ctx.Context some_data)
                          (Some {[ "request_id" := VString "r-2" ]}));
                Ctx.User := Ctx.User some_data;
                Ctx.Request := Ctx.Request some_data |}).
Proof.
  apply (SetContext_merges (Ctx.WithValue (Some some_data)) some_data
           (Some {[ "request_id" := VString "r-2" ]}) None None None).
  reflexivity.
Defined.

(** The [TestSetContext] case of the repository, on the background
    context. *)
Example TestSetContext :
  (ctx1 ← Ctx.SetContext Ctx.NoValue (Some {[ "key" := VString "value" ]});
   d ← Ctx.GetContextData ctx1;
   d ← Ctx.deref d;
   Ok (Ctx.Context d))
  = Ok (Some {[ "key" := VString "value" ]}).
Proof. vm_compute. reflexivity. Qed.

(** A context that the package can read: not nil, no nil data. *)
Definition readable (ctx : Ctx.GoContext) : Prop :=
  exists d, Ctx.GetContextData ctx = Ok (Some d).

Lemma readable_dec (ctx : Ctx.GoContext) :
  readable ctx
  \/ (forall (A : Type) (k : Ctx.ContextData -> outcome A),
        (ctxData ← Ctx.GetContextData ctx; ctxData ← Ctx.deref ctxData; k ctxData)
        = Panic Ctx.nil_dereference).
Proof.
  destruct ctx as [| |[d|]]; [now right | left | left | now right];
    eexists; reflexivity.
Qed.

Lemma Build_returns (b : NoticeBuilder) (proc : Process) (e : GoError)
    (m : gmap string value) (user request : option (gmap string value))
    (fingerprint : string) (tags : list string) :
  exists n, Build b proc (Some e) (Some m) user request fingerprint tags = Ok n.
Proof.
  unfold Build. cbn [extractMessage mbind outcome_bind Sanitize.Filter].
  destruct (Config.SendEnvironment (bconfig b)); cbn [map_assign mbind outcome_bind];
    eexists; reflexivity.
Qed.

Section Engine.
Context {R : Type}.
Variable regexp_Compile : string -> option R.
Variable regexp_MatchString : R -> string -> bool.
Variable AssignableTo : rtype -> rtype -> bool.

#[local] Abbreviation prepare :=
  (prepare regexp_Compile regexp_MatchString AssignableTo).
#[local] Abbreviation shouldIgnore :=
  (shouldIgnore regexp_Compile regexp_MatchString AssignableTo).
#[local] Abbreviation NotifyWithContext :=
  (NotifyWithContext regexp_Compile regexp_MatchString AssignableTo).
#[local] Abbreviation NotifySyncWithContext :=
  (NotifySyncWithContext regexp_Compile regexp_MatchString AssignableTo).

Lemma shouldIgnore_nil (sdk : SDK) (c : Resolved) :
  config sdk = Some c -> shouldIgnore sdk None = true.
Proof. intros Hc. unfold Pipeline.shouldIgnore. now rewrite Hc. Qed.

Lemma buildNotice_returns (c : Resolved) (proc : Process)
    (ctx : Ctx.GoContext) (e : GoError) (opts : list Opt.NotifyOption) :
  readable ctx -> exists n, buildNotice c proc ctx (Some e) opts = Ok n.
Proof.
  intros [d Hd]. unfold buildNotice. rewrite Hd.
  cbn [mbind outcome_bind Ctx.deref]. apply Build_returns.
Qed.

Lemma buildNotice_faults (c : Resolved) (proc : Process)
    (ctx : Ctx.GoContext) (err : option GoError) (opts : list Opt.NotifyOption) :
  ~ readable ctx ->
  buildNotice c proc ctx err opts = Panic Ctx.nil_dereference.
Proof.
  intros Hno. unfold buildNotice.
  destruct (readable_dec ctx) as [H | H]; [contradiction | apply H].
Qed.

(** When nothing is to be notified. *)
Definition stops_early (sdk : SDK) (err : option GoError) : Prop :=
  config sdk = None \/ initialized sdk = false
  \/ (exists c, config sdk = Some c /\ Config.Enabled (base c) = false)
  \/ err = None \/ shouldIgnore sdk err = true.

Lemma prepare_stops (sdk : SDK) (proc : Process) (ctx : Ctx.GoContext)
    (err : option GoError) (opts : list Opt.NotifyOption) :
  stops_early sdk err -> prepare sdk proc ctx err opts = Ok None.
Proof.
  unfold Pipeline.prepare. intros Hstop.
  destruct (config sdk) as [c|] eqn:Hc; [|reflexivity].
  destruct (initialized sdk) eqn:Hi; [|reflexivity].
  destruct (Config.Enabled (base c)) eqn:He; [|reflexivity].
  cbn [negb orb].
  assert (Hig : shouldIgnore sdk err = true).
  { destruct Hstop as [H | [H | [(c' & H & He') | [-> | H]]]];
      [congruence | congruence | congruence | | exact H].
    now apply shouldIgnore_nil with c. }
  now rewrite Hig.
Qed.

Lemma prepare_returns (sdk : SDK) (proc : Process) (ctx : Ctx.GoContext)
    (err : option GoError) (opts : list Opt.NotifyOption) :
  readable ctx -> exists r, prepare sdk proc ctx err opts = Ok r.
Proof.
  intros Hctx.
  unfold Pipeline.prepare. destruct (config sdk) as [c|] eqn:Hc; [|eauto].
  destruct (negb (initialized sdk) || negb (Config.Enabled (base c))); [eauto|].
  destruct err as [e|].
  2:{ rewrite (shouldIgnore_nil sdk c Hc). eauto. }
  destruct (shouldIgnore sdk (Some e)); [eauto|].
  destruct (buildNotice_returns c proc ctx e opts Hctx) as [n ->].
  cbn [mbind outcome_bind].
  destruct (runBeforeNotify (BeforeNotify c) n) as [[] n']; cbn; eauto.
Qed.

(** The notification goes on to build a notice, or stops early. *)
Lemma prepare_cases (sdk : SDK) (proc : Process) (ctx : Ctx.GoContext)
    (err : option GoError) (opts : list Opt.NotifyOption) :
  stops_early sdk err
  \/ exists c,
       prepare sdk proc ctx err opts
       = (notice ← buildNotice c proc ctx err opts;
          let '(ok, notice) := runBeforeNotify (BeforeNotify c) notice in
          if negb ok then Ok None else Ok (Some (c, notice))).
Proof.
  unfold stops_early, Pipeline.prepare.
  destruct (config sdk) as [c|] eqn:Hc; [|now (left; left)].
  destruct (initialized sdk); [|now (left; right; left)].
  destruct (Config.Enabled (base c)) eqn:He;
    [|left; right; right; left; eauto].
  cbn [negb orb].
  destruct (shouldIgnore sdk err) eqn:Hig; [now (left; do 4 right)|].
  right. exists c. reflexivity.
Qed.

Lemma prepare_faults (sdk : SDK) (proc : Process) (ctx : Ctx.GoContext)
    (err : option GoError) (opts : list Opt.NotifyOption) :
  ~ stops_early sdk err -> ~ readable ctx ->
  prepare sdk proc ctx err opts = Panic Ctx.nil_dereference.
Proof.
  intros Hgo Hctx.
  destruct (prepare_cases sdk proc ctx err opts) as [H | [c ->]];
    [contradiction|].
  now rewrite buildNotice_faults.
Qed.

(** X21. When the package is not configured or not enabled, when the
    error is nil, or when the error matches an ignore pattern, both entry
    points change nothing, call nothing and return no response, whatever
    the context. When the error is to be reported and the context is the
    nil interface or holds a nil pointer under the key of the package,
    both entry points fault with the nil dereference of the runtime. *)
Theorem Notify_stops_or_faults (sdk : SDK) (proc : Process)
    (receiver_waiting : bool) (st : World) (ctx : Ctx.GoContext)
    (err : option GoError) (opts : list Opt.NotifyOption) :
  (stops_early sdk err ->
   NotifyWithContext sdk proc receiver_waiting st ctx err opts
   = Ok (sdk, st, None)
   /\ NotifySyncWithContext sdk proc st ctx err opts = Ok (sdk, st, None))
  /\ (~ stops_early sdk err -> ~ readable ctx ->
      NotifyWithContext sdk proc receiver_waiting st ctx err opts
      = Panic "runtime error: invalid memory address or nil pointer dereference"
      /\ NotifySyncWithContext sdk proc st ctx err opts
         = Panic "runtime error: invalid memory address or nil pointer dereference").
Proof.
  unfold Pipeline.NotifyWithContext, Pipeline.NotifySyncWithContext. split.
  - intros Hstop.
    rewrite (prepare_stops sdk proc ctx err opts Hstop). split; reflexivity.
  - intros Hgo Hctx.
    rewrite (prepare_faults sdk proc ctx err opts Hgo Hctx). now split.
Qed.

(** X22. In testing mode a notification with a readable context makes no
    call of the library and leaves the worker alone: it either changes
    nothing or records one
    notice, which is then the last recorded one; the synchronous entry
    point answers the response with both identifiers 0 exactly when it
    records. *)
Theorem Notify_testing_mode (sdk : SDK) (proc : Process)
    (receiver_waiting : bool) (st : World) (ctx : Ctx.GoContext)
    (err : option GoError) (opts : list Opt.NotifyOption) :
  testingEnabled sdk = true ->
  readable ctx ->
  (NotifyWithContext sdk proc receiver_waiting st ctx err opts
   = Ok (sdk, st, None)
   /\ NotifySyncWithContext sdk proc st ctx err opts = Ok (sdk, st, None))
  \/ exists notice,
       NotifyWithContext sdk proc receiver_waiting st ctx err opts
       = Ok (capture sdk notice, st, None)
       /\ NotifySyncWithContext sdk proc st ctx err opts
          = Ok (capture sdk notice, st, Some {| ID := 0; ProblemID := 0 |})
       /\ TestingLastNotice (capture sdk notice) = Some notice
       /\ TestingNoticeCount (capture sdk notice) = TestingNoticeCount sdk + 1
       /\ worker (capture sdk notice) = worker sdk.
Proof.
  intros Htest Hctx.
  unfold Pipeline.NotifyWithContext, Pipeline.NotifySyncWithContext.
  destruct (prepare_returns sdk proc ctx err opts Hctx) as [r ->].
  cbn [mbind outcome_bind]. destruct r as [[c n]|]; [|now left].
  rewrite Htest. right. exists n. repeat split.
  - unfold TestingLastNotice, capture. cbn [testingNotices].
    rewrite length_app. cbn [List.length].
    replace (Z.of_nat (List.length (testingNotices sdk) + 1) =? 0) with false
      by (symmetry; apply Z.eqb_neq; lia).
    replace (List.length (testingNotices sdk) + 1 - 1)%nat
      with (List.length (testingNotices sdk)) by lia.
    rewrite nth_error_app2 by lia. now rewrite Nat.sub_diag.
  - unfold TestingNoticeCount, capture. cbn [testingNotices].
    rewrite length_app. cbn [List.length]. lia.
Qed.

(** X23. With a worker and outside testing mode, the asynchronous entry
    point makes no call of the library itself. The notice is dropped
    without a trace when the worker is not running; handed to the
    processing task when that waits on the queue; appended to the queue
    when the queue has room; and dropped without a trace when the queue is
    full. The synchronous entry point never touches the worker: it calls
    [Send] once, on the notice, and returns its response. *)
Theorem Notify_routes (sdk : SDK) (proc : Process) (receiver_waiting : bool)
    (st : World) (ctx : Ctx.GoContext) (err : option GoError)
    (opts : list Opt.NotifyOption) (c : Resolved) (w : Worker)
    (notice : Notice) :
  prepare sdk proc ctx err opts = Ok (Some (c, notice)) ->
  testingEnabled sdk = false ->
  worker sdk = Some w ->
  Config.AsyncSend (base c) = true ->
  (running w = false ->
   NotifyWithContext sdk proc receiver_waiting st ctx err opts
   = Ok (set_worker sdk (Some w), st, None))
  /\ (running w = true -> receiver_waiting = true ->
      NotifyWithContext sdk proc receiver_waiting st ctx err opts
      = Ok (set_worker sdk (Some w), st, Some notice))
  /\ (running w = true -> receiver_waiting = false ->
      Z.of_nat (List.length (queue w)) < Config.MaxQueueSize (wconfig w) ->
      NotifyWithContext sdk proc receiver_waiting st ctx err opts
      = Ok (set_worker sdk
              (Some (WorkerFacts.with_queue w (queue w ++ [notice]))),
            st, None))
  /\ (running w = true -> receiver_waiting = false ->
      Config.MaxQueueSize (wconfig w) <= Z.of_nat (List.length (queue w)) ->
      NotifyWithContext sdk proc receiver_waiting st ctx err opts
      = Ok (set_worker sdk (Some w), st, None))
  /\ (exists resp lines,
        NotifySyncWithContext sdk proc st ctx err opts
        = Ok (sdk,
              {| nets := nets st; sends := S (sends st);
                 events := events st ++ EvSend notice resp :: map EvLog lines |},
              resp)).
Proof.
  intros Hprep Htest Hw Hasync.
  unfold Pipeline.NotifyWithContext, Pipeline.NotifySyncWithContext.
  rewrite Hprep. cbn [mbind outcome_bind]. rewrite Htest, Hw, Hasync.
  split; [|split; [|split; [|split]]].
  - intros Hrun. now rewrite WorkerFacts.Push_stopped.
  - intros Hrun ->. unfold Push. now rewrite Hrun.
  - intros Hrun -> Hroom. now rewrite WorkerFacts.Push_room.
  - intros Hrun -> Hfull. now rewrite WorkerFacts.Push_full.
  - unfold direct_Send.
    destruct (Send (NewClient (base c)) (nets st (sends st)) notice)
      as [resp lines].
    exists resp, lines. reflexivity.
Qed.

(** The map an option gives, or else the one of the context; an option
    given nil gives nothing. *)
Definition chosen (given stored : option (gmap string value))
    : option (gmap string value) :=
  match given with
  | Some u => Some u
  | None => stored
  end.

(** X24. The notice of an error that is to be reported, as it is handed
    to the before-notify callbacks: its tags and fingerprint are those of
    the options, the last option that sets one winning; its context is
    the filtered merge of the context data and the context of the options,
    the latter winning on a common key, to which the environment snapshot
    is added under "env", in place of an entry of that name, when the
    configuration says to send it; its user and request maps are
    those of the options when given, else those of the context data,
    filtered, and left out when empty or when the configuration says not
    to send them, so an option with an empty map hides the map of the
    context data. What the callbacks leave is what is routed. *)
Theorem prepare_notice (sdk : SDK) (proc : Process) (ctx : Ctx.GoContext)
    (e : GoError) (opts : list Opt.NotifyOption) (c : Resolved)
    (d : Ctx.ContextData) :
  config sdk = Some c -> initialized sdk = true ->
  Config.Enabled (base c) = true ->
  shouldIgnore sdk (Some e) = false ->
  Ctx.GetContextData ctx = Ok (Some d) ->
  let options := Opt.apply_options opts in
  let f := sanitizeFilter (NewNoticeBuilder (base c)) in
  let user := chosen (Opt.User options) (Ctx.User d) in
  let request := chosen (Opt.Request options) (Ctx.Request d) in
  exists n,
    buildNotice c proc ctx (Some e) opts = Ok n
    /\ prepare sdk proc ctx (Some e) opts
       = (if (runBeforeNotify (BeforeNotify c) n).1
          then Ok (Some (c, (runBeforeNotify (BeforeNotify c) n).2))
          else Ok None)
    /\ Tags n = Opt.Tags options
    /\ Fingerprint n = Opt.Fingerprint options
    /\ (Config.SendEnvironment (base c) = false ->
        NoticeM.Context n
        = Sanitize.Filter f
            (Some (merged (Ctx.Context d) (Opt.Context options))))
    /\ (Config.SendEnvironment (base c) = true ->
        exists m,
          Sanitize.Filter f
            (Some (merged (Ctx.Context d) (Opt.Context options)))
          = Some m
          /\ NoticeM.Context n
             = Some (<["env" := VOther (OStringMap (getEnvironmentVars proc))]>
                       m))
    /\ (Config.SendUserData (base c) = true -> 0 < map_len user ->
        NoticeM.User n = Sanitize.Filter f user)
    /\ (Config.SendUserData (base c) = false \/ map_len user = 0 ->
        NoticeM.User n = None)
    /\ (Config.SendRequestData (base c) = true -> 0 < map_len request ->
        NoticeM.Request n = Sanitize.Filter f request)
    /\ (Config.SendRequestData (base c) = false \/ map_len request = 0 ->
        NoticeM.Request n = None).
Proof.
  intros Hc Hi He Hig Hd options f user request.
  destruct (buildNotice_returns c proc ctx e opts) as [n Hn];
    [eexists; exact Hd|].
  exists n. split; [exact Hn|]. split.
  { unfold Pipeline.prepare. rewrite Hc, Hi, He. cbn [negb orb].
    rewrite Hig, Hn. cbn [mbind outcome_bind].
    now destruct (runBeforeNotify (BeforeNotify c) n) as [[] n']. }
  unfold buildNotice in Hn. rewrite Hd in Hn.
  cbn [mbind outcome_bind Ctx.deref] in Hn. rewrite merge_loops in Hn.
  destruct (BuilderEnvFacts.Build_contents _ _ _ _ _ _ _ _ _ Hn)
    as (Hu0 & Hu & Hr0 & Hr & Hc0 & Hc1 & _ & _ & Hfp & Htags).
  fold options in Hu0, Hu, Hr0, Hr, Hc0, Hc1, Hfp, Htags.
  fold (chosen (Opt.User options) (Ctx.User d)) in Hu0, Hu.
  fold (chosen (Opt.Request options) (Ctx.Request d)) in Hr0, Hr.
  fold user in Hu0, Hu. fold request in Hr0, Hr.
  cbn [bconfig NewNoticeBuilder] in Hu0, Hu, Hr0, Hr, Hc0, Hc1.
  repeat split; auto.
  - intros Hno. destruct Hu0 as [H | (Hs & Hl & _)]; [exact H|].
    destruct Hno as [Hno | Hno]; [congruence | lia].
  - intros Hno. destruct Hr0 as [H | (Hs & Hl & _)]; [exact H|].
    destruct Hno as [Hno | Hno]; [congruence | lia].
Qed.

End Engine.

Lemma runBeforeNotify_app (cbs1 cbs2 : list Cfg.Callback) (n : Notice) :
  runBeforeNotify (cbs1 ++ cbs2) n
  = if (runBeforeNotify cbs1 n).1
    then runBeforeNotify cbs2 (runBeforeNotify cbs1 n).2
    else runBeforeNotify cbs1 n.
Proof.
  revert n. induction cbs1 as [|cb cbs1 IH]; intros n; [reflexivity|].
  cbn [app runBeforeNotify]. destruct (cb n) as [[] n']; [apply IH | reflexivity].
Qed.

(** X25. The before-notify callbacks run in order, each on the notice as
    the ones before it left it; the first that answers false ends the run
    with false, and the callbacks after it are not run: they have no
    effect on the result. Two lists run one after the other as their
    concatenation. *)
Theorem runBeforeNotify_halts (cbs1 cbs2 cbs2' : list Cfg.Callback)
    (cb : Cfg.Callback) (n : Notice) :
  (runBeforeNotify cbs1 n).1 = true ->
  (cb (runBeforeNotify cbs1 n).2).1 = false ->
  runBeforeNotify (cbs1 ++ cb :: cbs2) n
  = (false, (cb (runBeforeNotify cbs1 n).2).2)
  /\ runBeforeNotify (cbs1 ++ cb :: cbs2) n
     = runBeforeNotify (cbs1 ++ cb :: cbs2') n.
Proof.
  intros H1 Hcb.
  assert (H : forall rest,
             runBeforeNotify (cbs1 ++ cb :: rest) n
             = (false, (cb (runBeforeNotify cbs1 n).2).2)).
  { intros rest. rewrite runBeforeNotify_app, H1. cbn [runBeforeNotify].
    destruct (cb (runBeforeNotify cbs1 n).2) as [ok n']. cbn in Hcb. now subst ok. }
  split; [apply H | now rewrite !H].
Qed.

(** X26. [Configure] with a resolved configuration that is not enabled
    keeps the worker that was there. With one that is enabled, and a
    resolved queue size of at most 2^20, for which the runtime makes the
    channel, it puts a new worker in its place, running, with an empty
    queue of positive capacity, whatever the caller's structure says
    about asynchronous sending. In both cases the package is initialized
    with the resolved configuration. *)
Theorem Configure_worker (getenv : string -> string) (sdk : SDK)
    (cfg : Cfg.Config) :
  (Config.Enabled (base (NewConfiguration getenv cfg)) = false ->
   Configure getenv sdk cfg
   = Ok {| config := Some (NewConfiguration getenv cfg);
           worker := worker sdk; initialized := true;
           testingEnabled := testingEnabled sdk;
           testingNotices := testingNotices sdk |})
  /\ (Config.Enabled (base (NewConfiguration getenv cfg)) = true ->
      Config.MaxQueueSize (base (NewConfiguration getenv cfg)) <= 2 ^ 20 ->
      exists w,
        NewWorker (base (NewConfiguration getenv cfg)) = Some w
        /\ Configure getenv sdk cfg
           = Ok {| config := Some (NewConfiguration getenv cfg);
                   worker := Some (Start w); initialized := true;
                   testingEnabled := testingEnabled sdk;
                   testingNotices := testingNotices sdk |}
        /\ running (Start w) = true
        /\ queue (Start w) = []
        /\ 0 < Config.MaxQueueSize (wconfig (Start w))).
Proof.
  unfold Configure. cbv zeta.
  rewrite (NewConfiguration_async getenv cfg). cbn [andb]. split.
  - intros ->. reflexivity.
  - intros -> _.
    assert (Hq : 0 < Config.MaxQueueSize (base (NewConfiguration getenv cfg)))
      by (cbn; apply positive_or_default; reflexivity).
    unfold NewWorker.
    replace (Config.MaxQueueSize (base (NewConfiguration getenv cfg)) <? 0)
      with false by (symmetry; apply Z.ltb_ge; lia).
    eexists. split; [reflexivity|]. split; [reflexivity|].
    cbn [Start running queue wconfig]. auto.
Qed.

Definition an_sdk (testing : bool) (w : option Worker) : SDK :=
  {| config := Some (NewConfiguration no_env a_Config);
     worker := w; initialized := true;
     testingEnabled := testing; testingNotices := [] |}.

Definition nothing_assignable : rtype -> rtype -> bool := fun _ _ => false.

Lemma Notify_stops_or_faults_witness :
  (NotifyWithContext GoRegexp.Compile GoRegexp.MatchString nothing_assignable
     (an_sdk false None) BuilderFacts.a_process false WorkerFacts.a_world
     Ctx.NilContext None []
   = Ok (an_sdk false None, WorkerFacts.a_world, None)
   /\ NotifySyncWithContext GoRegexp.Compile GoRegexp.MatchString
        nothing_assignable (an_sdk false None) BuilderFacts.a_process
        WorkerFacts.a_world Ctx.NilContext None []
      = Ok (an_sdk false None, WorkerFacts.a_world, None))
  /\ (NotifyWithContext GoRegexp.Compile GoRegexp.MatchString
        nothing_assignable (an_sdk false None) BuilderFacts.a_process false
        WorkerFacts.a_world (Ctx.WithValue None)
        (Some BuilderFacts.test_error) []
      = Panic "runtime error: invalid memory address or nil pointer dereference"
      /\ NotifySyncWithContext GoRegexp.Compile GoRegexp.MatchString
           nothing_assignable (an_sdk false None) BuilderFacts.a_process
           WorkerFacts.a_world (Ctx.WithValue None)
           (Some BuilderFacts.test_error) []
         = Panic "runtime error: invalid memory address or nil pointer dereference").
Proof.
  split.
  - apply (Notify_stops_or_faults GoRegexp.Compile GoRegexp.MatchString
             nothing_assignable (an_sdk false None) BuilderFacts.a_process
             false WorkerFacts.a_world Ctx.NilContext None []).
    right. right. right. left. reflexivity.
  - apply (Notify_stops_or_faults GoRegexp.Compile GoRegexp.MatchString
             nothing_assignable (an_sdk false None) BuilderFacts.a_process
             false WorkerFacts.a_world (Ctx.WithValue None)
             (Some BuilderFacts.test_error) []).
    + intros [H | [H | [(c & H & He) | [H | H]]]];
        [discriminate | discriminate
        | injection H as <-; vm_compute in He; discriminate
        | discriminate
        | vm_compute in H; discriminate].
    + intros [d Hd]. discriminate.
Defined.

Lemma Configure_worker_witness :
  exists w,
    NewWorker (base (NewConfiguration no_env a_Config)) = Some w
    /\ Configure no_env (an_sdk false None) a_Config
       = Ok {| config := Some (NewConfiguration no_env a_Config);
               worker := Some (Start w); initialized := true;
               testingEnabled := false; testingNotices := [] |}
    /\ running (Start w) = true
    /\ queue (Start w) = []
    /\ 0 < Config.MaxQueueSize (wconfig (Start w)).
Proof.
  apply (Configure_worker no_env (an_sdk false None) a_Config).
  - reflexivity.
  - vm_compute. discriminate.
Defined.

Definition notify_test (sdk : SDK) : outcome (SDK * World * option Notice) :=
  NotifyWithContext GoRegexp.Compile GoRegexp.MatchString nothing_assignable
    sdk BuilderFacts.a_process false WorkerFacts.a_world
    Ctx.NoValue (Some BuilderFacts.test_error) [Opt.WithTags ["a"; "b"]].

Definition notify_sync_test (sdk : SDK)
    : outcome (SDK * World * option APIResponse) :=
  NotifySyncWithContext GoRegexp.Compile GoRegexp.MatchString
    nothing_assignable sdk BuilderFacts.a_process WorkerFacts.a_world
    Ctx.NoValue (Some BuilderFacts.test_error) [Opt.WithTags ["a"; "b"]].

Lemma Notify_testing_mode_witness :
  (notify_test (an_sdk true None)
   = Ok (an_sdk true None, WorkerFacts.a_world, None)
   /\ notify_sync_test (an_sdk true None)
      = Ok (an_sdk true None, WorkerFacts.a_world, None))
  \/ exists notice,
       notify_test (an_sdk true None)
       = Ok (capture (an_sdk true None) notice, WorkerFacts.a_world, None)
       /\ notify_sync_test (an_sdk true None)
          = Ok (capture (an_sdk true None) notice, WorkerFacts.a_world,
                Some {| ID := 0; ProblemID := 0 |})
       /\ TestingLastNotice (capture (an_sdk true None) notice) = Some notice
       /\ TestingNoticeCount (capture (an_sdk true None) notice)
          = TestingNoticeCount (an_sdk true None) + 1
       /\ worker (capture (an_sdk true None) notice) = worker (an_sdk true None).
Proof.
  apply (Notify_testing_mode GoRegexp.Compile GoRegexp.MatchString
           nothing_assignable (an_sdk true None) BuilderFacts.a_process
           false WorkerFacts.a_world Ctx.NoValue (Some BuilderFacts.test_error)
           [Opt.WithTags ["a"; "b"]]).
  - reflexivity.
  - eexists. reflexivity.
Defined.

(** The end-to-end test of the repository: one error reported in testing
    mode with a fingerprint and two tags is recorded once, with them. *)
Example TestNotifyWithOptions :
  exists notice,
    NotifyWithContext GoRegexp.Compile GoRegexp.MatchString nothing_assignable
      (an_sdk true None) BuilderFacts.a_process false WorkerFacts.a_world
      Ctx.NoValue (Some BuilderFacts.test_error)
      [Opt.WithFingerprint "custom-fp"; Opt.WithTags ["a"; "b"]]
    = Ok (capture (an_sdk true None) notice, WorkerFacts.a_world, None)
    /\ Message notice = "test error"
    /\ Fingerprint notice = "custom-fp"
    /\ Tags notice = ["a"; "b"].
Proof. eexists. split; [vm_compute; reflexivity|]. repeat split. Qed.

(** A context with a nil pointer stored under the key of the package
    makes the notification of a reportable error fault. *)
Example Notify_nil_data_faults :
  NotifyWithContext GoRegexp.Compile GoRegexp.MatchString nothing_assignable
    (an_sdk true None) BuilderFacts.a_process false WorkerFacts.a_world
    (Ctx.WithValue None) (Some BuilderFacts.test_error) []
  = Panic Ctx.nil_dereference.
Proof. vm_compute. reflexivity. Qed.

(** An option with an empty user map hides the user of the context
    data. *)
Lemma prepare_notice_witness :
  exists n,
    buildNotice (NewConfiguration no_env a_Config) BuilderFacts.a_process
      (Ctx.WithValue (Some some_data)) (Some BuilderFacts.test_error)
      [Opt.WithTags ["a"; "b"]; Opt.WithUser (Some ∅)]
    = Ok n
    /\ Tags n = ["a"; "b"]
    /\ NoticeM.Context n = Some {[ "request_id" := VString "r-1" ]}
    /\ NoticeM.User n = None.
Proof.
  destruct (prepare_notice GoRegexp.Compile GoRegexp.MatchString
              nothing_assignable (an_sdk true None) BuilderFacts.a_process
              (Ctx.WithValue (Some some_data)) BuilderFacts.test_error
              [Opt.WithTags ["a"; "b"]; Opt.WithUser (Some ∅)]
              (NewConfiguration no_env a_Config) some_data
              eq_refl eq_refl eq_refl eq_refl eq_refl)
    as (n & Hn & _ & Htags & _ & Hctx & _ & _ & Hu & _).
  exists n. split; [exact Hn|]. split; [exact Htags|]. split.
  - rewrite (Hctx eq_refl). vm_compute. reflexivity.
  - apply Hu. right. reflexivity.
Defined.

Definition routed_sdk : SDK := an_sdk false (Some WorkerFacts.a_worker).

Definition routed_notice : Notice :=
  match prepare GoRegexp.Compile GoRegexp.MatchString nothing_assignable
          routed_sdk BuilderFacts.a_process Ctx.NoValue
          (Some BuilderFacts.test_error) [] with
  | Ok (Some (_, notice)) => notice
  | _ => WorkerFacts.a_notice ""
  end.

Lemma Notify_routes_witness :
  NotifyWithContext GoRegexp.Compile GoRegexp.MatchString
    nothing_assignable routed_sdk BuilderFacts.a_process false
    WorkerFacts.a_world Ctx.NoValue (Some BuilderFacts.test_error) []
  = Ok (set_worker routed_sdk
          (Some (WorkerFacts.with_queue WorkerFacts.a_worker
                   (queue WorkerFacts.a_worker ++ [routed_notice]))),
        WorkerFacts.a_world, None).
Proof.
  assert (Hprep : prepare GoRegexp.Compile GoRegexp.MatchString
                    nothing_assignable routed_sdk BuilderFacts.a_process Ctx.NoValue
                    (Some BuilderFacts.test_error) []
                  = Ok (Some (NewConfiguration no_env a_Config, routed_notice))).
  { vm_compute. reflexivity. }
  destruct (Notify_routes GoRegexp.Compile GoRegexp.MatchString
              nothing_assignable routed_sdk
              BuilderFacts.a_process false WorkerFacts.a_world Ctx.NoValue
              (Some BuilderFacts.test_error) [] _ WorkerFacts.a_worker _
              Hprep eq_refl eq_refl eq_refl)
    as (_ & _ & Hroom & _).
  apply Hroom; [reflexivity | reflexivity | vm_compute; reflexivity].
Defined.

Definition accept : Cfg.Callback := fun n => (true, n).
Definition refuse : Cfg.Callback := fun n => (false, n).

Lemma runBeforeNotify_halts_witness :
  runBeforeNotify ([accept] ++ refuse :: [accept]) (WorkerFacts.a_notice "one")
  = (false, (refuse (runBeforeNotify [accept] (WorkerFacts.a_notice "one")).2).2)
  /\ runBeforeNotify ([accept] ++ refuse :: [accept]) (WorkerFacts.a_notice "one")
     = runBeforeNotify ([accept] ++ refuse :: []) (WorkerFacts.a_notice "one").
Proof.
  apply (runBeforeNotify_halts [accept] [accept] [] refuse
           (WorkerFacts.a_notice "one")); reflexivity.
Defined.

End PipelineFacts.

(** ** The integrations *)

Module IntegrationsFacts.
Import GoStrings Values Reflect Config NoticeM Sanitize Builder WorkerM.
Import Resolve Pipeline Integrations.
Import GoStringsFacts ValuesFacts SanitizeFacts PipelineFacts.
#[local] Arguments String.append !_ _ / : simpl nomatch.

Lemma toLower_lower_byte (c : ascii) : toLower c = lower_byte c.
Proof. reflexivity. Qed.

Lemma length_ToLower (s : string) : String.length (ToLower s) = String.length s.
Proof.
  unfold ToLower. induction s as [|c s IH]; [reflexivity|].
  cbn. now rewrite IH.
Qed.

Lemma equalFold_loop_spec (prefix : string) :
  forall s,
    (String.length prefix <= String.length s)%nat ->
    equalFold_loop s prefix = true
    <-> ToLower (take (String.length prefix) s) = ToLower prefix.
Proof.
  induction prefix as [|p prefix IH]; intros s Hlen.
  - cbn. split; reflexivity.
  - destruct s as [|c s]; [cbn in Hlen; lia|].
    cbn [equalFold_loop String.length take ToLower map_bytes].
    change toLower with lower_byte.
    destruct (Ascii.eqb_spec (lower_byte c) (lower_byte p)) as [Heq | Hne];
      cbn [negb].
    + rewrite IH by (cbn in Hlen; lia). unfold ToLower. rewrite Heq.
      split; [intros ->; reflexivity | intros [= H]; exact H].
    + split; [discriminate | intros [= H _]; contradiction].
Qed.

Lemma equalFoldPrefix_spec (s prefix : string) :
  equalFoldPrefix s prefix = true
  <-> (String.length prefix <= String.length s)%nat
      /\ ToLower (take (String.length prefix) s) = ToLower prefix.
Proof.
  unfold equalFoldPrefix, len.
  destruct (Z.ltb_spec (Z.of_nat (String.length s))
              (Z.of_nat (String.length prefix))) as [Hlt | Hge].
  - split; [discriminate | intros [H _]; lia].
  - rewrite equalFold_loop_spec by lia. split; [intros H; split; [lia | exact H]|].
    now intros [_ H].
Qed.

Lemma take_app_length (s t : string) : take (String.length s) (s +:+ t) = s.
Proof. induction s as [|c s IH]; cbn; [now destruct t | now rewrite IH]. Qed.

(** One turn of the recursion of [containsIgnoreCase]. *)
Lemma containsIgnoreCase_step (c : ascii) (s substr : string) :
  containsIgnoreCase (String c s) substr
  = (len substr <=? len (String c s))
    && (String.eqb (String c s) substr
        || ((len substr <? len (String c s))
            && (containsIgnoreCase s substr
                || equalFoldPrefix (String c s) substr))).
Proof. reflexivity. Qed.

(** A match of [substr] in [s] that does not end at the end of [s], up
    to the case of the ASCII letters. *)
Definition inner_fold_match (s substr : string) : Prop :=
  exists pre mid post,
    s = pre +:+ mid +:+ post /\ post <> ""
    /\ ToLower mid = ToLower substr.

Lemma containsIgnoreCase_iff (substr s : string) :
  containsIgnoreCase s substr = true
  <-> HasSuffix s substr = true \/ inner_fold_match s substr.
Proof.
  induction s as [|c s IH].
  - cbn [containsIgnoreCase]. unfold len. cbn [String.length].
    destruct substr as [|p substr].
    + cbn. split; [now left | reflexivity].
    + replace (Z.of_nat (String.length (String p substr)) <=? Z.of_nat 0)
        with false by (symmetry; apply Z.leb_gt; cbn [String.length]; lia).
      cbn [andb]. split; [discriminate|].
      intros [H | (pre & mid & post & Hs & Hpost & _)]; [discriminate|].
      destruct pre; [|discriminate]. destruct mid; [|discriminate].
      cbn in Hs. congruence.
  - rewrite containsIgnoreCase_step. unfold len. cbn [String.length].
    split.
    + intros H. apply andb_true_iff in H as [Hle H].
      apply orb_true_iff in H as [Heq | H].
      { apply String.eqb_eq in Heq. left. rewrite <- Heq.
        apply (HasSuffix_app "" (String c s)). }
      apply andb_true_iff in H as [Hlt H]. apply Z.ltb_lt in Hlt.
      apply orb_true_iff in H as [Hrec | Hfold].
      * apply IH in Hrec as [Hsuf | (pre & mid & post & Hs & Hpost & Hmid)].
        -- left. apply HasSuffix_elim in Hsuf as [u ->].
           apply (HasSuffix_app (String c u) substr).
        -- right. exists (String c pre), mid, post. subst s. auto.
      * apply equalFoldPrefix_spec in Hfold as [Hlen Hmid].
        right. exists "", (take (String.length substr) (String c s)),
                 (drop (String.length substr) (String c s)).
        split; [cbn [String.append]; now rewrite take_drop|].
        split; [|exact Hmid].
        intros Hdrop.
        pose proof (take_drop (String.length substr) (String c s)) as Htd.
        rewrite Hdrop in Htd.
        apply (f_equal String.length) in Htd.
        rewrite length_app_str, length_take in Htd by exact Hlen.
        cbn [String.length] in *. lia.
    + intros [Hsuf | (pre & mid & post & Hs & Hpost & Hmid)].
      * apply HasSuffix_elim in Hsuf as [u Hu].
        assert (Hlen : String.length (String c s)
                       = (String.length u + String.length substr)%nat)
          by (rewrite Hu; apply length_app_str).
        cbn [String.length] in Hlen.
        apply andb_true_iff. split; [apply Z.leb_le; lia|].
        destruct u as [|c' u].
        { cbn in Hu. rewrite <- Hu, String.eqb_refl. reflexivity. }
        cbn [String.append] in Hu. injection Hu as <- ->.
        apply orb_true_iff. right. apply andb_true_iff.
        split; [apply Z.ltb_lt; cbn [String.length] in Hlen; lia|].
        apply orb_true_iff. left. apply IH. left. apply HasSuffix_app.
      * assert (Hmlen : String.length mid = String.length substr).
        { rewrite <- (length_ToLower mid), Hmid. apply length_ToLower. }
        assert (Hlen : String.length (String c s)
                       = (String.length pre + (String.length substr
                                               + String.length post))%nat).
        { rewrite Hs, !length_app_str, Hmlen. reflexivity. }
        assert (Hpl : (0 < String.length post)%nat).
        { destruct post; [contradiction | cbn; lia]. }
        cbn [String.length] in Hlen.
        apply andb_true_iff. split; [apply Z.leb_le; lia|].
        apply orb_true_iff. right. apply andb_true_iff.
        split; [apply Z.ltb_lt; lia|].
        apply orb_true_iff. destruct pre as [|c' pre].
        -- right. apply equalFoldPrefix_spec. cbn [String.length].
           split; [lia|]. rewrite Hs. cbn [String.append].
           rewrite <- Hmlen, take_app_length. exact Hmid.
        -- left. cbn [String.append] in Hs. injection Hs as _ ->.
           apply IH. right. exists pre, mid, post. auto.
Qed.

(** X27. [containsIgnoreCase] finds [substr] in [s], up to the case of
    the ASCII letters, at every position but the last one that fits: where
    the match would end at the end of [s], the bytes have to be equal.
    So for two strings of the same length it is plain equality, and a key
    that ends with a pattern in another case is not sensitive unless the
    pattern occurs earlier in it. *)
Theorem containsIgnoreCase_spec (s substr : string) :
  (containsIgnoreCase s substr = true
   <-> HasSuffix s substr = true \/ inner_fold_match s substr)
  /\ (String.length s = String.length substr ->
      containsIgnoreCase s substr = true <-> s = substr)
  /\ (containsIgnoreCase s substr = true ->
      Contains (ToLower s) (ToLower substr) = true).
Proof.
  split; [apply containsIgnoreCase_iff|]. split.
  - intros Hlen. rewrite containsIgnoreCase_iff. split.
    + intros [Hsuf | (pre & mid & post & Hs & Hpost & Hmid)].
      * apply HasSuffix_elim in Hsuf as [u Hu].
        apply (f_equal String.length) in Hu as Hl.
        rewrite length_app_str in Hl. destruct u; [exact Hu | cbn in Hl; lia].
      * apply (f_equal String.length) in Hs.
        rewrite !length_app_str in Hs.
        assert (String.length mid = String.length substr).
        { rewrite <- (length_ToLower mid), Hmid. apply length_ToLower. }
        destruct post; [contradiction | cbn in Hs; lia].
    + intros ->. left. apply (HasSuffix_app "" substr).
  - rewrite containsIgnoreCase_iff.
    assert (Happ : forall a b, ToLower (a +:+ b) = ToLower a +:+ ToLower b).
    { intros a b. unfold ToLower. induction a as [|x a IHa]; [reflexivity|].
      cbn. now rewrite IHa. }
    intros [Hsuf | (pre & mid & post & Hs & _ & Hmid)].
    + apply HasSuffix_elim in Hsuf as [u ->]. rewrite Happ.
      apply Contains_iff. exists (String.length (ToLower u)).
      rewrite drop_app_length.
      apply SanitizeMoreFacts.HasPrefix_refl.
    + rewrite Hs, !Happ, Hmid. apply Contains_iff.
      exists (String.length (ToLower pre)).
      rewrite drop_app_length. apply HasPrefix_app.
Qed.

(** The keys of the upper-case patterns are not sensitive; they are when
    something follows. *)
Example isSensitiveKey_cases :
  isSensitiveKey "password" = true
  /\ isSensitiveKey "PASSWORD" = false
  /\ isSensitiveKey "Password" = false
  /\ isSensitiveKey "user_TOKEN" = false
  /\ isSensitiveKey "TOKEN_id" = true
  /\ isSensitiveKey "PASSWORDS" = true.
Proof. repeat split; vm_compute; reflexivity. Qed.

(** No key on the path is sensitive. *)
Definition path_plain (p : path) : bool :=
  forallb (fun st => match st with
                     | Key k => negb (isSensitiveKey k)
                     | Idx _ => true
                     end) p.

(** The entry that [sanitizeJobArgs] writes for a key. *)
Definition job_entry (key : string) (val : value) : option value :=
  Some (if isSensitiveKey key then VString "[FILTERED]"
        else sanitizeJobArgs val).

Lemma sanitizeJobArgs_map (m : gmap string value) :
  sanitizeJobArgs (VMap m) = VMap (map_imap job_entry m).
Proof. reflexivity. Qed.

Lemma sanitizeJobArgs_slice (l : list value) :
  sanitizeJobArgs (VSlice l) = VSlice (map sanitizeJobArgs l).
Proof. reflexivity. Qed.

Lemma sanitizeJobArgs_marker (p : path) :
  forall v k y,
    get (p ++ [Key k]) (sanitizeJobArgs v) = Some y ->
    isSensitiveKey k = true ->
    y = VString "[FILTERED]".
Proof.
  induction p as [|st p IH]; intros v k y Hget Hk.
  - destruct v as [m | l | s | x | o]; try discriminate.
    rewrite sanitizeJobArgs_map in Hget. cbn [app get] in Hget.
    rewrite map_lookup_imap in Hget.
    destruct (m !! k) as [x|]; [|discriminate]. cbn [mbind option_bind] in Hget.
    unfold job_entry in Hget. rewrite Hk in Hget. congruence.
  - destruct st as [k1 | i]; destruct v as [m | l | s | x | o];
      try discriminate.
    + rewrite sanitizeJobArgs_map in Hget. cbn [app get] in Hget.
      rewrite map_lookup_imap in Hget.
      destruct (m !! k1) as [x|]; [|discriminate]. cbn [mbind option_bind] in Hget.
      unfold job_entry in Hget. destruct (isSensitiveKey k1).
      * destruct p as [|[?|?] ?]; discriminate.
      * eapply IH; eauto.
    + rewrite sanitizeJobArgs_slice in Hget. cbn [app get] in Hget.
      rewrite list_lookup_fmap in Hget.
      destruct (l !! i) as [x|]; [|discriminate].
      cbn [fmap option_fmap option_map] in Hget. eapply IH; eauto.
Qed.

Lemma sanitizeJobArgs_clear (p : path) :
  forall v x,
    get p v = Some x -> path_plain p = true ->
    get p (sanitizeJobArgs v) = Some (sanitizeJobArgs x).
Proof.
  induction p as [|st p IH]; intros v x Hget Hp.
  - cbn in *. congruence.
  - cbn [path_plain forallb] in Hp. apply andb_true_iff in Hp as [Hst Hp].
    destruct st as [k1 | i]; destruct v as [m | l | s | y | o];
      try discriminate; cbn [get] in Hget.
    + rewrite sanitizeJobArgs_map. cbn [get]. rewrite map_lookup_imap.
      destruct (m !! k1) as [y|]; [|discriminate]. cbn [mbind option_bind].
      apply negb_true_iff in Hst. unfold job_entry. rewrite Hst. now apply IH.
    + rewrite sanitizeJobArgs_slice. cbn [get]. rewrite list_lookup_fmap.
      destruct (l !! i) as [y|]; [|discriminate]. cbn [fmap option_fmap option_map].
      now apply IH.
Qed.

Lemma sanitizeJobArgs_idem (v : value) :
  sanitizeJobArgs (sanitizeJobArgs v) = sanitizeJobArgs v.
Proof.
  induction v as [m IH | l IH | s | x | o] using value_nested_ind;
    try reflexivity.
  - rewrite !sanitizeJobArgs_map. f_equal. apply map_eq. intros k.
    rewrite !map_lookup_imap. destruct (m !! k) as [x|] eqn:Hk; [|reflexivity].
    cbn [mbind option_bind]. unfold job_entry at 2 3. cbn [mbind option_bind].
    unfold job_entry. destruct (isSensitiveKey k); [reflexivity|].
    f_equal. exact (IH k x Hk).
  - rewrite !sanitizeJobArgs_slice. f_equal. rewrite map_map.
    induction IH as [|x l Hx Hl IHl]; [reflexivity|].
    cbn. now rewrite Hx, IHl.
Qed.

(** X28. [sanitizeJobArgs] puts the marker under every sensitive key, at
    any depth; along a path without sensitive key it follows the input,
    without a bound on the depth, and leaves every string, scalar and
    value of another type as it is; applied twice it gives what it gives
    applied once. *)
Theorem sanitizeJobArgs_redacts (v : value) :
  (forall p k y,
      get (p ++ [Key k]) (sanitizeJobArgs v) = Some y ->
      isSensitiveKey k = true ->
      y = VString "[FILTERED]")
  /\ (forall p x,
        get p v = Some x -> path_plain p = true ->
        get p (sanitizeJobArgs v) = Some (sanitizeJobArgs x)
        /\ (match x with
            | VMap _ | VSlice _ => True
            | _ => sanitizeJobArgs x = x
            end))
  /\ sanitizeJobArgs (sanitizeJobArgs v) = sanitizeJobArgs v.
Proof.
  split; [intros p k y; apply sanitizeJobArgs_marker|].
  split; [|apply sanitizeJobArgs_idem].
  intros p x Hget Hp. split; [now apply sanitizeJobArgs_clear|].
  now destruct x.
Qed.

Section AnyEngine.
Context {R : Type}.
Variable regexp_Compile : string -> option R.
Variable regexp_MatchString : R -> string -> bool.
Variable AssignableTo : rtype -> rtype -> bool.

#[local] Abbreviation NotifyWithContext :=
  (NotifyWithContext regexp_Compile regexp_MatchString AssignableTo).
#[local] Abbreviation MachineryErrorHandler :=
  (MachineryErrorHandler regexp_Compile regexp_MatchString AssignableTo).
#[local] Abbreviation GinErrorHandler :=
  (GinErrorHandler regexp_Compile regexp_MatchString AssignableTo).

(** The context that [SetContext] makes of the data [d] and the map
    [data]. *)
Definition with_context (d : Ctx.ContextData) (data : gmap string value)
    : Ctx.GoContext :=
  Ctx.WithValue
    (Some {| Ctx.Context := Some (merged (Ctx.Context d) (Some data));
             Ctx.User := Ctx.User d;
             Ctx.Request := Ctx.Request d |}).

Lemma SetContext_readable (ctx : Ctx.GoContext) (d : Ctx.ContextData)
    (data : gmap string value) :
  Ctx.GetContextData ctx = Ok (Some d) ->
  Ctx.SetContext ctx (Some data) = Ok (with_context d data).
Proof.
  intros Hd. unfold Ctx.SetContext. rewrite Hd.
  cbn [mbind outcome_bind Ctx.deref]. rewrite merge_loops.
  destruct ctx; [discriminate | reflexivity | reflexivity].
Qed.

Lemma SetContext_unreadable (ctx : Ctx.GoContext)
    (data : option (gmap string value)) :
  ~ readable ctx -> Ctx.SetContext ctx data = Panic Ctx.nil_dereference.
Proof.
  intros Hno. unfold Ctx.SetContext.
  destruct (readable_dec ctx) as [H | H]; [contradiction | apply H].
Qed.

(** X29. [MachineryErrorHandler] does nothing on a nil error. On any
    other error it first adds the task name to the context, so with a nil
    context, or one that holds nil data, it faults with the nil
    dereference of the runtime even when the package is not configured or
    not enabled, where [NotifyWithContext] itself would return. Otherwise
    it is [NotifyWithContext] on the context with the entry "machinery"
    added, with the tags of the integration put before the caller's
    options. *)
Theorem MachineryErrorHandler_spec (sdk : SDK) (proc : Process)
    (receiver_waiting : bool) (st : World) (ctx : Ctx.GoContext)
    (taskName : string) (err : option GoError)
    (opts : list Opt.NotifyOption) :
  (err = None ->
   MachineryErrorHandler sdk proc receiver_waiting st ctx taskName err opts
   = Ok (sdk, st, None))
  /\ (err <> None -> ~ readable ctx ->
      MachineryErrorHandler sdk proc receiver_waiting st ctx taskName err opts
      = Panic "runtime error: invalid memory address or nil pointer dereference")
  /\ (forall d,
        err <> None -> Ctx.GetContextData ctx = Ok (Some d) ->
        MachineryErrorHandler sdk proc receiver_waiting st ctx taskName err opts
        = NotifyWithContext sdk proc receiver_waiting st
            (with_context d
               {[ "machinery" := VMap {[ "task_name" := VString taskName ]} ]})
            err (Opt.WithTags ["machinery"; "background_job"] :: opts)).
Proof.
  unfold Integrations.MachineryErrorHandler.
  split; [now intros ->|]. split.
  - intros Herr Hno. destruct err as [e|]; [|contradiction].
    now rewrite SetContext_unreadable.
  - intros d Herr Hd. destruct err as [e|]; [|contradiction].
    now rewrite (SetContext_readable ctx d _ Hd).
Qed.

End AnyEngine.

(** The request map that [extractRequest] makes has its headers under
    "headers". *)
Lemma extractRequest_headers (r : HttpRequest) (request : gmap string value) :
  extractRequest r = Ok request ->
  request !! "headers" = Some (VMap (values_entry <$> Header r))
  /\ 0 < map_len (Some request).
Proof.
  unfold extractRequest. destruct (URL r) as [u|]; [|discriminate].
  cbn [mbind outcome_bind].
  assert (Hpos : forall m : gmap string value,
             is_Some (m !! "headers") -> 0 < map_len (Some m)).
  { intros m [x Hx]. cbn [map_len].
    assert (size m <> 0%nat); [|lia].
    intros H0. apply map_size_empty_iff in H0. subst m.
    rewrite lookup_empty in Hx. discriminate. }
  match goal with
  | |- context [<["url" := ?x]> ?m] => set (request0 := <["url" := x]> m)
  end.
  assert (H0 : request0 !! "headers"
               = Some (VMap (values_entry <$> Header r))).
  { unfold request0. rewrite !lookup_insert_ne by discriminate.
    apply lookup_insert_eq. }
  destruct (negb (String.eqb (RawQuery u) "")); intros [= <-].
  - assert (H1 : <["params" := VMap (values_entry <$> Query u)]> request0
                 !! "headers"
                 = Some (VMap (values_entry <$> Header r)))
      by (rewrite lookup_insert_ne by discriminate; exact H0).
    split; [exact H1 | apply Hpos; eauto].
  - split; [exact H0 | apply Hpos; eauto].
Qed.

(** What the filter makes of a header. *)
Definition reported_header (f : SanitizeFilter) (h : string)
    (values : list string) : value :=
  if shouldFilter f h then VString FilteredValue
  else match values with
       | [v] => VString (truncateString v)
       | _ => VString "[UNKNOWN TYPE]"
       end.

(** X30. The request data of a notice built from the map of
    [extractRequest] holds each header of the request under "headers":
    the marker for a redacted name, else the value of a header that has
    exactly one, and the text "[UNKNOWN TYPE]" for a header with several
    values or none, whose values are thus not reported. *)
Theorem request_headers_reported (b : NoticeBuilder) (proc : Process)
    (e : GoError) (context user : option (gmap string value))
    (fingerprint : string) (tags : list string) (n : Notice)
    (r : HttpRequest) (request : gmap string value)
    (h : string) (values : list string) :
  extractRequest r = Ok request ->
  Build b proc (Some e) context user (Some request) fingerprint tags = Ok n ->
  SendRequestData (bconfig b) = true ->
  shouldFilter (sanitizeFilter b) "headers" = false ->
  Header r !! h = Some values ->
  exists out,
    NoticeM.Request n = Some out
    /\ get [Key "headers"; Key h] (VMap out)
       = Some (reported_header (sanitizeFilter b) h values).
Proof.
  intros Hreq Hbuild Hsend Hkey Hh.
  destruct (extractRequest_headers r request Hreq) as [Hheaders Hlen].
  destruct (BuilderEnvFacts.Build_contents b proc e context user (Some request)
              fingerprint tags n Hbuild)
    as (_ & _ & _ & Hr & _).
  specialize (Hr Hsend Hlen). cbn [Filter] in Hr.
  eexists. split; [exact Hr|].
  rewrite Filter_as_value.
  change [Key "headers"; Key h] with ([Key "headers"] ++ [Key h]).
  rewrite get_app.
  rewrite (get_filter_clear (sanitizeFilter b) [Key "headers"] (VMap request) 0
             (VMap (values_entry <$> Header r))).
  - cbn [List.length]. rewrite filterValue_shallow by (unfold maxDepth; lia).
    cbn [get]. rewrite map_lookup_imap, lookup_fmap, Hh.
    cbn [fmap option_fmap option_map mbind option_bind].
    unfold reported_header, entry.
    destruct (shouldFilter (sanitizeFilter b) h); [reflexivity|].
    rewrite filterValue_shallow by (unfold maxDepth; lia).
    destruct values as [|v [|v' vs]]; reflexivity.
  - cbn [get]. now rewrite Hheaders.
  - cbn [path_clear forallb]. now rewrite Hkey.
  - cbn [List.length]. unfold maxDepth. lia.
Qed.

Definition a_request : HttpRequest :=
  {| TLS := true; Host := "example.com"; RequestURI := "/orders?id=7";
     Method := "GET";
     Header := {[ "Accept" := ["text/html"; "application/json"];
                  "Authorization" := ["Bearer abc"];
                  "User-Agent" := ["curl/8.0"] ]};
     URL := Some {| RawQuery := "id=7"; Query := {[ "id" := ["7"] ]} |};
     rctx := Ctx.NilContext |}.

Definition a_request_map : gmap string value :=
  match extractRequest a_request with
  | Ok m => m
  | Panic _ => ∅
  end.

Definition a_request_notice : Notice :=
  match Build (NewNoticeBuilder ClientFacts.test_config)
          BuilderFacts.a_process (Some BuilderFacts.test_error) (Some ∅)
          None (Some a_request_map) "" [] with
  | Ok n => n
  | Panic _ => WorkerFacts.a_notice ""
  end.

Lemma request_headers_reported_witness :
  exists out,
    NoticeM.Request a_request_notice = Some out
    /\ get [Key "headers"; Key "Accept"] (VMap out)
       = Some (VString "[UNKNOWN TYPE]").
Proof.
  assert (Hbuild :
            Build (NewNoticeBuilder ClientFacts.test_config)
              BuilderFacts.a_process (Some BuilderFacts.test_error) (Some ∅)
              None (Some a_request_map) "" []
            = Ok a_request_notice).
  { vm_compute. reflexivity. }
  destruct (request_headers_reported
              (NewNoticeBuilder ClientFacts.test_config) BuilderFacts.a_process
              BuilderFacts.test_error (Some ∅) None "" [] a_request_notice
              a_request a_request_map "Accept"
              ["text/html"; "application/json"]
              eq_refl Hbuild eq_refl eq_refl eq_refl)
    as (out & Hout & Hget).
  exists out. split; [exact Hout | exact Hget].
Defined.

(** The request of the witness, as the notice reports it. *)
Example a_request_reported :
  Sanitize.Filter
    (sanitizeFilter
       (NewNoticeBuilder (base (NewConfiguration ResolveFacts.no_env
                                  ResolveFacts.a_Config))))
    (Some a_request_map)
  = Some {[ "url" := VString "https://example.com/orders?id=7";
            "method" := VString "GET";
            "headers" :=
              VMap {[ "Accept" := VString "[UNKNOWN TYPE]";
                      "Authorization" := VString "[FILTERED]";
                      "User-Agent" := VString "curl/8.0" ]};
            "params" := VMap {[ "id" := VString "7" ]} ]}.
Proof. vm_compute. reflexivity. Qed.

Lemma MachineryErrorHandler_spec_witness :
  MachineryErrorHandler GoRegexp.Compile GoRegexp.MatchString
    nothing_assignable (an_sdk true None) BuilderFacts.a_process false
    WorkerFacts.a_world Ctx.NoValue "send_email"
    (Some BuilderFacts.test_error) []
  = Pipeline.NotifyWithContext GoRegexp.Compile GoRegexp.MatchString
      nothing_assignable (an_sdk true None) BuilderFacts.a_process false
      WorkerFacts.a_world
      (with_context {| Ctx.Context := Some ∅; Ctx.User := Some ∅;
                       Ctx.Request := Some ∅ |}
         {[ "machinery" := VMap {[ "task_name" := VString "send_email" ]} ]})
      (Some BuilderFacts.test_error)
      [Opt.WithTags ["machinery"; "background_job"]]
  /\ MachineryErrorHandler GoRegexp.Compile GoRegexp.MatchString
       nothing_assignable (an_sdk true None) BuilderFacts.a_process false
       WorkerFacts.a_world (Ctx.WithValue None) "send_email"
       (Some BuilderFacts.test_error) []
     = Panic "runtime error: invalid memory address or nil pointer dereference".
Proof.
  split.
  - destruct (MachineryErrorHandler_spec GoRegexp.Compile
                GoRegexp.MatchString nothing_assignable (an_sdk true None)
                BuilderFacts.a_process false WorkerFacts.a_world Ctx.NoValue
                "send_email" (Some BuilderFacts.test_error) [])
      as (_ & _ & H).
    apply (H {| Ctx.Context := Some ∅; Ctx.User := Some ∅;
                Ctx.Request := Some ∅ |}); [discriminate | reflexivity].
  - destruct (MachineryErrorHandler_spec GoRegexp.Compile
                GoRegexp.MatchString nothing_assignable (an_sdk true None)
                BuilderFacts.a_process false WorkerFacts.a_world
                (Ctx.WithValue None) "send_email"
                (Some BuilderFacts.test_error) [])
      as (_ & H & _).
    apply H; [discriminate | intros [d Hd]; discriminate].
Defined.

(** With a nil context the handler of the integration faults although
    the package is not configured, where [NotifyWithContext] returns. *)
Example handler_faults_unconfigured :
  MachineryErrorHandler GoRegexp.Compile GoRegexp.MatchString
    nothing_assignable
    {| config := None; worker := None; initialized := false;
       testingEnabled := false; testingNotices := [] |}
    BuilderFacts.a_process false WorkerFacts.a_world Ctx.NilContext
    "send_email" (Some BuilderFacts.test_error) []
  = Panic Ctx.nil_dereference
  /\ Pipeline.NotifyWithContext GoRegexp.Compile GoRegexp.MatchString
       nothing_assignable
       {| config := None; worker := None; initialized := false;
          testingEnabled := false; testingNotices := [] |}
       BuilderFacts.a_process false WorkerFacts.a_world Ctx.NilContext
       (Some BuilderFacts.test_error) []
     = Ok ({| config := None; worker := None; initialized := false;
              testingEnabled := false; testingNotices := [] |},
           WorkerFacts.a_world, None).
Proof. split; reflexivity. Qed.

(** Job arguments under an upper-case key pass [sanitizeJobArgs]; the
    filter of the builder, with the default keys, then redacts "PASSWORD"
    but not "KEY". *)
Example job_args_upper_case :
  sanitizeJobArgs
    (VSlice [VMap {[ "PASSWORD" := VString "p"; "KEY" := VString "k";
                     "key" := VString "k" ]}])
  = VSlice [VMap {[ "PASSWORD" := VString "p"; "KEY" := VString "k";
                    "key" := VString "[FILTERED]" ]}]
  /\ Sanitize.shouldFilter (NewSanitizeFilter DefaultFilterKeys) "PASSWORD"
     = true
  /\ Sanitize.shouldFilter (NewSanitizeFilter DefaultFilterKeys) "KEY"
     = false.
Proof. repeat split; vm_compute; reflexivity. Qed.

End IntegrationsFacts.
